(** * Device session controller of the camera control daemon (host.py)

    A shallow embedding of the pipeline session manager
    ([_make_gst_pipeline], [_start_pipeline], [_stop_pipeline],
    [stream_control], [camera_power]), of the motion controller
    ([motion], [motion_limit]), of the request helpers ([get_ip_address],
    [get_host_for_request], [system_client_ip]), of the configuration file
    ([load_device_config], [save_device_config] and the start-up code
    that applies the loaded configuration) and of the system routes
    ([system_init], [system_hostname]) of [src/host.py], followed by the
    properties proved about them.

    Conventions.
    - A Python number is an unbounded integer or an IEEE binary64 float;
      floats are Rocq's primitive floats, so every arithmetic step rounds
      exactly as the interpreter does.
    - A Python exception is a value of [exn]; code that can raise returns a
      [result].
    - The external collaborators (process launcher, servo bus, file
      system, system commands) are oracles passed as arguments; every
      command sent to them is recorded in a log.
    - The target of a stream and the command built from it are lists of
      code points; the digits of the pattern that reads the target are
      those of the interpreter's Unicode tables, which are handed in with
      the other oracles. *)

From Stdlib Require Import ZArith List String Ascii Bool Lia Floats DecimalString.
Import ListNotations.

Open Scope Z_scope.

(* ===================================================================== *)
(** * Exceptions                                                          *)
(* ===================================================================== *)

Inductive exn : Type :=
| ValueError (msg : string)
| OverflowError
| ZeroDivisionError
| ServoTimeoutError
| OSError.

Inductive result (A : Type) : Type :=
| Ok (a : A)
| Raise (e : exn).

Arguments Ok {A} a.
Arguments Raise {A} e.

Definition rbind {A B : Type} (r : result A) (k : A -> result B) : result B :=
  match r with
  | Ok a => k a
  | Raise e => Raise e
  end.

Declare Scope result_scope.
Delimit Scope result_scope with result.
Notation "x <- r ;; k" := (rbind r (fun x => k))
  (at level 61, r at next level, right associativity) : result_scope.
Notation "' p <- r ;; k" := (rbind r (fun x => match x with p => k end))
  (at level 61, p pattern, r at next level, right associativity) : result_scope.

(** [try: ... except Exception: ...] *)
Definition try_except {A : Type} (r : result A) (handler : exn -> A) : A :=
  match r with
  | Ok a => a
  | Raise e => handler e
  end.

(* ===================================================================== *)
(** * Python numbers                                                      *)
(* ===================================================================== *)

Inductive pynum : Type :=
| PyInt (z : Z)
| PyFloat (f : float).

(** Conversion of an integer to a float: round to nearest, ties to even;
    [OverflowError] when the integer is too large. *)
Definition Z2F (z : Z) : float := SF2Prim (binary_normalize prec emax z 0 false).

Definition int_to_float (z : Z) : result float :=
  let f := Z2F z in
  if is_infinity f then Raise OverflowError else Ok f.

(** [float(x)] *)
Definition py_float (x : pynum) : result float :=
  match x with
  | PyInt z => int_to_float z
  | PyFloat f => Ok f
  end.

(** The integer part of a finite float, as [int(x)] computes it. *)
Definition SF_trunc (s : bool) (m : positive) (e : Z) : Z :=
  let a := match e with
           | Zneg p => Z.shiftr (Zpos m) (Zpos p)
           | _ => Z.shiftl (Zpos m) e
           end in
  if s then - a else a.

Definition float_to_int (f : float) : result Z :=
  match Prim2SF f with
  | S754_zero _ => Ok 0
  | S754_finite s m e => Ok (SF_trunc s m e)
  | S754_infinity _ => Raise OverflowError
  | S754_nan => Raise (ValueError "cannot convert float NaN to integer")
  end.

(** [int(x)] *)
Definition py_int (x : pynum) : result Z :=
  match x with
  | PyInt z => Ok z
  | PyFloat f => float_to_int f
  end.

(** Binary arithmetic: integers stay integers, anything else is computed in
    floats after converting the integer operand. *)
Definition py_arith (zop : Z -> Z -> Z) (fop : float -> float -> float)
    (a b : pynum) : result pynum :=
  match a, b with
  | PyInt x, PyInt y => Ok (PyInt (zop x y))
  | _, _ =>
      (fa <- py_float a ;;
       fb <- py_float b ;;
       Ok (PyFloat (fop fa fb)))%result
  end.

Definition py_add : pynum -> pynum -> result pynum := py_arith Z.add PrimFloat.add.
Definition py_sub : pynum -> pynum -> result pynum := py_arith Z.sub PrimFloat.sub.
Definition py_mul : pynum -> pynum -> result pynum := py_arith Z.mul PrimFloat.mul.

(** True division of two integers: the correctly rounded quotient. *)
Definition int_truediv (a b : Z) : result float :=
  if b =? 0 then Raise ZeroDivisionError
  else
    let neg := xorb (a <? 0) (b <? 0) in
    if a =? 0 then Ok (if neg then neg_zero else zero)
    else
      let '(q, e, l) := SFdiv_core_binary prec emax (Z.abs a) 0 (Z.abs b) 0 in
      let f := SF2Prim (binary_round_aux prec emax neg q e l) in
      if is_infinity f then Raise OverflowError else Ok f.

(** [a / b] *)
Definition py_truediv (a b : pynum) : result pynum :=
  match a, b with
  | PyInt x, PyInt y => (f <- int_truediv x y ;; Ok (PyFloat f))%result
  | _, _ =>
      (fa <- py_float a ;;
       fb <- py_float b ;;
       if is_zero fb then Raise ZeroDivisionError
       else Ok (PyFloat (fa / fb)%float))%result
  end.

(** [abs(x)] *)
Definition py_abs (x : pynum) : pynum :=
  match x with
  | PyInt z => PyInt (Z.abs z)
  | PyFloat f => PyFloat (PrimFloat.abs f)
  end.

(** Comparison of an integer with a float is exact (no conversion of the
    integer); [None] when the float is a NaN. *)
Definition cmp_int_float (z : Z) (f : float) : option comparison :=
  match Prim2SF f with
  | S754_nan => None
  | S754_infinity s => Some (if s then Gt else Lt)
  | S754_zero _ => Some (z ?= 0)
  | S754_finite s m e =>
      let n := if s then Zneg m else Zpos m in
      Some match e with
           | Zneg p => (z * 2 ^ Zpos p) ?= n
           | _ => z ?= n * 2 ^ e
           end
  end.

(** [a < b] *)
Definition py_lt (a b : pynum) : bool :=
  match a, b with
  | PyInt x, PyInt y => x <? y
  | PyFloat x, PyFloat y => (x <? y)%float
  | PyInt x, PyFloat y =>
      match cmp_int_float x y with Some Lt => true | _ => false end
  | PyFloat x, PyInt y =>
      match cmp_int_float y x with Some Gt => true | _ => false end
  end.

(** [a > b] *)
Definition py_gt (a b : pynum) : bool := py_lt b a.

(** [a == b] *)
Definition py_eq (a b : pynum) : bool :=
  match a, b with
  | PyInt x, PyInt y => x =? y
  | PyFloat x, PyFloat y => (x =? y)%float
  | PyInt x, PyFloat y | PyFloat y, PyInt x =>
      match cmp_int_float x y with Some Eq => true | _ => false end
  end.

(** [min(a, b)] and [max(a, b)] of two arguments: the first argument is
    kept unless the second is strictly smaller (resp. larger). *)
Definition py_min (a b : pynum) : pynum := if py_lt b a then b else a.
Definition py_max (a b : pynum) : pynum := if py_gt b a then b else a.

(* ===================================================================== *)
(** * Text helpers                                                        *)
(* ===================================================================== *)

Definition lower_ascii (c : ascii) : ascii :=
  let n := nat_of_ascii c in
  if (Nat.leb 65 n && Nat.leb n 90)%bool then ascii_of_nat (n + 32) else c.

(** [s.lower()] on ASCII text. *)
Fixpoint lower (s : string) : string :=
  match s with
  | EmptyString => EmptyString
  | String c r => String (lower_ascii c) (lower r)
  end.

Definition is_empty (s : string) : bool :=
  match s with EmptyString => true | _ => false end.

(** ** Texts of a request body

    The target of a stream comes from the JSON body of the request and
    can hold any character, and so can the command that is built from
    it: such a text is the list of its code points. *)
Definition text : Type := list N.

(** The text of a literal. *)
Definition codes (s : string) : text := map N_of_ascii (list_ascii_of_string s).

(** Longest prefix of [s] whose characters satisfy [p], and the rest. *)
Fixpoint span (p : N -> bool) (s : text) : text * text :=
  match s with
  | [] => ([], [])
  | c :: r =>
      if p c then let '(a, b) := span p r in (c :: a, b)
      else ([], s)
  end.

Fixpoint strip_prefix (pre s : text) : option text :=
  match pre, s with
  | [], _ => Some s
  | a :: pre', b :: s' =>
      if N.eqb a b then strip_prefix pre' s' else None
  | _ :: _, [] => None
  end.

(** The class [\d] of a pattern on [str]: the digits 0 to 9 and, beyond
    U+007F, the characters that the Unicode tables of the interpreter
    list as decimal digits.  The tables are not part of the sources: the
    test [nd] for them is handed in. *)
Definition is_digit (nd : N -> bool) (c : N) : bool :=
  ((48 <=? c)%N && (c <=? 57)%N || (128 <=? c)%N && nd c)%bool.

(** [re.match(r"udp://([\d.]+):(\d+)", url)]: the match is anchored at the
    start only; both groups are greedy, and since neither character class
    contains the colon, the first group is the longest run of digits and
    dots.  Returns the two groups, [None] when there is no match. *)
Definition match_udp_url (nd : N -> bool) (url : text) : option (text * text) :=
  match strip_prefix (codes "udp://") url with
  | None => None
  | Some rest =>
      let '(host, r1) := span (fun c => is_digit nd c || N.eqb c 46)%bool rest in
      match host with
      | [] => None
      | _ :: _ =>
          match r1 with
          | c :: r2 =>
              if N.eqb c 58 then
                let '(port, _) := span (is_digit nd) r2 in
                match port with
                | [] => None
                | _ :: _ => Some (host, port)
                end
              else None
          | [] => None
          end
      end
  end.

(* ===================================================================== *)
(** * Pipeline session manager                                            *)
(* ===================================================================== *)

(** A process handle ([subprocess.Popen] object). *)
Definition handle := nat.

(** Commands sent to the outside world. *)
Inductive event : Type :=
| Spawn (cmd : text) (h : handle)       (* subprocess.Popen(shlex.split(cmd)) *)
| Sigint (h : handle)                   (* proc.send_signal(signal.SIGINT) *)
| Kill (h : handle)                     (* proc.kill() *)
| ClearHlsDir                           (* mkdir /tmp/hls and empty it *)
| GpioWrite (pin : Z) (v : bool).       (* GPIO.write *)

(** The mutable state: the registry [PIPELINES] (a dict, kept in insertion
    order), the processes that have not exited ([poll()] returns [None] for
    exactly these), the next fresh handle and the camera power pin. *)
Record state : Type := mkState {
  PIPELINES : list (string * handle);
  live : list handle;
  next_handle : handle;
  CAM_POWER : bool
}.

(** A world is the current state, every state passed through before it
    (most recent first) and the log of commands (most recent first). *)
Record world : Type := mkWorld {
  now : state;
  past : list state;
  log : list event
}.

(** What the environment decides. *)
Record env : Type := mkEnv {
  graceful : handle -> bool;   (* the process exits within 5 s of SIGINT *)
  popen_ok : text -> bool;     (* the launcher can start the command *)
  decimal : N -> bool          (* the character, beyond U+007F, is a decimal
                                  digit in the interpreter's Unicode tables *)
}.

(** State and exception monad: a raised exception keeps the mutations made
    before it. *)
Definition M (A : Type) : Type := world -> result A * world.

Definition ret {A : Type} (a : A) : M A := fun w => (Ok a, w).

Definition bind {A B : Type} (m : M A) (k : A -> M B) : M B :=
  fun w =>
    match m w with
    | (Ok a, w1) => k a w1
    | (Raise e, w1) => (Raise e, w1)
    end.

Definition raise {A : Type} (e : exn) : M A := fun w => (Raise e, w).

Declare Scope m_scope.
Delimit Scope m_scope with M.
Notation "x <- m ;; k" := (bind m (fun x => k))
  (at level 61, m at next level, right associativity) : m_scope.
Notation "m ;;; k" := (bind m (fun _ => k))
  (at level 61, right associativity) : m_scope.

(** Read the current state. *)
Definition gets {A : Type} (f : state -> A) : M A := fun w => (Ok (f (now w)), w).

(** One atomic mutation: move to a new state, emitting commands. *)
Definition step_to (s : state) (evs : list event) : M unit :=
  fun w => (Ok tt, {| now := s; past := now w :: past w; log := evs ++ log w |}).

(** Emit commands (most recent first) without changing the state. *)
Definition emit (evs : list event) : M unit :=
  fun w => (Ok tt, {| now := now w; past := past w; log := evs ++ log w |}).

(** ** The registry as a dict *)

Fixpoint dict_get (k : string) (d : list (string * handle)) : option handle :=
  match d with
  | [] => None
  | (k', v) :: r => if String.eqb k k' then Some v else dict_get k r
  end.

Definition dict_contains (k : string) (d : list (string * handle)) : bool :=
  match dict_get k d with Some _ => true | None => false end.

Fixpoint dict_remove (k : string) (d : list (string * handle)) : list (string * handle) :=
  match d with
  | [] => []
  | (k', v) :: r => if String.eqb k k' then dict_remove k r else (k', v) :: dict_remove k r
  end.

(** [d[k] = v]: an existing key keeps its position, a new key goes last. *)
Fixpoint dict_set (k : string) (v : handle) (d : list (string * handle)) : list (string * handle) :=
  match d with
  | [] => [(k, v)]
  | (k', v') :: r => if String.eqb k k' then (k, v) :: r else (k', v') :: dict_set k v r
  end.

Definition dict_keys (d : list (string * handle)) : list string := map fst d.

Definition remove_handle (h : handle) (l : list handle) : list handle :=
  filter (fun h' => negb (Nat.eqb h h')) l.

(** ** Process primitives *)

(** [proc.poll() is None] *)
Definition poll_is_None (h : handle) : M bool :=
  gets (fun s => existsb (Nat.eqb h) (live s)).

(** [PIPELINES.pop(protocol, None)] *)
Definition PIPELINES_pop (protocol : string) : M (option handle) :=
  (d <- gets PIPELINES ;;
   match dict_get protocol d with
   | None => ret None
   | Some h =>
       s <- gets (fun s => s) ;;
       step_to (mkState (dict_remove protocol d) (live s) (next_handle s) (CAM_POWER s)) [] ;;;
       ret (Some h)
   end)%M.

(** The process leaves the process table. *)
Definition exits (h : handle) (evs : list event) : M unit :=
  (s <- gets (fun s => s) ;;
   step_to (mkState (PIPELINES s) (remove_handle h (live s)) (next_handle s) (CAM_POWER s)) evs)%M.

(** [proc.wait(5)]: [true] when the process exited in time, [false] for
    [subprocess.TimeoutExpired]. *)
Definition wait_5 (E : env) (h : handle) : M bool :=
  if graceful E h then (exits h [] ;;; ret true)%M else ret false.

(** [subprocess.Popen(shlex.split(cmd), ...)] *)
Definition Popen (E : env) (cmd : text) : M handle :=
  if popen_ok E cmd then
    (s <- gets (fun s => s) ;;
     let h := next_handle s in
     step_to (mkState (PIPELINES s) (h :: live s) (S h) (CAM_POWER s)) [Spawn cmd h] ;;;
     ret h)%M
  else raise OSError.

(** [PIPELINES[protocol] = proc] *)
Definition PIPELINES_set (protocol : string) (h : handle) : M unit :=
  (s <- gets (fun s => s) ;;
   step_to (mkState (dict_set protocol h (PIPELINES s)) (live s) (next_handle s) (CAM_POWER s)) [])%M.

(** ** [_make_gst_pipeline] *)

Definition model_path : string := "/root/model/yolov5s-640-640.rknn".
Definition label_path : string := "/root/model/coco_80_labels_list.txt".

Definition _make_gst_pipeline (E : env) (protocol view : string) (url : text) : M text :=
  let bypass := (if String.eqb view "pure" then "true" else "false")%string in
  let base :=
    codes ("v4l2src device=/dev/video0 io-mode=mmap do-timestamp=true "
           ++ "! video/x-raw,format=NV16 "
           ++ "! rknn silent=true bypass=" ++ bypass ++ " show-fps=true frame-skip=2 "
           ++ "model-path=" ++ model_path ++ " "
           ++ "label-path=" ++ label_path ++ " "
           ++ "! mpph264enc rc-mode=cbr bps=10000000 gop=30 "
           ++ "! h264parse config-interval=-1 ")%string in
  if String.eqb protocol "udp" then
    match match_udp_url (decimal E) url with
    | None => raise (ValueError "UDP url must be udp://<host>:<port>")
    | Some (host, port) =>
        let tail := codes "! rtph264pay pt=96 ! udpsink host=" ++ host ++ codes " port=" ++ port in
        ret (codes "gst-launch-1.0 -v " ++ base ++ tail)
    end
  else if String.eqb protocol "hls" then
    (emit [ClearHlsDir] ;;;
     let playlist := "/tmp/hls/stream.m3u8"%string in
     let segment := "/tmp/hls/segment-%05d.ts"%string in
     let tail :=
       codes ("! hlssink2 location=" ++ segment ++ " "
              ++ "playlist-location=" ++ playlist ++ " "
              ++ "target-duration=1 max-files=3 ")%string in
     ret (codes "gst-launch-1.0 -v " ++ base ++ tail))%M
  else if String.eqb protocol "rtsp" then
    let pipeline :=
      ("v4l2src device=/dev/video0 io-mode=mmap do-timestamp=true "
       ++ "! video/x-raw,format=NV16 "
       ++ "! rknn silent=true bypass=" ++ bypass ++ " show-fps=true frame-skip=2 "
       ++ "model-path=" ++ model_path ++ " "
       ++ "label-path=" ++ label_path ++ " "
       ++ "! mpph264enc rc-mode=cbr bps=10000000 gop=30 "
       ++ "! rtph264pay name=pay0 pt=96 ")%string in
    let tail := (String (ascii_of_nat 34) "(" ++ pipeline ++ ")" ++ String (ascii_of_nat 34) EmptyString)%string in
    ret (codes ("test-launch " ++ tail)%string)
  else raise (ValueError "Unsupported protocol").

(** ** [_stop_pipeline] and [_start_pipeline] *)

Definition _stop_pipeline (E : env) (protocol : string) : M unit :=
  (proc <- PIPELINES_pop protocol ;;
   match proc with
   | None => ret tt
   | Some h =>
       running <- poll_is_None h ;;
       if running then
         emit [Sigint h] ;;;
         exited <- wait_5 E h ;;
         if exited then ret tt else exits h [Kill h]
       else ret tt
   end)%M.

(** [for proto in protos: _stop_pipeline(proto)] *)
Fixpoint stop_each (E : env) (protos : list string) : M unit :=
  match protos with
  | [] => ret tt
  | proto :: r => (_stop_pipeline E proto ;;; stop_each E r)%M
  end.

(** [for proto in list(PIPELINES.keys()): _stop_pipeline(proto)] *)
Definition stop_all (E : env) : M unit :=
  (d <- gets PIPELINES ;; stop_each E (dict_keys d))%M.

Definition _start_pipeline (E : env) (protocol view : string) (url : text) : M unit :=
  (d <- gets PIPELINES ;;
   if dict_contains protocol d then ret tt
   else
     stop_all E ;;;
     cmd <- _make_gst_pipeline E protocol view url ;;
     proc <- Popen E cmd ;;
     PIPELINES_set protocol proc)%M.

(** ** The routes [/stream/<protocol>] and [/power/camera] *)

Inductive json : Type :=
| JStr (s : string)
| JBool (b : bool)
| JNum (n : pynum).

(** An HTTP response: status code and the fields of the JSON body. *)
Record response : Type := mkResponse {
  code : Z;
  body : list (string * json)
}.

Definition jsonify (fields : list (string * json)) : response := mkResponse 200 fields.

(** What Flask answers when a handler lets an exception escape. *)
Definition internal_server_error : response := mkResponse 500 [].

Fixpoint field (k : string) (fields : list (string * json)) : option json :=
  match fields with
  | [] => None
  | (k', v) :: r => if String.eqb k k' then Some v else field k r
  end.

Definition FLASK_PORT : Z := 8080.

Definition str_of_Z (z : Z) : string := DecimalString.NilZero.string_of_int (Z.to_int z).

(** [str(e)]: the message of a [ValueError]; the texts of the other
    exceptions are those of the libraries that raise them and are left
    empty here. *)
Definition exn_str (e : exn) : string :=
  match e with
  | ValueError msg => msg
  | _ => EmptyString
  end.

(** [GET /stream/<protocol>]; [host] is what [get_host_for_request()]
    returns. *)
Definition stream_control_GET (host protocol0 : string) : M response :=
  let protocol := lower protocol0 in
  (d <- gets PIPELINES ;;
   running <- match dict_get protocol d with
              | None => ret false
              | Some h => poll_is_None h
              end ;;
   let result := [("on"%string, JBool running)] in
   if running then
     if String.eqb protocol "hls" then
       ret (jsonify (result ++ [("url"%string,
              JStr ("http://" ++ host ++ ":" ++ str_of_Z FLASK_PORT ++ "/hls/stream.m3u8")%string)]))
     else if String.eqb protocol "rtsp" then
       ret (jsonify (result ++ [("url"%string, JStr ("rtsp://" ++ host ++ ":8554/test")%string)]))
     else ret (jsonify result)
   else ret (jsonify result))%M.

(** [POST /stream/<protocol>] with body [{"on": on, "view": view, "url":
    url}]: [ValueError] becomes a 400 answer, any other exception escapes. *)
Definition stream_control_POST (E : env) (host protocol0 : string)
    (on : bool) (view : string) (url : text) : M response :=
  let protocol := lower protocol0 in
  fun w =>
    match (if on then _start_pipeline E protocol view url
           else _stop_pipeline E protocol) w with
    | (Raise (ValueError msg), w1) =>
        (Ok (mkResponse 400 [("error"%string, JStr msg)]), w1)
    | (Raise e, w1) => (Raise e, w1)
    | (Ok _, w1) =>
        if (String.eqb protocol "hls" && on)%bool then
          (Ok (jsonify [("status"%string, JStr "ok");
                        ("url"%string,
                         JStr ("http://" ++ host ++ ":" ++ str_of_Z FLASK_PORT ++ "/hls/stream.m3u8")%string)]), w1)
        else if (String.eqb protocol "rtsp" && on)%bool then
          (Ok (jsonify [("status"%string, JStr "ok");
                        ("url"%string, JStr ("rtsp://" ++ host ++ ":8554/test")%string)]), w1)
        else (Ok (jsonify [("status"%string, JStr "ok")]), w1)
    end.

Definition CAMERA_GPIO_PIN : Z := 96.
Definition HUB_GPIO_PIN : Z := 47.

(** [CAM_POWER.write(on)] *)
Definition CAM_POWER_write (on : bool) : M unit :=
  (s <- gets (fun s => s) ;;
   step_to (mkState (PIPELINES s) (live s) (next_handle s) on)
           [GpioWrite CAMERA_GPIO_PIN on])%M.

(** [POST /power/camera] with body [{"on": on}] *)
Definition camera_power_POST (E : env) (on : bool) : M response :=
  (prev_on <- gets CAM_POWER ;;
   (if (prev_on && negb on)%bool then stop_all E else ret tt) ;;;
   CAM_POWER_write on ;;;
   (if (prev_on && negb on)%bool
    then emit [GpioWrite HUB_GPIO_PIN true; GpioWrite HUB_GPIO_PIN false]
    else ret tt) ;;;
   ret (jsonify [("status"%string, JStr "ok"); ("on"%string, JBool on)]))%M.

(** ** Runs of the daemon *)

Inductive request : Type :=
| StreamGet (host protocol : string)
| StreamPost (host protocol : string) (on : bool) (view : string) (url : text)
| PowerPost (on : bool).

(** Serving one request; an escaped exception is answered with a 500. *)
Definition serve (E : env) (r : request) (w : world) : response * world :=
  let '(res, w1) :=
    match r with
    | StreamGet host protocol => stream_control_GET host protocol w
    | StreamPost host protocol on view url =>
        stream_control_POST E host protocol on view url w
    | PowerPost on => camera_power_POST E on w
    end in
  (try_except res (fun _ => internal_server_error), w1).

(** A delivery process ends by itself (crash, end of stream): it leaves
    the process table, nothing else changes. *)
Definition process_exit (h : handle) (w : world) : world :=
  snd (exits h [] w).

(** One step of a run: a request is served from its first statement to
    its answer, or a process ends.  The server hands requests to threads;
    in a run here they follow one another and do not overlap. *)
Inductive transition (w : world) : world -> Prop :=
| t_request (E : env) (r : request) : transition w (snd (serve E r w))
| t_exit (h : handle) : In h (live (now w)) -> transition w (process_exit h w).

(** The daemon starts with an empty registry; the camera power pin is
    whatever the persisted configuration says. *)
Definition boot (pwr : bool) : world :=
  mkWorld (mkState [] [] 0%nat pwr) [] [].

Inductive reachable : world -> Prop :=
| reach_boot (pwr : bool) : reachable (boot pwr)
| reach_step (w w' : world) : reachable w -> transition w w' -> reachable w'.

(** The protocols that are running: registered, and the process has not
    exited (what [GET /stream/<protocol>] reports as [on]). *)
Definition running_protocols (s : state) : list string :=
  map fst (filter (fun kv => existsb (Nat.eqb (snd kv)) (live s)) (PIPELINES s)).

(* ===================================================================== *)
(** * Motion controller                                                   *)
(* ===================================================================== *)

Inductive axis : Type := pan | tilt.

(** A dict with the two keys ["pan"] and ["tilt"]. *)
Record per_axis (A : Type) : Type := mkPerAxis { at_pan : A; at_tilt : A }.

Arguments mkPerAxis {A} at_pan at_tilt.
Arguments at_pan {A} p.
Arguments at_tilt {A} p.

Definition get_axis {A : Type} (a : axis) (d : per_axis A) : A :=
  match a with pan => at_pan d | tilt => at_tilt d end.

Definition set_axis {A : Type} (a : axis) (v : A) (d : per_axis A) : per_axis A :=
  match a with
  | pan => mkPerAxis v (at_tilt d)
  | tilt => mkPerAxis (at_pan d) v
  end.

(** One entry of ["servo_map"]; each key may be missing. *)
Record map_entry : Type := mkMapEntry {
  entry_center : option pynum;
  entry_direction : option pynum;
  entry_scale : option pynum
}.

(** The part of [DEVICE_CONFIG] the motion routes read.  [SERVO_LIMITS] is
    the very dict stored under ["servo_limits"], so both names denote the
    field [servo_limits]. *)
Record config : Type := mkConfig {
  servo_limits : per_axis (Z * Z);
  servo_map : option (per_axis (option map_entry))
}.

Definition DEFAULT_CONFIG : config :=
  mkConfig
    (mkPerAxis (30, 210) (80, 165))
    (Some (mkPerAxis
             (Some (mkMapEntry (Some (PyInt 120)) (Some (PyInt (-1))) (Some (PyInt 1))))
             (Some (mkMapEntry (Some (PyInt 120)) (Some (PyInt (-1))) (Some (PyInt 1)))))).

(** The calibration of an axis, after the defaults of the [.get] calls. *)
Record calibration : Type := mkCalibration {
  center : pynum;
  direction : pynum;
  scale : pynum
}.

Definition or_default {A : Type} (o : option A) (d : A) : A :=
  match o with Some a => a | None => d end.

Definition axis_calibration (cfg : config) (a : axis) : calibration :=
  let smap := or_default (servo_map cfg)
                (or_default (servo_map DEFAULT_CONFIG) (mkPerAxis None None)) in
  let map_cfg := or_default (get_axis a smap)
                   (mkMapEntry (Some (PyInt 120)) (Some (PyInt (-1))) (Some (PyInt 1))) in
  mkCalibration
    (or_default (entry_center map_cfg) (PyInt 120))
    (or_default (entry_direction map_cfg) (PyInt (-1)))
    (or_default (entry_scale map_cfg) (PyInt 1)).

(** [(physical - center) / (direction * scale)] *)
Definition physical_to_mapped (c : calibration) (physical : pynum) : result pynum :=
  (num <- py_sub physical (center c) ;;
   den <- py_mul (direction c) (scale c) ;;
   py_truediv num den)%result.

(** [int(center + direction * mapped * scale)] *)
Definition mapped_to_physical (c : calibration) (mapped : pynum) : result Z :=
  (dm <- py_mul (direction c) mapped ;;
   dms <- py_mul dm (scale c) ;;
   sum <- py_add (center c) dms ;;
   py_int sum)%result.

(** Commands sent to the servo bus. *)
Inductive servo_cmd : Type :=
| ReadAngle (a : axis)
| Move (a : axis) (angle : Z) (time : Z)
| SetAngleLimits (a : axis) (lo hi : Z).

(** What the bus answers during one request. *)
Record servo_io : Type := mkServoIo {
  get_physical_angle : result float;
  move : Z -> Z -> result unit;
  set_angle_limits : Z -> Z -> result unit
}.

(** The motion controller's state: the configuration, whether the two
    servo objects exist ([None] when the bus did not answer at start-up),
    and the commands sent so far (most recent first). *)
Record device : Type := mkDevice {
  DEVICE_CONFIG : config;
  SERVO_PAN : bool;
  SERVO_TILT : bool;
  sent : list servo_cmd
}.

Definition SERVO_LIMITS (d : device) : per_axis (Z * Z) := servo_limits (DEVICE_CONFIG d).

Definition axis_of_string (s : string) : option axis :=
  if String.eqb s "pan" then Some pan
  else if String.eqb s "tilt" then Some tilt
  else None.

Definition axis_name (a : axis) : string :=
  match a with pan => "pan"%string | tilt => "tilt"%string end.

Definition servo_present (d : device) (a : axis) : bool :=
  match a with pan => SERVO_PAN d | tilt => SERVO_TILT d end.

Definition send (c : servo_cmd) (d : device) : device :=
  mkDevice (DEVICE_CONFIG d) (SERVO_PAN d) (SERVO_TILT d) (c :: sent d).

Definition not_found : response :=
  mkResponse 404 [("error"%string, JStr "invalid axis")].

(** ** [GET /motion/<axis>] *)
Definition motion_GET (io : servo_io) (axis0 : string) (d : device) : response * device :=
  match axis_of_string (lower axis0) with
  | None => (not_found, d)
  | Some a =>
      if negb (servo_present d a) then (not_found, d)
      else
        let c := axis_calibration (DEVICE_CONFIG d) a in
        let d1 := send (ReadAngle a) d in
        let attempt :=
          (physical_angle <- get_physical_angle io ;;
           num <- py_sub (PyFloat physical_angle) (center c) ;;
           den <- py_mul (direction c) (scale c) ;;
           mapped_angle <- py_truediv num den ;;
           Ok (jsonify [("angle"%string, JNum mapped_angle);
                        ("physical_angle"%string, JNum (PyFloat physical_angle));
                        ("axis"%string, JStr (axis_name a))]))%result in
        (try_except attempt
           (fun _ => jsonify [("angle"%string, JNum (PyInt 0));
                              ("physical_angle"%string, JNum (center c));
                              ("axis"%string, JStr (axis_name a));
                              ("error"%string, JStr "communication_error")]),
         d1)
  end.

(** The raw target of a move: [angle] itself with option ["raw"], its
    image under the calibration otherwise. *)
Definition servo_target (c : calibration) (angle : Z) (option_ : string) : result Z :=
  if String.eqb option_ "raw" then Ok angle
  else
    (dm <- py_mul (direction c) (PyInt angle) ;;
     dms <- py_mul dm (scale c) ;;
     sum <- py_add (center c) dms ;;
     py_int sum)%result.

(** [max(min_limit, min(max_limit, servo_angle))] on integers. *)
Definition clamp (min_limit max_limit servo_angle : Z) : Z :=
  Z.max min_limit (Z.min max_limit servo_angle).

(** [int(abs(current_angle - limited_angle) * 1000 / 15.0)] *)
Definition move_duration (current_angle : float) (limited_angle : Z) : result Z :=
  (diff <- py_sub (PyFloat current_angle) (PyInt limited_angle) ;;
   ms <- py_mul (py_abs diff) (PyInt 1000) ;;
   q <- py_truediv ms (PyFloat 15.0%float) ;;
   py_int q)%result.

(** ** [POST /motion/<axis>] with body [{"angle": angle, "option":
    option}]; a missing ["angle"] is [None]. *)
Definition motion_POST (io : servo_io) (axis0 : string)
    (angle0 : option pynum) (option_ : string) (d : device) : result response * device :=
  match axis_of_string (lower axis0) with
  | None => (Ok not_found, d)
  | Some a =>
      if negb (servo_present d a) then (Ok not_found, d)
      else
        let c := axis_calibration (DEVICE_CONFIG d) a in
        match py_int (or_default angle0 (PyInt 0)) with
        | Raise e => (Raise e, d)
        | Ok angle =>
            match servo_target c angle option_ with
            | Raise e => (Raise e, d)
            | Ok servo_angle =>
                let '(min_limit, max_limit) := get_axis a (SERVO_LIMITS d) in
                let limited_angle := clamp min_limit max_limit servo_angle in
                let d1 := send (ReadAngle a) d in
                let move_time :=
                  try_except
                    (current_angle <- get_physical_angle io ;;
                     move_duration current_angle limited_angle)%result
                    (fun _ => 1000) in
                let d2 := send (Move a limited_angle move_time) d1 in
                match move io limited_angle move_time with
                | Ok _ =>
                    let status := if limited_angle =? servo_angle then "ok"%string else "limited"%string in
                    (Ok (jsonify [("status"%string, JStr status);
                                  ("angle"%string, JNum (PyInt angle));
                                  ("physical_angle"%string, JNum (PyInt limited_angle));
                                  ("axis"%string, JStr (axis_name a))]), d2)
                | Raise e =>
                    (Ok (mkResponse 500
                           [("status"%string, JStr "error");
                            ("error"%string, JStr "servo_communication_failed");
                            ("message"%string, JStr (exn_str e));
                            ("axis"%string, JStr (axis_name a))]), d2)
                end
            end
        end
  end.

(** ** [/motion/<axis>/limit] *)

(** A bound of the request, before clamping: the raw field when present,
    else the converted logical field, else the stored limit. *)
Definition requested_bound (c : calibration) (raw mapped : option pynum) (stored : Z)
    : result pynum :=
  match raw, mapped with
  | Some r, _ => (f <- py_float r ;; Ok (PyFloat f))%result
  | None, Some m =>
      (f <- py_float m ;; z <- mapped_to_physical c (PyFloat f) ;; Ok (PyInt z))%result
  | None, None => Ok (PyInt stored)
  end.

(** [max(0, min(240, x))] *)
Definition clamp_servo_range (x : pynum) : pynum :=
  py_max (PyInt 0) (py_min (PyInt 240) x).

(** The pair [(min_raw, max_raw)] that the POST handler stores: bounds
    resolved, clamped to the servo range, put in order, made integers. *)
Definition normalized_limits (c : calibration) (stored : Z * Z)
    (req_min_raw req_max_raw req_min req_max : option pynum) : result (Z * Z) :=
  (min_raw <- requested_bound c req_min_raw req_min (fst stored) ;;
   max_raw <- requested_bound c req_max_raw req_max (snd stored) ;;
   let min_raw := clamp_servo_range min_raw in
   let max_raw := clamp_servo_range max_raw in
   let '(min_raw, max_raw) :=
     if (py_lt (direction c) (PyInt 0) && py_gt min_raw max_raw)%bool
     then (max_raw, min_raw)
     else if (py_gt (direction c) (PyInt 0) && py_gt min_raw max_raw)%bool
     then (max_raw, min_raw)
     else (min_raw, max_raw) in
   lo <- py_int min_raw ;;
   hi <- py_int max_raw ;;
   Ok (lo, hi))%result.

(** The logical bounds of the answer, put in order. *)
Definition mapped_limits (c : calibration) (min_raw max_raw : Z) : result (pynum * pynum) :=
  (min_mapped <- physical_to_mapped c (PyInt min_raw) ;;
   max_mapped <- physical_to_mapped c (PyInt max_raw) ;;
   Ok (if py_gt min_mapped max_mapped then (max_mapped, min_mapped)
       else (min_mapped, max_mapped)))%result.

Definition motion_limit_GET (axis0 : string) (d : device) : result response :=
  match axis_of_string (lower axis0) with
  | None => Ok not_found
  | Some a =>
      let c := axis_calibration (DEVICE_CONFIG d) a in
      let '(min_raw, max_raw) := get_axis a (SERVO_LIMITS d) in
      ('(min_mapped, max_mapped) <- mapped_limits c min_raw max_raw ;;
       Ok (jsonify [("min"%string, JNum min_mapped);
                    ("max"%string, JNum max_mapped);
                    ("min_raw"%string, JNum (PyInt min_raw));
                    ("max_raw"%string, JNum (PyInt max_raw))]))%result
  end.

(** [SERVO_LIMITS[axis] = [min_raw, max_raw]] *)
Definition store_limits (a : axis) (lims : Z * Z) (d : device) : device :=
  mkDevice
    (mkConfig (set_axis a lims (servo_limits (DEVICE_CONFIG d))) (servo_map (DEVICE_CONFIG d)))
    (SERVO_PAN d) (SERVO_TILT d) (sent d).

(** [POST /motion/<axis>/limit] with body fields [min_raw], [max_raw],
    [min], [max], each possibly absent. *)
Definition motion_limit_POST (io : servo_io) (axis0 : string)
    (req_min_raw req_max_raw req_min req_max : option pynum) (d : device)
    : result response * device :=
  match axis_of_string (lower axis0) with
  | None => (Ok not_found, d)
  | Some a =>
      let c := axis_calibration (DEVICE_CONFIG d) a in
      match normalized_limits c (get_axis a (SERVO_LIMITS d))
              req_min_raw req_max_raw req_min req_max with
      | Raise e => (Raise e, d)
      | Ok (min_raw, max_raw) =>
          let d1 := store_limits a (min_raw, max_raw) d in
          let applied :=
            if servo_present d a
            then (send (SetAngleLimits a min_raw max_raw) d1,
                  set_angle_limits io min_raw max_raw)
            else (d1, Ok tt) in
          match snd applied with
          | Raise e => (Raise e, fst applied)
          | Ok _ =>
              let answer :=
                ('(min_mapped, max_mapped) <- mapped_limits c min_raw max_raw ;;
                 Ok (jsonify [("status"%string, JStr "ok");
                              ("min"%string, JNum min_mapped);
                              ("max"%string, JNum max_mapped);
                              ("min_raw"%string, JNum (PyInt min_raw));
                              ("max_raw"%string, JNum (PyInt max_raw))]))%result in
              (answer, fst applied)
          end
      end
  end.

(* ===================================================================== *)
(** * Vocabulary of the properties                                        *)
(* ===================================================================== *)

Definition is_stop (e : event) : bool :=
  match e with Sigint _ | Kill _ => true | _ => false end.

(** The command synthesis rejects the request: protocol ["udp"] with a
    target that does not match, or a protocol that is none of the three. *)
Definition fails_validation (E : env) (protocol : string) (url : text) : bool :=
  if String.eqb protocol "udp" then
    match match_udp_url (decimal E) url with None => true | Some _ => false end
  else negb (String.eqb protocol "hls" || String.eqb protocol "rtsp").

(** At most one registry entry and at most one live process. *)
Definition at_most_one (s : state) : Prop :=
  (List.length (PIPELINES s) <= 1)%nat /\ (List.length (live s) <= 1)%nat.

(** A state between two requests: moreover every live process is the one
    of a registry entry, and registered handles were handed out before. *)
Definition settled (s : state) : Prop :=
  at_most_one s /\
  (forall h, In h (live s) -> exists p, In (p, h) (PIPELINES s)) /\
  (forall p h, In (p, h) (PIPELINES s) -> (h < next_handle s)%nat).

(** The current state is settled and every state passed through, inside
    requests too, had at most one entry and one live process. *)
Definition single_stream (w : world) : Prop :=
  settled (now w) /\ Forall at_most_one (past w).

(** [s] has no more entries and no more live processes than [s0], and is
    otherwise the same. *)
Definition shrinks (s0 s : state) : Prop :=
  incl (PIPELINES s) (PIPELINES s0) /\ incl (live s) (live s0) /\
  (List.length (PIPELINES s) <= List.length (PIPELINES s0))%nat /\
  (List.length (live s) <= List.length (live s0))%nat /\
  next_handle s = next_handle s0 /\ CAM_POWER s = CAM_POWER s0.

(** From [w] to [w'] sessions were only stopped: every state on the way
    shrinks the first one and only stop commands were sent. *)
Definition stops_only (w w' : world) : Prop :=
  shrinks (now w) (now w') /\
  (exists evs, log w' = evs ++ log w /\ forallb is_stop evs = true) /\
  (exists mid, past w' = mid ++ past w /\ Forall (shrinks (now w)) mid).

(** ** Exact values of numbers *)

(** Every finite binary64 value is a multiple of [2 ^ -1074]; [K] is the
    scale that turns exact values into integers. *)
Definition K : Z := 2 ^ 1074.
Arguments K : simpl never.

Definition signed (s : bool) (m : positive) : Z := if s then Zneg m else Zpos m.

(** The exact value of a float times [K]; [None] for a NaN or an infinity. *)
Definition SF_scaled (x : spec_float) : option Z :=
  match x with
  | S754_zero _ => Some 0
  | S754_finite s m e => Some (signed s m * 2 ^ (e + 1074))
  | _ => None
  end.

(** The exact value of a Python number times [K]. *)
Definition exact (x : pynum) : option Z :=
  match x with
  | PyInt z => Some (z * K)
  | PyFloat f => SF_scaled (Prim2SF f)
  end.

(** [x] is not a NaN and its sign bit is [s]. *)
Definition SF_signed (s : bool) (x : spec_float) : Prop :=
  match x with
  | S754_nan => False
  | S754_zero s' | S754_infinity s' | S754_finite s' _ _ => s' = s
  end.

(** A NaN, or a value whose sign bit is clear. *)
Definition SF_unsigned (x : spec_float) : Prop :=
  match x with
  | S754_nan => True
  | S754_zero s | S754_infinity s | S754_finite s _ _ => s = false
  end.

(** ** Calibrations *)

(** [d < 0 or d > 0]: one of the two swap conditions of the limit update
    can fire. *)
Definition has_sign (d : pynum) : bool := py_lt d (PyInt 0) || py_gt d (PyInt 0).

(** The direction is -1 or +1, as an integer or as a float. *)
Definition unit_direction (d : pynum) : Prop :=
  d = PyInt 1 \/ d = PyInt (-1) \/ d = PyFloat 1 \/ d = PyFloat (-1).

(** A finite centre, a direction of -1 or +1, a scale above zero. *)
Definition valid_calibration (c : calibration) : Prop :=
  (exists n, exact (center c) = Some n) /\
  unit_direction (direction c) /\
  py_gt (scale c) (PyInt 0) = true.

(** [mapped_to_physical(physical_to_mapped(x))] *)
Definition roundtrip (c : calibration) (physical : pynum) : result Z :=
  (m <- physical_to_mapped c physical ;; mapped_to_physical c m)%result.

(** The whole degrees of the servo range, 0 to 240. *)
Definition degrees : list Z := map Z.of_nat (seq 0 241).

Definition returns (r : result Z) (x : Z) : bool :=
  match r with Ok y => y =? x | Raise _ => false end.

(** The float [abs(current_angle - limited_angle) * 1000 / 15.0]. *)
Definition duration_quotient (current_angle : float) (limited_angle : Z) : float :=
  (PrimFloat.abs (current_angle - Z2F limited_angle) * Z2F 1000 / 15)%float.

(** ** Sample environments and states *)

(** Every process exits on SIGINT and every command can be launched. *)
Definition always_graceful : env := mkEnv (fun _ => true) (fun _ => true) (fun _ => false).

(** The daemon after [POST /stream/hls {"on": true}]. *)
Definition hls_running : world :=
  snd (serve always_graceful (StreamPost "cam" "hls" true "yolo" []) (boot true)).

(** The same, after the HLS process has ended by itself. *)
Definition hls_crashed : world := process_exit 0%nat hls_running.

(** The shipped configuration with both servos present. *)
Definition default_device : device := mkDevice DEFAULT_CONFIG true true [].

(** A bus that answers every command; the servo stands at [current]. *)
Definition steady_servo (current : float) : servo_io :=
  mkServoIo (Ok current) (fun _ _ => Ok tt) (fun _ _ => Ok tt).

(** A bus that times out on every command. *)
Definition silent_servo : servo_io :=
  mkServoIo (Raise ServoTimeoutError) (fun _ _ => Raise ServoTimeoutError)
            (fun _ _ => Raise ServoTimeoutError).

(** A bus that reports the angle but times out on a move. *)
Definition deaf_servo (current : float) : servo_io :=
  mkServoIo (Ok current) (fun _ _ => Raise ServoTimeoutError) (fun _ _ => Ok tt).

(** [p] holds of the elements of the two lists taken in step. *)
Fixpoint zip_all {A B : Type} (p : A -> B -> bool) (l1 : list A) (l2 : list B) : bool :=
  match l1, l2 with
  | a :: r1, b :: r2 => p a b && zip_all p r1 r2
  | _, _ => true
  end.

(** The floats of the [n] integers from [lo] on. *)
Definition floats_from (lo : Z) (n : nat) : list float :=
  map (fun i => Z2F (lo + Z.of_nat i)) (seq 0 n).

(** The whole differences of two angles of the servo range. *)
Definition differences : list Z := map (fun i => Z.of_nat i - 240) (seq 0 481).

(** [rel (float a) (float (x - a)) (float x)] for all whole degrees [a]
    and [x]. *)
Definition steps_checked (rel : float -> float -> float -> bool) : bool :=
  let T := floats_from (-240) 481 in
  let TX := floats_from 0 241 in
  forallb (fun a =>
     let fa := Z2F a in
     zip_all (rel fa) (skipn (Z.to_nat (240 - a)) T) TX) degrees.


(** [float x - float a] is [float (x - a)]. *)
Definition is_difference (fa fn fx : float) : bool := PrimFloat.Leibniz.eqb (fx - fa) fn.

(** The absolute value of the float of a difference is the float of its
    absolute value. *)
Definition absolutes_checked : bool :=
  forallb (fun n => PrimFloat.Leibniz.eqb (PrimFloat.abs (Z2F n)) (Z2F (Z.abs n))) differences.

(** For a distance of [m] whole degrees, [int(float m * 1000 / 15.0)] is
    [1000 * m / 15] rounded down. *)
Definition durations_checked : bool :=
  forallb (fun m => returns (float_to_int (Z2F m * Z2F 1000 / 15)) (1000 * m / 15)) degrees.

(** Dividing a difference by the direction and multiplying back gives the
    float of the difference. *)
Definition quotients_checked : bool :=
  forallb (fun n => forallb (fun zd =>
     match int_truediv n zd with
     | Ok g => PrimFloat.Leibniz.eqb (Z2F zd * g * Z2F 1) (Z2F n)
     | Raise _ => false
     end) [1; -1]) differences.

(** The float of a whole degree is finite and [int] gives the degree back. *)
Definition degrees_checked : bool :=
  forallb (fun x => negb (is_infinity (Z2F x)) && returns (float_to_int (Z2F x)) x) degrees.


(** [direction * (num / (direction * scale)) * scale], computed the way
    the two conversions do it one after the other. *)
Definition back_product (d s num : pynum) : result pynum :=
  (den <- py_mul d s ;;
   q <- py_truediv num den ;;
   dq <- py_mul d q ;;
   py_mul dq s)%result.

Definition is_float_of (n : Z) (r : result pynum) : bool :=
  match r with
  | Ok (PyFloat f) => PrimFloat.Leibniz.eqb f (Z2F n)
  | _ => false
  end.

(** Direction and scale reproduce whole distances: for every whole [n]
    from -240 to 240, given as an integer or as a float, dividing by
    [direction * scale] and multiplying back gives the float of [n]. *)
Definition reproduces_distances (d s : pynum) : bool :=
  forallb (fun n => is_float_of n (back_product d s (PyInt n))
                    && is_float_of n (back_product d s (PyFloat (Z2F n)))) differences.

(** Directions -1 and +1 and some scales, as integers and as floats. *)
Definition unit_directions : list pynum := [PyInt 1; PyInt (-1); PyFloat 1; PyFloat (-1)].

Definition small_scales : list pynum :=
  map PyInt [1; 2; 3; 4; 5; 6; 8; 9; 10]
  ++ map (fun z => PyFloat (Z2F z)) [1; 2; 3; 4; 5; 6; 8; 9; 10]
  ++ [PyFloat 0.5; PyFloat 0.25].

(* ===================================================================== *)
(** * Further vocabulary                                               *)
(* ===================================================================== *)

(** ** Text *)

(** Every character of [s] satisfies [p]. *)
Fixpoint all_chars (p : ascii -> bool) (s : string) : bool :=
  match s with
  | EmptyString => true
  | String c r => p c && all_chars p r
  end.

(** [s] is not empty and its first character satisfies [p]. *)
Definition starts_with (p : ascii -> bool) (s : string) : bool :=
  match s with
  | EmptyString => false
  | String c _ => p c
  end.

(** The character class [[\d.]] of the UDP pattern. *)
Definition is_host_char (nd : N -> bool) (c : N) : bool := (is_digit nd c || N.eqb c 46)%bool.

(** [s] is not empty and its first character satisfies [p]. *)
Definition head_is (p : N -> bool) (s : text) : bool :=
  match s with
  | [] => false
  | c :: _ => p c
  end.

(** [url] is [udp://], the run [host] of digits and dots, a colon, the
    run [port] of digits, and a rest that does not go on with a digit. *)
Definition udp_target (nd : N -> bool) (url host port : text) : Prop :=
  exists rest,
    url = codes "udp://" ++ host ++ codes ":" ++ port ++ rest /\
    host <> [] /\ forallb (is_host_char nd) host = true /\
    port <> [] /\ forallb (is_digit nd) port = true /\
    head_is (is_digit nd) rest = false.

(** ** Sessions *)

Definition is_spawn (e : event) : bool :=
  match e with Spawn _ _ => true | _ => false end.

(** The URL the stream routes report for a protocol, if any. *)
Definition stream_url (host protocol : string) : option json :=
  if String.eqb protocol "hls"
  then Some (JStr ("http://" ++ host ++ ":" ++ str_of_Z FLASK_PORT ++ "/hls/stream.m3u8")%string)
  else if String.eqb protocol "rtsp"
  then Some (JStr ("rtsp://" ++ host ++ ":8554/test")%string)
  else None.

(** ** Runs of the motion controller *)

Inductive motion_request : Type :=
| MotionGet (axis0 : string)
| MotionPost (axis0 : string) (angle0 : option pynum) (option_ : string)
| LimitGet (axis0 : string)
| LimitPost (axis0 : string) (req_min_raw req_max_raw req_min req_max : option pynum).

(** The device after one request to [/motion/<axis>] or
    [/motion/<axis>/limit]; [io] is what the bus answers during it. *)
Definition serve_motion (io : servo_io) (r : motion_request) (d : device) : device :=
  match r with
  | MotionGet axis0 => snd (motion_GET io axis0 d)
  | MotionPost axis0 angle0 option_ => snd (motion_POST io axis0 angle0 option_ d)
  | LimitGet _ => d
  | LimitPost axis0 mr xr mm xm => snd (motion_limit_POST io axis0 mr xr mm xm d)
  end.

(** The devices reached from [d0] by any sequence of such requests. *)
Inductive motion_run (d0 : device) : device -> Prop :=
| run_start : motion_run d0 d0
| run_step (io : servo_io) (r : motion_request) (d : device) :
    motion_run d0 d -> motion_run d0 (serve_motion io r d).

(** The limits of both axes are in order and inside the servo range. *)
Definition limits_in_range (d : device) : Prop :=
  forall a, 0 <= fst (get_axis a (SERVO_LIMITS d)) /\
            fst (get_axis a (SERVO_LIMITS d)) <= snd (get_axis a (SERVO_LIMITS d)) /\
            snd (get_axis a (SERVO_LIMITS d)) <= 240.

(** Every move sent to the bus so far has its target in the servo range. *)
Definition moves_in_range (d : device) : Prop :=
  forall a x t, In (Move a x t) (sent d) -> 0 <= x <= 240.

(** The direction of both axes is below or above zero. *)
Definition signed_directions (d : device) : Prop :=
  forall a, has_sign (direction (axis_calibration (DEVICE_CONFIG d) a)) = true.

(** ** Float operations on whole degrees *)

(** Dividing the float of a difference by the float of a direction gives
    a float equal to their product. *)
Definition direction_quotient_exact (n zd : Z) : bool :=
  py_eq (PyFloat (Z2F n / Z2F zd)) (PyInt (n * zd)).

(** The exact value of the float of a whole degree is the degree. *)
Definition degree_exact (x : Z) : bool :=
  match exact (PyFloat (Z2F x)) with
  | Some n => n =? x * K
  | None => false
  end.

(* ===================================================================== *)
(** * Host name and client address of a request                           *)
(* ===================================================================== *)

(** Header values and addresses are texts of characters below U+0100, as
    the server hands them over. *)

(** [s.split(sep)[0]]: the text before the first [sep], all of [s] when
    there is none. *)
Fixpoint split_first (sep : ascii) (s : string) : string :=
  match s with
  | EmptyString => EmptyString
  | String c r => if Ascii.eqb c sep then EmptyString else String c (split_first sep r)
  end.

(** [sep in s] for a single character [sep]. *)
Fixpoint contains_char (sep : ascii) (s : string) : bool :=
  match s with
  | EmptyString => false
  | String c r => Ascii.eqb c sep || contains_char sep r
  end.

(** [c.isspace()]: the characters U+0009 to U+000D, U+001C to U+0020,
    U+0085 and U+00A0. *)
Definition is_space (c : ascii) : bool :=
  let n := nat_of_ascii c in
  ((Nat.leb 9 n && Nat.leb n 13) || (Nat.leb 28 n && Nat.leb n 32)
   || Nat.eqb n 133 || Nat.eqb n 160)%bool.

Fixpoint lstrip (s : string) : string :=
  match s with
  | EmptyString => EmptyString
  | String c r => if is_space c then lstrip r else s
  end.

Fixpoint rstrip (s : string) : string :=
  match s with
  | EmptyString => EmptyString
  | String c r =>
      match rstrip r with
      | EmptyString => if is_space c then EmptyString else String c EmptyString
      | r' => String c r'
      end
  end.

(** [s.strip()] *)
Definition strip (s : string) : string := rstrip (lstrip s).

(** The last character of [s] satisfies [p]. *)
Fixpoint ends_with (p : ascii -> bool) (s : string) : bool :=
  match s with
  | EmptyString => false
  | String c EmptyString => p c
  | String _ r => ends_with p r
  end.

(** [get_ip_address]; [sock] is what the datagram socket reports as its
    own address, or the exception of one of the socket calls. *)
Definition get_ip_address (sock : result string) : string :=
  try_except sock (fun _ => "-"%string).

(** [get_host_for_request]; [host_header] is [request.headers.get('Host')]. *)
Definition get_host_for_request (host_header : option string) (sock : result string) : string :=
  match host_header with
  | Some h => if is_empty h then get_ip_address sock else split_first ":" h
  | None => get_ip_address sock
  end.

(** [GET /system/client_ip]: the value under ["ip"] of the answer ([None]
    is [null]); [forwarded_for] is the header [X-Forwarded-For] when the
    request has one. *)
Definition system_client_ip (forwarded_for remote_addr : option string) : option string :=
  let ip := match forwarded_for with
            | Some v => Some v
            | None => remote_addr
            end in
  match ip with
  | Some s =>
      if (negb (is_empty s) && contains_char "," s)%bool
      then Some (strip (split_first "," s))
      else Some s
  | None => None
  end.

(* ===================================================================== *)
(** * The configuration document                                          *)
(* ===================================================================== *)

(** A value as [json.load] builds it; a dict keeps its keys in insertion
    order. *)
#[warnings="-register-all"]
Inductive pyobj : Type :=
| PNone
| PBool (b : bool)
| PNum (n : pynum)
| PStr (s : string)
| PList (l : list pyobj)
| PDict (d : list (string * pyobj)).

(** The exceptions of the configuration and system routes. *)
Inductive pyexc : Type :=
| TypeError
| KeyError (key : string)
| AttributeError
| ReadError       (* the file cannot be opened, or does not hold a JSON document *)
| WriteError      (* the file cannot be written *)
| CommandError    (* a command cannot be launched, or [check_call] saw a status other than 0 *)
| ServoError.     (* an exception of the servo library *)

Inductive outcome (A : Type) : Type :=
| Done (a : A)
| Failed (e : pyexc).

Arguments Done {A} a.
Arguments Failed {A} e.

Definition obind {A B : Type} (r : outcome A) (k : A -> outcome B) : outcome B :=
  match r with
  | Done a => k a
  | Failed e => Failed e
  end.

Declare Scope outcome_scope.
Delimit Scope outcome_scope with outcome.
Notation "x <- r ;; k" := (obind r (fun x => k))
  (at level 61, r at next level, right associativity) : outcome_scope.

(** [d.get(k)] on the items of a dict. *)
Fixpoint lookup (k : string) (d : list (string * pyobj)) : option pyobj :=
  match d with
  | [] => None
  | (k', v) :: r => if String.eqb k k' then Some v else lookup k r
  end.

(** [d[k] = v] on the items of a dict: a key that is there keeps its
    place, a new key goes last. *)
Fixpoint update (k : string) (v : pyobj) (d : list (string * pyobj)) : list (string * pyobj) :=
  match d with
  | [] => [(k, v)]
  | (k', v') :: r => if String.eqb k k' then (k, v) :: r else (k', v') :: update k v r
  end.

(** [k == x] for a string [k]. *)
Definition is_str (k : string) (x : pyobj) : bool :=
  match x with
  | PStr s => String.eqb k s
  | _ => false
  end.

(** [k in s] for two strings. *)
Fixpoint substring_of (k s : string) : bool :=
  if String.prefix k s then true
  else match s with
       | EmptyString => false
       | String _ r => substring_of k r
       end.

(** [k in x] for a string [k]: a key of a dict, an element of a list, a
    part of a string; [TypeError] on anything else. *)
Definition py_in (k : string) (x : pyobj) : outcome bool :=
  match x with
  | PDict d => Done (match lookup k d with Some _ => true | None => false end)
  | PList l => Done (existsb (is_str k) l)
  | PStr s => Done (substring_of k s)
  | _ => Failed TypeError
  end.

(** [x[k]] for a string [k]. *)
Definition py_getitem (x : pyobj) (k : string) : outcome pyobj :=
  match x with
  | PDict d => match lookup k d with
               | Some v => Done v
               | None => Failed (KeyError k)
               end
  | _ => Failed TypeError
  end.

(** [x[k] = v] for a string [k]; the result is [x] after the assignment. *)
Definition py_setitem (x : pyobj) (k : string) (v : pyobj) : outcome pyobj :=
  match x with
  | PDict d => Done (PDict (update k v d))
  | _ => Failed TypeError
  end.

(** [bool(x)] *)
Definition truthy (x : pyobj) : bool :=
  match x with
  | PNone => false
  | PBool b => b
  | PNum (PyInt z) => negb (z =? 0)
  | PNum (PyFloat f) => negb (is_zero f)
  | PStr s => negb (is_empty s)
  | PList l => match l with [] => false | _ => true end
  | PDict d => match d with [] => false | _ => true end
  end.

Definition int_pair (a b : Z) : pyobj := PList [PNum (PyInt a); PNum (PyInt b)].

Definition default_map_entry : pyobj :=
  PDict [("center"%string, PNum (PyInt 120));
         ("direction"%string, PNum (PyInt (-1)));
         ("scale"%string, PNum (PyInt 1))].

(** The items of [DEFAULT_CONFIG], in the order of the source. *)
Definition DEFAULT_CONFIG_items : list (string * pyobj) :=
  [("servo_limits"%string,
      PDict [("pan"%string, int_pair 30 210); ("tilt"%string, int_pair 80 165)]);
   ("pwr_init"%string, PBool true);
   ("pan_init"%string, PNum (PyInt 120));
   ("tilt_init"%string, PNum (PyInt 120));
   ("servo_map"%string,
      PDict [("pan"%string, default_map_entry); ("tilt"%string, default_map_entry)])].

(** [DEFAULT_CONFIG] as a document. *)
Definition DEFAULT_CONFIG_document : pyobj := PDict DEFAULT_CONFIG_items.

(** [for k in DEFAULT_CONFIG: if k not in data: data[k] = DEFAULT_CONFIG[k]] *)
Fixpoint fill_missing (defaults : list (string * pyobj)) (data : pyobj) : outcome pyobj :=
  match defaults with
  | [] => Done data
  | (k, v) :: r =>
      (present <- py_in k data ;;
       data' <- (if present then Done data else py_setitem data k v) ;;
       fill_missing r data')%outcome
  end.

(** One round of the loop over the two axes: the limits of [axis] are
    replaced by the default ones unless they are a list of two items. *)
Definition repair_axis_limits (axis : string) (data : pyobj) : outcome pyobj :=
  (has_limits <- py_in "servo_limits" data ;;
   bad <- (if negb has_limits then Done true
           else
             limits <- py_getitem data "servo_limits" ;;
             has_axis <- py_in axis limits ;;
             if negb has_axis then Done true
             else
               v <- py_getitem limits axis ;;
               Done match v with
                    | PList l => negb (Nat.eqb (List.length l) 2)
                    | _ => true
                    end) ;;
   if bad then
     default_limits <- py_getitem DEFAULT_CONFIG_document "servo_limits" ;;
     v <- py_getitem default_limits axis ;;
     limits <- py_getitem data "servo_limits" ;;
     limits' <- py_setitem limits axis v ;;
     py_setitem data "servo_limits" limits'
   else Done data)%outcome.

(** The configuration file: [None] when it does not exist, else the
    document it holds or the exception of reading it.  [json.dump] writes
    a document and [json.load] reads the same document back. *)
Definition config_file : Type := option (outcome pyobj).

(** [save_device_config(cfg)]; [writable] tells whether the file can be
    opened for writing. *)
Definition save_device_config (writable : bool) (cfg : pyobj) (file : config_file)
    : outcome unit * config_file :=
  if writable then (Done tt, Some (Done cfg)) else (Failed WriteError, file).

(** [load_device_config()] *)
Definition load_device_config (writable : bool) (file : config_file)
    : outcome pyobj * config_file :=
  match file with
  | Some content =>
      let attempt :=
        (data <- content ;;
         data <- fill_missing DEFAULT_CONFIG_items data ;;
         data <- repair_axis_limits "pan" data ;;
         repair_axis_limits "tilt" data)%outcome in
      (Done match attempt with
            | Done data => data
            | Failed _ => DEFAULT_CONFIG_document
            end, file)
  | None =>
      match save_device_config writable DEFAULT_CONFIG_document file with
      | (Done _, file') => (Done DEFAULT_CONFIG_document, file')
      | (Failed e, file') => (Failed e, file')
      end
  end.

(** ** Vocabulary *)

(** The limits of [axis] in a configuration are a list of two items. *)
Definition has_limit_pair (axis : string) (cfg : pyobj) : Prop :=
  exists d limits x y,
    cfg = PDict d /\ lookup "servo_limits" d = Some (PDict limits) /\
    lookup axis limits = Some (PList [x; y]).

(** A configuration as the daemon expects it: a dict with the five keys of
    [DEFAULT_CONFIG], whose limits are a list of two items for both axes. *)
Definition well_shaped (cfg : pyobj) : Prop :=
  (forall k, In k (map fst DEFAULT_CONFIG_items) -> exists v, py_getitem cfg k = Done v) /\
  has_limit_pair "pan" cfg /\ has_limit_pair "tilt" cfg.

(* ===================================================================== *)
(** * The routes [/system/init] and [/system/hostname]                    *)
(* ===================================================================== *)

(** An answer whose body is any document. *)
Record reply : Type := mkReply {
  status_code : Z;
  payload : pyobj
}.

Definition jsonify_document (doc : pyobj) : reply := mkReply 200 doc.

(** What the system routes do to the outside world. *)
Inductive sys_cmd : Type :=
| PowerWrite (on : bool)                   (* CAM_POWER.write(on) *)
| InitMove (a : axis) (angle : pyobj)      (* servo.move(angle, time=500) *)
| SetLimits (a : axis) (lo hi : pyobj)     (* servo.set_angle_limits(lo, hi) *)
| RunCommand (argv : list string).         (* subprocess.check_call / subprocess.call *)

(** [DEVICE_CONFIG] as a document, the configuration file, whether the
    two servo objects exist, and what was done so far (most recent
    first). *)
Record system : Type := mkSystem {
  sys_config : pyobj;
  sys_file : config_file;
  sys_pan : bool;
  sys_tilt : bool;
  sys_done : list sys_cmd
}.

(** What the environment decides: the outcome of a move of a servo, of
    opening the file for writing, of running a command (its exit status,
    or the exception of launching it), and of setting the limits of a
    servo. *)
Record sys_env : Type := mkSysEnv {
  init_move : axis -> pyobj -> outcome unit;
  file_writable : bool;
  run : list string -> outcome Z;
  set_limits : axis -> pyobj -> pyobj -> outcome unit
}.

(** State and exception monad over [system]: an exception keeps the
    mutations made before it. *)
Definition Sys (A : Type) : Type := system -> outcome A * system.

Definition sret {A : Type} (a : A) : Sys A := fun s => (Done a, s).

Definition sbind {A B : Type} (m : Sys A) (k : A -> Sys B) : Sys B :=
  fun s =>
    match m s with
    | (Done a, s1) => k a s1
    | (Failed e, s1) => (Failed e, s1)
    end.

Definition lift {A : Type} (r : outcome A) : Sys A := fun s => (r, s).

Declare Scope sys_scope.
Delimit Scope sys_scope with sys.
Notation "x <- m ;; k" := (sbind m (fun x => k))
  (at level 61, m at next level, right associativity) : sys_scope.
Notation "m ;;; k" := (sbind m (fun _ => k))
  (at level 61, right associativity) : sys_scope.

(** [DEVICE_CONFIG[k] = v] *)
Definition set_config (k : string) (v : pyobj) : Sys unit :=
  fun s =>
    match py_setitem (sys_config s) k v with
    | Done cfg => (Done tt, mkSystem cfg (sys_file s) (sys_pan s) (sys_tilt s) (sys_done s))
    | Failed e => (Failed e, s)
    end.

(** [DEVICE_CONFIG[k]] *)
Definition get_config (k : string) : Sys pyobj :=
  fun s => (py_getitem (sys_config s) k, s).

(** Do [c]; [r] is how it ends. *)
Definition perform (c : sys_cmd) (r : outcome unit) : Sys unit :=
  fun s => (r, mkSystem (sys_config s) (sys_file s) (sys_pan s) (sys_tilt s) (c :: sys_done s)).

(** [save_device_config(DEVICE_CONFIG)] *)
Definition save_config (E : sys_env) : Sys unit :=
  fun s =>
    let '(r, file) := save_device_config (file_writable E) (sys_config s) (sys_file s) in
    (r, mkSystem (sys_config s) file (sys_pan s) (sys_tilt s) (sys_done s)).

Definition init_keys : list string :=
  ["pwr_init"; "pan_init"; "tilt_init"; "servo_map"]%string.

(** [for k in keys: if k in data: DEVICE_CONFIG[k] = data[k]] *)
Fixpoint take_fields (keys : list string) (data : pyobj) : Sys unit :=
  match keys with
  | [] => sret tt
  | k :: r =>
      (present <- lift (py_in k data) ;;
       (if present then v <- lift (py_getitem data k) ;; set_config k v else sret tt) ;;;
       take_fields r data)%sys
  end.

(** [{k: DEVICE_CONFIG[k] for k in keys}] *)
Fixpoint read_fields (keys : list string) : Sys (list (string * pyobj)) :=
  match keys with
  | [] => sret []
  | k :: r => (v <- get_config k ;; vs <- read_fields r ;; sret ((k, v) :: vs))%sys
  end.

(** [if key in data and servo: servo.move(DEVICE_CONFIG[key], time=500)] *)
Definition apply_init_angle (E : sys_env) (key : string) (a : axis) (present : system -> bool)
    (data : pyobj) : Sys unit :=
  (given <- lift (py_in key data) ;;
   if given then
     fun s =>
       if present s
       then (v <- get_config key ;; perform (InitMove a v) (init_move E a v))%sys s
       else (Done tt, s)
   else sret tt)%sys.

(** [GET /system/init] *)
Definition system_init_GET (s : system) : reply := jsonify_document (sys_config s).

(** [POST /system/init]; [data] is the body of the request. *)
Definition system_init_POST (E : sys_env) (data : pyobj) : Sys reply :=
  (take_fields init_keys data ;;;
   given <- lift (py_in "pwr_init" data) ;;
   (if given
    then v <- get_config "pwr_init" ;; perform (PowerWrite (truthy v)) (Done tt)
    else sret tt) ;;;
   apply_init_angle E "pan_init" pan sys_pan data ;;;
   apply_init_angle E "tilt_init" tilt sys_tilt data ;;;
   save_config E ;;;
   vs <- read_fields init_keys ;;
   sret (jsonify_document (PDict (("status"%string, PStr "ok") :: vs))))%sys.

(** [data.get(k)] *)
Definition py_get (data : pyobj) (k : string) : outcome pyobj :=
  match data with
  | PDict d => Done match lookup k d with
                    | Some v => v
                    | None => PNone
                    end
  | _ => Failed AttributeError
  end.

Definition hostnamectl (h : string) : list string :=
  ["hostnamectl"; "set-hostname"; h]%string.

Definition restart_avahi : list string :=
  ["systemctl"; "restart"; "avahi-daemon"]%string.

(** [subprocess.check_call(argv)] *)
Definition check_call (E : sys_env) (argv : list string) : Sys unit :=
  perform (RunCommand argv)
    match run E argv with
    | Done rc => if rc =? 0 then Done tt else Failed CommandError
    | Failed e => Failed e
    end.

(** [subprocess.call(argv)] *)
Definition call (E : sys_env) (argv : list string) : Sys Z :=
  fun s =>
    (run E argv,
     mkSystem (sys_config s) (sys_file s) (sys_pan s) (sys_tilt s) (RunCommand argv :: sys_done s)).

(** [POST /system/hostname]; a hostname that is not a string makes
    [check_call] raise before anything is run. *)
Definition system_hostname_POST (E : sys_env) (data : pyobj) : Sys reply :=
  (new_host <- lift (py_get data "hostname") ;;
   if negb (truthy new_host)
   then sret (mkReply 400 (PDict [("error"%string, PStr "hostname required")]))
   else
     match new_host with
     | PStr h =>
         check_call E (hostnamectl h) ;;;
         call E restart_avahi ;;;
         sret (jsonify_document (PDict [("status"%string, PStr "ok");
                                        ("hostname"%string, new_host)]))
     | _ => lift (Failed TypeError)
     end)%sys.

(** ** Start of the daemon *)

(** [DEVICE_CONFIG = load_device_config()] *)
Definition load_config (E : sys_env) : Sys unit :=
  fun s =>
    match load_device_config (file_writable E) (sys_file s) with
    | (Done cfg, file) => (Done tt, mkSystem cfg file (sys_pan s) (sys_tilt s) (sys_done s))
    | (Failed e, file) =>
        (Failed e, mkSystem (sys_config s) file (sys_pan s) (sys_tilt s) (sys_done s))
    end.

(** The arguments that a call passes for [*x]: the items of a list, the
    keys of a dict, the characters of a string. *)
Definition star_args (x : pyobj) : outcome (list pyobj) :=
  match x with
  | PList l => Done l
  | PDict d => Done (map (fun kv => PStr (fst kv)) d)
  | PStr s => Done (map (fun c => PStr (String c EmptyString)) (list_ascii_of_string s))
  | _ => Failed TypeError
  end.

(** [if servo: servo.set_angle_limits( *SERVO_LIMITS[axis])]; the method
    takes two arguments. *)
Definition apply_limits (E : sys_env) (a : axis) (present : system -> bool) (limits : pyobj)
    : Sys unit :=
  fun s =>
    if present s
    then (pair <- lift (py_getitem limits (axis_name a)) ;;
          args <- lift (star_args pair) ;;
          match args with
          | [lo; hi] => perform (SetLimits a lo hi) (set_limits E a lo hi)
          | _ => lift (Failed TypeError)
          end)%sys s
    else (Done tt, s).

(** [if servo: servo.move(DEVICE_CONFIG[key], time=500)] *)
Definition apply_start_angle (E : sys_env) (key : string) (a : axis) (present : system -> bool)
    : Sys unit :=
  fun s =>
    if present s
    then (v <- get_config key ;; perform (InitMove a v) (init_move E a v))%sys s
    else (Done tt, s).

(** What the module does when it is loaded, from the loading of the
    configuration to the switching of the camera power. *)
Definition startup (E : sys_env) : Sys unit :=
  (load_config E ;;;
   SERVO_LIMITS <- get_config "servo_limits" ;;
   apply_limits E pan sys_pan SERVO_LIMITS ;;;
   apply_limits E tilt sys_tilt SERVO_LIMITS ;;;
   apply_start_angle E "pan_init" pan sys_pan ;;;
   apply_start_angle E "tilt_init" tilt sys_tilt ;;;
   v <- get_config "pwr_init" ;;
   match v with
   | PNone => sret tt
   | _ => perform (PowerWrite (truthy v)) (Done tt)
   end)%sys.

(** The keys outside [init_keys] read the same in both states. *)
Definition same_other_keys (s s' : system) : Prop :=
  forall k, ~ In k init_keys -> py_getitem (sys_config s') k = py_getitem (sys_config s) k.

(* ===================================================================== *)
(** * Facts about Python numbers                                          *)
(* ===================================================================== *)

Lemma K_pos : 0 < K.
Proof. unfold K. apply Z.pow_pos_nonneg; lia. Qed.

Lemma digits2_pos_bounds m :
  2 ^ (Zpos (digits2_pos m) - 1) <= Zpos m < 2 ^ Zpos (digits2_pos m).
Proof.
  induction m as [p IH|p IH|]; cbn [digits2_pos].
  - rewrite Pos2Z.inj_succ. replace (Z.succ (Z.pos (digits2_pos p)) - 1) with (Z.pos (digits2_pos p) - 1 + 1) by lia.
    rewrite Z.pow_succ_r by lia. rewrite Z.pow_add_r by lia. lia.
  - rewrite Pos2Z.inj_succ. replace (Z.succ (Z.pos (digits2_pos p)) - 1) with (Z.pos (digits2_pos p) - 1 + 1) by lia.
    rewrite Z.pow_succ_r by lia. rewrite Z.pow_add_r by lia. lia.
  - cbn. lia.
Qed.

(** What validity of a finite binary64 value gives. *)
Lemma bounded_facts m e :
  bounded prec emax m e = true ->
  -1074 <= e <= 971 /\ Zpos m < 2 ^ 53 /\ (-1074 < e -> 2 ^ 52 <= Zpos m).
Proof.
  unfold bounded, canonical_mantissa, fexp, SpecFloat.emin, prec, emax.
  intros H. apply andb_prop in H as [H1 H2].
  apply Z.eqb_eq in H1. apply Z.leb_le in H2.
  pose proof (digits2_pos_bounds m) as [B1 B2].
  set (d := Zpos (digits2_pos m)) in *.
  assert (Hd : d <= 53) by lia.
  split; [lia|]. split.
  - eapply Z.lt_le_trans; [exact B2|]. apply Z.pow_le_mono_r; lia.
  - intros He. assert (d = 53) as Hd53 by lia. rewrite Hd53 in B1. exact B1.
Qed.

Lemma Prim2SF_finite_facts f s m e :
  Prim2SF f = S754_finite s m e ->
  -1074 <= e <= 971 /\ Zpos m < 2 ^ 53 /\ (-1074 < e -> 2 ^ 52 <= Zpos m).
Proof.
  intros H. apply bounded_facts. pose proof (Prim2SF_valid f) as V. now rewrite H in V.
Qed.

Lemma signed_opp s m : signed s m = if s then - Zpos m else Zpos m.
Proof. now destruct s. Qed.

Lemma K_split p : Zpos p <= 1074 -> K = 2 ^ Zpos p * 2 ^ (Zneg p + 1074).
Proof.
  intros H. unfold K. rewrite <- Z.pow_add_r by lia. f_equal. lia.
Qed.

Lemma SF_trunc_scaled s m e :
  -1074 <= e -> SF_trunc s m e = Z.quot (signed s m * 2 ^ (e + 1074)) K.
Proof.
  intros He. unfold SF_trunc. rewrite signed_opp.
  assert (Hk := K_pos).
  destruct e as [|p|p].
  - cbn [Z.shiftl]. change (0 + 1074) with 1074. fold K.
    destruct s; rewrite Z.quot_mul by lia; reflexivity.
  - rewrite Z.shiftl_mul_pow2 by lia.
    replace (2 ^ (Z.pos p + 1074)) with (2 ^ Z.pos p * K)
      by (unfold K; rewrite <- Z.pow_add_r by lia; reflexivity).
    destruct s; rewrite Z.mul_assoc, Z.quot_mul by lia; lia.
  - rewrite Z.shiftr_div_pow2 by lia.
    assert (Hp : Zpos p <= 1074) by lia.
    rewrite (K_split p Hp).
    assert (0 < 2 ^ Zpos p) by (apply Z.pow_pos_nonneg; lia).
    assert (0 < 2 ^ (Zneg p + 1074)) by (apply Z.pow_pos_nonneg; lia).
    destruct s.
    + rewrite Z.mul_opp_l, Z.quot_opp_l by lia.
      rewrite Z.quot_mul_cancel_r by lia. rewrite Z.quot_div_nonneg by lia. reflexivity.
    + rewrite Z.quot_mul_cancel_r by lia. rewrite Z.quot_div_nonneg by lia. reflexivity.
Qed.

Lemma Zcompare_mul_r a b c : 0 < c -> (a * c ?= b * c) = (a ?= b).
Proof.
  intros Hc. destruct (Z.compare_spec a b) as [->|H|H].
  - apply Z.compare_refl.
  - apply Z.compare_lt_iff. nia.
  - apply Z.compare_gt_iff. nia.
Qed.

Lemma cmp_int_float_scaled z f n :
  SF_scaled (Prim2SF f) = Some n -> cmp_int_float z f = Some (z * K ?= n).
Proof.
  unfold cmp_int_float. destruct (Prim2SF f) as [s|s| |s m e] eqn:Hf; cbn; try discriminate.
  - intros [= <-]. f_equal. assert (Hk := K_pos).
    rewrite <- (Zcompare_mul_r z 0 K) by lia. reflexivity.
  - intros [= <-]. f_equal.
    destruct (Prim2SF_finite_facts f _ _ _ Hf) as [[He _] _].
    fold (signed s m). assert (Hk := K_pos).
    destruct e as [|p|p].
    + change (0 + 1074) with 1074. fold K. change (2 ^ 0) with 1. rewrite Z.mul_1_r.
      now rewrite Zcompare_mul_r by lia.
    + replace (2 ^ (Z.pos p + 1074)) with (2 ^ Z.pos p * K)
        by (unfold K; rewrite <- Z.pow_add_r by lia; reflexivity).
      rewrite Z.mul_assoc. now rewrite Zcompare_mul_r by lia.
    + assert (Hp : Zpos p <= 1074) by lia. rewrite (K_split p Hp).
      assert (0 < 2 ^ (Zneg p + 1074)) by (apply Z.pow_pos_nonneg; lia).
      rewrite Z.mul_assoc. now rewrite Zcompare_mul_r by lia.
Qed.

Lemma pow2_pos e : 0 < 2 ^ (e + 1074) \/ e + 1074 < 0.
Proof. destruct (Z_lt_le_dec (e + 1074) 0); [now right | left; apply Z.pow_pos_nonneg; lia]. Qed.

Lemma bounded_exponent_order m1 e1 m2 e2 :
  bounded prec emax m1 e1 = true -> bounded prec emax m2 e2 = true -> e1 < e2 ->
  Zpos m1 * 2 ^ (e1 + 1074) < Zpos m2 * 2 ^ (e2 + 1074).
Proof.
  intros B1 B2 He.
  destruct (bounded_facts _ _ B1) as [[L1 _] [U1 _]].
  destruct (bounded_facts _ _ B2) as [[L2 _] [_ N2]].
  assert (N2' : -1074 < e2) by lia. specialize (N2 N2').
  replace (e2 + 1074) with ((e1 + 1074) + (e2 - e1)) by lia.
  rewrite (Z.pow_add_r 2 (e1 + 1074) (e2 - e1)) by lia.
  assert (HA : 0 < 2 ^ (e1 + 1074)) by (apply Z.pow_pos_nonneg; lia).
  assert (HB : 2 ^ 1 <= 2 ^ (e2 - e1)) by (apply Z.pow_le_mono_r; lia).
  change (2 ^ 1) with 2 in HB.
  change (2 ^ 53) with (2 * 2 ^ 52) in U1.
  assert (HP : 0 < 2 ^ 52) by reflexivity.
  generalize dependent (2 ^ (e1 + 1074)). generalize dependent (2 ^ (e2 - e1)).
  generalize dependent (2 ^ 52). intros P U1 N2 HP B HB A HA.
  assert (Zpos m1 * A < 2 * P * A) by nia.
  assert (2 * P * A <= Zpos m2 * 2 * A) by nia.
  assert (Zpos m2 * 2 * A <= Zpos m2 * (A * B)) by nia.
  lia.
Qed.

Lemma SFcompare_scaled x y nx ny :
  valid_binary x = true -> valid_binary y = true ->
  SF_scaled x = Some nx -> SF_scaled y = Some ny ->
  SFcompare x y = Some (nx ?= ny).
Proof.
  destruct x as [sx|sx| |sx mx ex], y as [sy|sy| |sy my ey]; cbn; try discriminate;
    intros Vx Vy [= <-] [= <-]; f_equal.
  - destruct (bounded_facts _ _ Vy) as [[L _] _].
    assert (0 < 2 ^ (ey + 1074)) by (apply Z.pow_pos_nonneg; lia).
    symmetry. destruct sy; cbn [signed].
    + apply Z.compare_gt_iff. lia.
    + apply Z.compare_lt_iff. lia.
  - destruct (bounded_facts _ _ Vx) as [[L _] _].
    assert (0 < 2 ^ (ex + 1074)) by (apply Z.pow_pos_nonneg; lia).
    symmetry. destruct sx; cbn [signed].
    + apply Z.compare_lt_iff. lia.
    + apply Z.compare_gt_iff. lia.
  - destruct (bounded_facts _ _ Vx) as [[Lx _] _].
    destruct (bounded_facts _ _ Vy) as [[Ly _] _].
    assert (Hx : 0 < 2 ^ (ex + 1074)) by (apply Z.pow_pos_nonneg; lia).
    assert (Hy : 0 < 2 ^ (ey + 1074)) by (apply Z.pow_pos_nonneg; lia).
    symmetry. destruct sx, sy; cbn [signed].
    + (* both negative *)
      destruct (Z.compare_spec ex ey) as [->|He|He].
      * rewrite Pos.compare_cont_spec. cbn [Pos.switch_Eq].
        destruct (Pos.compare_spec mx my) as [->|Hm|Hm]; cbn [CompOpp].
        -- apply Z.compare_refl.
        -- apply Z.compare_gt_iff. nia.
        -- apply Z.compare_lt_iff. nia.
      * apply Z.compare_gt_iff.
        pose proof (bounded_exponent_order _ _ _ _ Vx Vy He). lia.
      * apply Z.compare_lt_iff.
        pose proof (bounded_exponent_order _ _ _ _ Vy Vx He). lia.
    + apply Z.compare_lt_iff. lia.
    + apply Z.compare_gt_iff. lia.
    + destruct (Z.compare_spec ex ey) as [->|He|He].
      * rewrite Pos.compare_cont_spec. cbn [Pos.switch_Eq].
        rewrite Zcompare_mul_r by lia. cbn [Z.compare].
        now destruct (mx ?= my)%positive.
      * apply Z.compare_lt_iff. now apply bounded_exponent_order.
      * apply Z.compare_gt_iff. now apply bounded_exponent_order.
Qed.

(** Python's [<] is the order of the exact values. *)
Lemma py_lt_exact a b x y :
  exact a = Some x -> exact b = Some y -> py_lt a b = (x <? y).
Proof.
  assert (Hk := K_pos).
  destruct a as [za|fa], b as [zb|fb]; cbn [exact py_lt].
  - intros [= <-] [= <-]. unfold Z.ltb. now rewrite Zcompare_mul_r by lia.
  - intros [= <-] Hb. rewrite (cmp_int_float_scaled _ _ _ Hb). unfold Z.ltb.
    now destruct (za * K ?= y).
  - intros Ha [= <-]. rewrite (cmp_int_float_scaled _ _ _ Ha). unfold Z.ltb.
    rewrite (Z.compare_antisym (zb * K) x). now destruct (zb * K ?= x).
  - intros Ha Hb. rewrite ltb_spec. unfold SFltb.
    rewrite (SFcompare_scaled _ _ _ _ (Prim2SF_valid fa) (Prim2SF_valid fb) Ha Hb).
    unfold Z.ltb. now destruct (x ?= y).
Qed.

(** [int(x)] is the exact value cut towards zero. *)
Lemma py_int_exact a x : exact a = Some x -> py_int a = Ok (Z.quot x K).
Proof.
  assert (Hk := K_pos). destruct a as [z|f]; cbn [exact py_int].
  - intros [= <-]. now rewrite Z.quot_mul by lia.
  - unfold float_to_int. destruct (Prim2SF f) as [s|s| |s m e] eqn:Hf; cbn; try discriminate.
    + intros [= <-]. now rewrite Z.quot_0_l by lia.
    + intros [= <-]. destruct (Prim2SF_finite_facts f _ _ _ Hf) as [[He _] _].
      now rewrite SF_trunc_scaled.
Qed.

(** After clamping, a bound is a number between 0 and 240, whatever was
    asked for (a NaN included). *)
Lemma clamp_servo_range_exact v :
  exists n, exact (clamp_servo_range v) = Some n /\ 0 <= n <= 240 * K.
Proof.
  assert (Hk := K_pos). unfold clamp_servo_range, py_max, py_min, py_gt.
  assert (H240 : exact (PyInt 240) = Some (240 * K)) by reflexivity.
  assert (H0 : exact (PyInt 0) = Some (0 * K)) by reflexivity.
  assert (Hcase : (exists nv, exact v = Some nv) \/
                  (py_lt v (PyInt 240) = false) \/
                  (py_lt v (PyInt 240) = true /\ py_lt (PyInt 0) v = false)).
  { destruct v as [z|f]; [left; now eexists|]. cbn [exact py_lt]. unfold cmp_int_float.
    destruct (Prim2SF f) as [s|[|]| |s m e]; cbn; eauto. }
  destruct Hcase as [[nv Hv]|[Hlt|[Hlt Hgt]]].
  - rewrite (py_lt_exact _ _ _ _ Hv H240).
    destruct (nv <? 240 * K) eqn:E1.
    + rewrite (py_lt_exact _ _ _ _ H0 Hv). destruct (0 * K <? nv) eqn:E2.
      * exists nv. split; [assumption|]. apply Z.ltb_lt in E1, E2. lia.
      * exists (0 * K). split; [reflexivity | lia].
    + rewrite (py_lt_exact _ _ _ _ H0 H240). destruct (0 * K <? 240 * K) eqn:E2.
      * exists (240 * K). split; [reflexivity | lia].
      * exists (0 * K). split; [reflexivity | lia].
  - rewrite Hlt. exists (240 * K). split; [reflexivity | lia].
  - rewrite Hlt, Hgt. exists (0 * K). split; [reflexivity | lia].
Qed.

Lemma quot_K_range n : 0 <= n <= 240 * K -> 0 <= Z.quot n K <= 240.
Proof.
  assert (Hk := K_pos). intros [H1 H2]. split.
  - apply Z.quot_pos; lia.
  - rewrite <- (Z.quot_mul 240 K) by lia. apply Z.quot_le_mono; lia.
Qed.

(** The arithmetic core of the limit update. *)
Lemma normalized_limits_spec c stored mr xr mm xm :
  (exists e, normalized_limits c stored mr xr mm xm = Raise e /\
     (requested_bound c mr mm (fst stored) = Raise e \/
      requested_bound c xr xm (snd stored) = Raise e)) \/
  (exists a b na nb,
     requested_bound c mr mm (fst stored) = Ok a /\
     requested_bound c xr xm (snd stored) = Ok b /\
     exact (clamp_servo_range a) = Some na /\ 0 <= na <= 240 * K /\
     exact (clamp_servo_range b) = Some nb /\ 0 <= nb <= 240 * K /\
     normalized_limits c stored mr xr mm xm =
       Ok (if has_sign (direction c) && (nb <? na)
           then (Z.quot nb K, Z.quot na K) else (Z.quot na K, Z.quot nb K))).
Proof.
  unfold normalized_limits.
  destruct (requested_bound c mr mm (fst stored)) as [a|e]; [|left; exists e; cbn; auto].
  destruct (requested_bound c xr xm (snd stored)) as [b|e]; [|left; exists e; cbn; auto].
  right. cbn [rbind].
  destruct (clamp_servo_range_exact a) as (na & Ha & Ra).
  destruct (clamp_servo_range_exact b) as (nb & Hb & Rb).
  exists a, b, na, nb. do 2 (split; [reflexivity|]). repeat (split; [assumption|]).
  unfold has_sign.
  replace (py_gt (clamp_servo_range a) (clamp_servo_range b)) with (nb <? na)
    by (symmetry; apply py_lt_exact; assumption).
  destruct (py_lt (direction c) (PyInt 0)), (py_gt (direction c) (PyInt 0)), (nb <? na);
    cbn [andb orb]; rewrite (py_int_exact _ _ Ha), (py_int_exact _ _ Hb); reflexivity.
Qed.

Lemma normalized_limits_ordered c stored mr xr mm xm lo hi :
  has_sign (direction c) = true ->
  normalized_limits c stored mr xr mm xm = Ok (lo, hi) ->
  0 <= lo /\ lo <= hi /\ hi <= 240.
Proof.
  intros Hs R. assert (Hk := K_pos).
  destruct (normalized_limits_spec c stored mr xr mm xm)
    as [(e & R' & _)|(a & b & na & nb & _ & _ & _ & Ra & _ & Rb & R')]; [congruence|].
  rewrite R', Hs in R. cbn [andb] in R.
  pose proof (quot_K_range na Ra). pose proof (quot_K_range nb Rb).
  destruct (nb <? na) eqn:E; injection R as <- <-.
  - apply Z.ltb_lt in E. repeat split; try lia. apply Z.quot_le_mono; lia.
  - apply Z.ltb_ge in E. repeat split; try lia. apply Z.quot_le_mono; lia.
Qed.

(** ** Shape of rounded results *)

Lemma shr_1_nonneg mrs : 0 <= shr_m mrs -> 0 <= shr_m (shr_1 mrs).
Proof.
  destruct mrs as [m r s]. cbn. destruct m as [|[p|p|]|p]; cbn; lia.
Qed.

Lemma iter_pos_shr_1_nonneg p : forall mrs,
  0 <= shr_m mrs -> 0 <= shr_m (iter_pos shr_1 p mrs).
Proof.
  induction p as [p IH|p IH|]; intros mrs H; cbn.
  - apply IH, IH. now apply shr_1_nonneg.
  - now apply IH, IH.
  - now apply shr_1_nonneg.
Qed.

Lemma shr_fexp_nonneg m e l :
  0 <= m -> 0 <= shr_m (fst (shr_fexp prec emax m e l)).
Proof.
  intros H. unfold shr_fexp, shr.
  assert (H0 : 0 <= shr_m (shr_record_of_loc m l)) by (destruct l as [|[]]; exact H).
  destruct (fexp prec emax (Zdigits2 m + e) - e); cbn; auto.
  now apply iter_pos_shr_1_nonneg.
Qed.

Lemma round_nearest_even_nonneg m l : 0 <= m -> 0 <= round_nearest_even m l.
Proof. destruct l as [|[]]; cbn; try lia. destruct (Z.even m); lia. Qed.

Lemma binary_round_aux_signed s m e l :
  0 <= m -> SF_signed s (binary_round_aux prec emax s m e l).
Proof.
  intros H. unfold binary_round_aux.
  pose proof (shr_fexp_nonneg m e l H) as H1.
  destruct (shr_fexp prec emax m e l) as [mrs' e']. cbn [fst] in H1.
  pose proof (shr_fexp_nonneg _ e' loc_Exact
                (round_nearest_even_nonneg _ (loc_of_shr_record mrs') H1)) as H2.
  destruct (shr_fexp prec emax (round_nearest_even (shr_m mrs') (loc_of_shr_record mrs')) e' loc_Exact)
    as [mrs'' e'']. cbn [fst] in H2.
  destruct (shr_m mrs''); [reflexivity| |lia].
  destruct (e'' <=? emax - prec); reflexivity.
Qed.

Lemma binary_round_signed s m e : SF_signed s (binary_round prec emax s m e).
Proof.
  unfold binary_round. destruct (shl_align m e _) as [mz ez].
  apply binary_round_aux_signed. lia.
Qed.

Lemma SF_signed_unsigned x : SF_signed false x -> SF_unsigned x.
Proof. destruct x; cbn; auto. Qed.

Lemma SFabs_unsigned x : SF_unsigned (SFabs x).
Proof. destruct x; reflexivity. Qed.

Lemma SFmul_unsigned x m e :
  SF_unsigned x -> SF_unsigned (SFmul prec emax x (S754_finite false m e)).
Proof.
  destruct x as [s|s| |s mx ex]; cbn; try (intros ->; reflexivity); [auto|].
  intros ->. apply SF_signed_unsigned, binary_round_aux_signed. lia.
Qed.

Lemma SFdiv_core_nonneg m1 e1 m2 e2 :
  0 <= fst (fst (SFdiv_core_binary prec emax (Zpos m1) e1 (Zpos m2) e2)).
Proof.
  unfold SFdiv_core_binary.
  set (s := e1 - e2 - _).
  set (m' := match s with Z0 => Zpos m1 | Zpos _ => Z.shiftl (Zpos m1) s | Zneg _ => 0 end).
  assert (Hm : 0 <= m').
  { subst m'. destruct s; try lia. apply Z.shiftl_nonneg. lia. }
  pose proof (Z_div_mod m' (Zpos m2) ltac:(lia)) as Hd.
  destruct (Z.div_eucl m' (Zpos m2)) as [q r]. cbn. nia.
Qed.

Lemma SFdiv_unsigned x m e :
  SF_unsigned x -> SF_unsigned (SFdiv prec emax x (S754_finite false m e)).
Proof.
  destruct x as [s|s| |s mx ex]; cbn [SFdiv SF_unsigned]; try (intros ->; reflexivity); [auto|].
  intros ->. pose proof (SFdiv_core_nonneg mx ex m e) as H.
  destruct (SFdiv_core_binary prec emax (Zpos mx) ex (Zpos m) e) as [[q e'] l]. cbn in H.
  apply SF_signed_unsigned, binary_round_aux_signed. exact H.
Qed.

Lemma SF_unsigned_scaled x n : SF_unsigned x -> SF_scaled x = Some n -> 0 <= n.
Proof.
  destruct x as [s|s| |s m e]; unfold SF_unsigned, SF_scaled; try discriminate.
  - intros _ [= <-]. lia.
  - intros -> [= <-]. change (0 <= Zpos m * 2 ^ (e + 1074)).
    apply Z.mul_nonneg_nonneg; [lia|]. apply Z.pow_nonneg. lia.
Qed.

Lemma Prim2SF_1000 : Prim2SF (Z2F 1000) = S754_finite false 8796093022208000 (-43).
Proof. vm_compute. reflexivity. Qed.

Lemma Prim2SF_15 : Prim2SF 15 = S754_finite false 8444249301319680 (-49).
Proof. vm_compute. reflexivity. Qed.

Lemma duration_quotient_unsigned cur tgt : SF_unsigned (Prim2SF (duration_quotient cur tgt)).
Proof.
  unfold duration_quotient. rewrite div_spec, mul_spec, abs_spec, Prim2SF_1000, Prim2SF_15.
  apply SFdiv_unsigned, SFmul_unsigned, SFabs_unsigned.
Qed.

(** When the duration is computed, it is the quotient cut to whole
    milliseconds. *)
Lemma move_duration_floor cur tgt ms :
  move_duration cur tgt = Ok ms ->
  exists nq, exact (PyFloat (duration_quotient cur tgt)) = Some nq /\
    0 <= ms /\ ms * K <= nq < (ms + 1) * K.
Proof.
  unfold move_duration. cbn [py_sub py_arith py_float rbind].
  unfold int_to_float. destruct (is_infinity (Z2F tgt)); [discriminate|].
  cbn [rbind py_abs py_mul py_arith py_float].
  unfold int_to_float.
  replace (is_infinity (Z2F 1000)) with false by (vm_compute; reflexivity).
  cbn [rbind py_truediv py_float].
  replace (is_zero 15) with false by (vm_compute; reflexivity).
  fold (duration_quotient cur tgt). cbn [py_int].
  pose proof (duration_quotient_unsigned cur tgt) as Hu.
  intros Hi. cbn [rbind py_int] in Hi. assert (Hk := K_pos).
  destruct (exact (PyFloat (duration_quotient cur tgt))) as [nq|] eqn:Hq.
  - exists nq. split; [reflexivity|].
    pose proof (py_int_exact _ _ Hq) as Hi'. cbn [py_int] in Hi'.
    rewrite Hi' in Hi. injection Hi as <-.
    pose proof (SF_unsigned_scaled _ _ Hu Hq) as Hn.
    rewrite Z.quot_div_nonneg by lia.
    pose proof (Z.div_pos nq K Hn Hk). pose proof (Z.mul_div_le nq K Hk).
    pose proof (Z.mul_succ_div_gt nq K Hk). lia.
  - exfalso. cbn [exact] in Hq. unfold float_to_int in Hi.
    destruct (Prim2SF (duration_quotient cur tgt)); cbn in Hq; discriminate.
Qed.

(** ** Facts for the read fallback *)

Lemma SF_signed_not_nan s x : SF_signed s x -> x <> S754_nan.
Proof. now destruct x. Qed.

Lemma binary_normalize_not_nan z e sz : binary_normalize prec emax z e sz <> S754_nan.
Proof.
  destruct z; cbn [binary_normalize]; [discriminate| |];
    eapply SF_signed_not_nan, binary_round_signed.
Qed.

Lemma SFldexp_not_nan x e : x <> S754_nan -> SFldexp prec emax x e <> S754_nan.
Proof.
  destruct x; cbn [SFldexp]; auto. intros _.
  eapply SF_signed_not_nan, binary_round_signed.
Qed.

Lemma SFopp_not_nan x : x <> S754_nan -> SFopp x <> S754_nan.
Proof. destruct x; cbn; auto; discriminate. Qed.

Lemma Prim2SF_SF2Prim_not_nan x : x <> S754_nan -> Prim2SF (SF2Prim x) <> S754_nan.
Proof.
  destruct x as [[|]|[|]| |s m e]; intros H; try (vm_compute; discriminate); [now destruct H|].
  cbn [SF2Prim]. cbv zeta.
  assert (Hl : Prim2SF (Z.ldexp (of_uint63 (Uint63Axioms.of_Z (Zpos m))) e) <> S754_nan).
  { unfold Z.ldexp. rewrite ldshiftexp_spec. apply SFldexp_not_nan.
    rewrite of_uint63_spec. apply binary_normalize_not_nan. }
  destruct s; [rewrite opp_spec; now apply SFopp_not_nan | exact Hl].
Qed.

Lemma Prim2SF_Z2F_not_nan z : Prim2SF (Z2F z) <> S754_nan.
Proof. apply Prim2SF_SF2Prim_not_nan, binary_normalize_not_nan. Qed.

Lemma sub_self_zero f n :
  SF_scaled (Prim2SF f) = Some n -> Prim2SF (f - f) = S754_zero false.
Proof.
  rewrite sub_spec. destruct (Prim2SF f) as [s|s| |s m e]; cbn [SF_scaled]; try discriminate; intros _.
  - now destruct s.
  - unfold SF64sub, SFsub. cbv zeta. now rewrite Z.sub_diag.
Qed.

Lemma is_zero_Prim2SF f s : Prim2SF f = S754_zero s -> is_zero f = true.
Proof.
  intros H. unfold is_zero. rewrite eqb_spec, H.
  replace (Prim2SF zero) with (S754_zero false) by (vm_compute; reflexivity).
  reflexivity.
Qed.

Lemma SFdiv_zero_l y :
  y <> S754_nan -> (forall s, y <> S754_zero s) ->
  exists s, SFdiv prec emax (S754_zero false) y = S754_zero s.
Proof.
  destruct y as [s|s| |s m e]; intros H1 H2; cbn; eauto.
  - now destruct (H2 s).
  - now destruct H1.
Qed.

Lemma SFmul_finite_not_nan s m e y :
  y <> S754_nan -> SFmul prec emax (S754_finite s m e) y <> S754_nan.
Proof.
  destruct y as [sy|sy| |sy my ey]; intros H; cbn [SFmul]; try discriminate; [now destruct H|].
  eapply SF_signed_not_nan, binary_round_aux_signed. lia.
Qed.

Lemma py_eq_zero_float g s : Prim2SF g = S754_zero s -> py_eq (PyFloat g) (PyInt 0) = true.
Proof. intros H. cbn [py_eq]. unfold cmp_int_float. now rewrite H. Qed.

Lemma unit_direction_has_sign d : unit_direction d -> has_sign d = true.
Proof. intros [ -> | [ -> | [ -> | -> ] ] ]; vm_compute; reflexivity. Qed.

Lemma positive_not_nan f : py_gt (PyFloat f) (PyInt 0) = true -> Prim2SF f <> S754_nan.
Proof.
  unfold py_gt. cbn [py_lt]. unfold cmp_int_float. intros H E. now rewrite E in H.
Qed.

(** The denominator [direction * scale] of a valid calibration is an
    integer or a float that is not a NaN. *)
Lemma denominator_not_nan c den :
  valid_calibration c ->
  py_mul (direction c) (scale c) = Ok den ->
  match den with PyInt _ => True | PyFloat g => Prim2SF g <> S754_nan end.
Proof.
  intros (_ & Hd & Hs). destruct (scale c) as [z|f].
  - destruct Hd as [ -> | [ -> | [ -> | -> ] ] ]; cbn [py_mul py_arith py_float rbind].
    + now intros [= <-].
    + now intros [= <-].
    + unfold int_to_float. destruct (is_infinity (Z2F z)); [discriminate|].
      intros [= <-]. rewrite mul_spec.
      replace (Prim2SF 1) with (S754_finite false 4503599627370496 (-52)) by (vm_compute; reflexivity).
      apply SFmul_finite_not_nan, Prim2SF_Z2F_not_nan.
    + unfold int_to_float. destruct (is_infinity (Z2F z)); [discriminate|].
      intros [= <-]. rewrite mul_spec.
      replace (Prim2SF (-1)) with (S754_finite true 4503599627370496 (-52)) by (vm_compute; reflexivity).
      apply SFmul_finite_not_nan, Prim2SF_Z2F_not_nan.
  - pose proof (positive_not_nan f Hs) as Hf.
    destruct Hd as [ -> | [ -> | [ -> | -> ] ] ]; cbn [py_mul py_arith py_float rbind].
    + replace (int_to_float 1) with (Ok 1%float) by (vm_compute; reflexivity).
      cbn [rbind]. intros [= <-]. rewrite mul_spec.
      replace (Prim2SF 1) with (S754_finite false 4503599627370496 (-52)) by (vm_compute; reflexivity).
      now apply SFmul_finite_not_nan.
    + replace (int_to_float (-1)) with (Ok (-1)%float) by (vm_compute; reflexivity).
      cbn [rbind]. intros [= <-]. rewrite mul_spec.
      replace (Prim2SF (-1)) with (S754_finite true 4503599627370496 (-52)) by (vm_compute; reflexivity).
      now apply SFmul_finite_not_nan.
    + intros [= <-]. rewrite mul_spec.
      replace (Prim2SF 1) with (S754_finite false 4503599627370496 (-52)) by (vm_compute; reflexivity).
      now apply SFmul_finite_not_nan.
    + intros [= <-]. rewrite mul_spec.
      replace (Prim2SF (-1)) with (S754_finite true 4503599627370496 (-52)) by (vm_compute; reflexivity).
      now apply SFmul_finite_not_nan.
Qed.

(** Whenever the inverse mapping of the centre is defined, it is zero. *)
Lemma centre_maps_to_zero c v :
  valid_calibration c ->
  physical_to_mapped c (center c) = Ok v ->
  py_eq v (PyInt 0) = true.
Proof.
  intros Hc. pose proof (denominator_not_nan c) as Hden. specialize (fun den => Hden den Hc).
  destruct Hc as ((n & Hn) & _ & _).
  unfold physical_to_mapped.
  assert (Hnum : exists num, py_sub (center c) (center c) = Ok num /\
            (num = PyInt 0 \/ exists g, num = PyFloat g /\ Prim2SF g = S754_zero false)).
  { destruct (center c) as [z|f]; cbn [py_sub py_arith py_float rbind].
    - exists (PyInt 0). rewrite Z.sub_diag. auto.
    - exists (PyFloat (f - f)). split; [reflexivity|]. right. eexists. split; [reflexivity|].
      eapply sub_self_zero. exact Hn. }
  destruct Hnum as (num & -> & Hnum). cbn [rbind].
  destruct (py_mul (direction c) (scale c)) as [den|e]; [|discriminate].
  specialize (Hden den eq_refl). cbn [rbind].
  assert (Hfloat : forall fa fb,
            Prim2SF fa = S754_zero false -> Prim2SF fb <> S754_nan ->
            (if is_zero fb then Raise ZeroDivisionError else Ok (PyFloat (fa / fb)%float)) = Ok v ->
            py_eq v (PyInt 0) = true).
  { intros fa fb Ha Hb. destruct (is_zero fb) eqn:Hz; [discriminate|]. intros [= <-].
    destruct (SFdiv_zero_l (Prim2SF fb) Hb) as (s & Hs).
    - intros s E. apply is_zero_Prim2SF in E. congruence.
    - apply (py_eq_zero_float _ s). rewrite div_spec, Ha. exact Hs. }
  assert (Hz0 : py_float (PyInt 0) = Ok zero) by (vm_compute; reflexivity).
  assert (Hz : Prim2SF zero = S754_zero false) by (vm_compute; reflexivity).
  destruct Hnum as [->|(g & -> & Hg)]; destruct den as [dz|dg].
  - cbn [py_truediv]. unfold int_truediv. destruct (dz =? 0); [discriminate|].
    cbn. destruct (dz <? 0); intros [= <-]; vm_compute; reflexivity.
  - unfold py_truediv. rewrite Hz0. cbn [rbind py_float]. now apply Hfloat.
  - unfold py_truediv. cbn [py_float rbind]. unfold int_to_float.
    destruct (is_infinity (Z2F dz)); [discriminate|]. cbn [rbind].
    apply Hfloat; [assumption | apply Prim2SF_Z2F_not_nan].
  - unfold py_truediv. cbn [py_float rbind]. now apply Hfloat.
Qed.


(* ===================================================================== *)
(** * Properties of the pipeline session manager                          *)
(* ===================================================================== *)

Lemma shrinks_refl s : shrinks s s.
Proof. unfold shrinks. repeat split; auto using incl_refl. Qed.

Lemma shrinks_trans s0 s1 s2 : shrinks s0 s1 -> shrinks s1 s2 -> shrinks s0 s2.
Proof.
  unfold shrinks. intros (a1 & a2 & a3 & a4 & a5 & a6) (b1 & b2 & b3 & b4 & b5 & b6).
  repeat split; try (eapply incl_tran; eassumption); try lia; congruence.
Qed.

Lemma stops_only_refl w : stops_only w w.
Proof.
  split; [apply shrinks_refl|]. split.
  - now exists [].
  - exists []. split; [reflexivity | constructor].
Qed.

Lemma stops_only_trans w0 w1 w2 : stops_only w0 w1 -> stops_only w1 w2 -> stops_only w0 w2.
Proof.
  intros (S1 & (e1 & L1 & F1) & (m1 & P1 & M1)) (S2 & (e2 & L2 & F2) & (m2 & P2 & M2)).
  split; [eapply shrinks_trans; eassumption|]. split.
  - exists (e2 ++ e1). rewrite L2, L1, app_assoc. split; [reflexivity|].
    rewrite forallb_app. now rewrite F1, F2.
  - exists (m2 ++ m1). rewrite P2, P1, app_assoc. split; [reflexivity|].
    apply Forall_app. split; [|assumption].
    eapply Forall_impl; [|exact M2]. intros s Hs. eapply shrinks_trans; eassumption.
Qed.

Lemma dict_get_remove_absent k d : dict_get k d = None -> dict_remove k d = d.
Proof.
  induction d as [|[k' v] r IH]; simpl; auto.
  destruct (String.eqb k k'); [discriminate|]. intros H. now rewrite IH.
Qed.

Lemma dict_remove_incl k d : incl (dict_remove k d) d.
Proof.
  induction d as [|[k' v] r IH]; simpl; [apply incl_refl|].
  destruct (String.eqb k k').
  - now apply incl_tl.
  - apply incl_cons; [now left|]. now apply incl_tl.
Qed.

Lemma dict_remove_length k d : (List.length (dict_remove k d) <= List.length d)%nat.
Proof.
  induction d as [|[k' v] r IH]; simpl; [lia|].
  destruct (String.eqb k k'); simpl; lia.
Qed.

Lemma remove_handle_incl h l : incl (remove_handle h l) l.
Proof. unfold remove_handle. apply incl_filter. Qed.

Lemma remove_handle_length h l : (List.length (remove_handle h l) <= List.length l)%nat.
Proof. unfold remove_handle. apply filter_length_le. Qed.

Lemma remove_handle_not_in h l : ~ In h (remove_handle h l).
Proof.
  unfold remove_handle. rewrite filter_In. intros [_ H].
  now rewrite Nat.eqb_refl in H.
Qed.

Section Pipeline.
Variable E : env.

Lemma stop_absent protocol w :
  dict_get protocol (PIPELINES (now w)) = None ->
  _stop_pipeline E protocol w = (Ok tt, w).
Proof.
  intros H. unfold _stop_pipeline, PIPELINES_pop, bind, gets. now rewrite H.
Qed.

(** What one [_stop_pipeline] does. *)
Lemma stop_pipeline_spec protocol w :
  exists w', _stop_pipeline E protocol w = (Ok tt, w') /\
    stops_only w w' /\
    PIPELINES (now w') = dict_remove protocol (PIPELINES (now w)) /\
    (forall h, dict_get protocol (PIPELINES (now w)) = Some h -> ~ In h (live (now w'))) /\
    (dict_get protocol (PIPELINES (now w)) = None -> w' = w).
Proof.
  destruct (dict_get protocol (PIPELINES (now w))) as [h|] eqn:G.
  2:{ exists w. rewrite stop_absent by assumption. split; [reflexivity|].
      split; [apply stops_only_refl|]. split; [now rewrite dict_get_remove_absent|].
      split; [discriminate | reflexivity]. }
  unfold _stop_pipeline, PIPELINES_pop, poll_is_None, wait_5, exits, bind, gets, step_to, emit, ret.
  rewrite G. cbn [now past log PIPELINES live next_handle CAM_POWER].
  destruct (existsb (Nat.eqb h) (live (now w))) eqn:L.
  - destruct (graceful E h); cbn [now past log PIPELINES live next_handle CAM_POWER fst snd].
    + eexists. split; [reflexivity|]. cbn. split; [|split; [reflexivity|split]].
      * split; [|split].
        -- unfold shrinks; cbn. repeat split; auto using dict_remove_incl, remove_handle_incl, dict_remove_length, remove_handle_length.
        -- exists [Sigint h]. now split.
        -- eexists [_; _]. split; [reflexivity|].
           repeat constructor; cbn; auto using dict_remove_incl, incl_refl, dict_remove_length.
      * intros h' [= <-]. apply remove_handle_not_in.
      * discriminate.
    + eexists. split; [reflexivity|]. cbn. split; [|split; [reflexivity|split]].
      * split; [|split].
        -- unfold shrinks; cbn. repeat split; auto using dict_remove_incl, remove_handle_incl, dict_remove_length, remove_handle_length.
        -- exists [Kill h; Sigint h]. now split.
        -- eexists [_; _]. split; [reflexivity|].
           repeat constructor; cbn; auto using dict_remove_incl, incl_refl, dict_remove_length.
      * intros h' [= <-]. apply remove_handle_not_in.
      * discriminate.
  - eexists. split; [reflexivity|]. cbn. split; [|split; [reflexivity|split]].
    + split; [|split].
      * unfold shrinks; cbn. repeat split; auto using dict_remove_incl, incl_refl, dict_remove_length.
      * now exists [].
      * eexists [_]. split; [reflexivity|]. repeat constructor; cbn; auto using incl_refl.
    + intros h' [= <-] Hin.
      assert (existsb (Nat.eqb h) (live (now w)) = true); [|congruence].
      apply existsb_exists. exists h. split; [assumption | apply Nat.eqb_refl].
    + discriminate.
Qed.

Lemma stop_each_spec protos : forall w,
  exists w', stop_each E protos w = (Ok tt, w') /\
    stops_only w w' /\
    PIPELINES (now w') = fold_left (fun d p => dict_remove p d) protos (PIPELINES (now w)) /\
    (forall p h, protos = [p] -> dict_get p (PIPELINES (now w)) = Some h -> ~ In h (live (now w'))) /\
    (PIPELINES (now w) = [] -> w' = w).
Proof.
  induction protos as [|p r IH]; intros w.
  - exists w. cbn. split; [reflexivity|]. split; [apply stops_only_refl|].
    split; [reflexivity|]. split; [discriminate | reflexivity].
  - destruct (stop_pipeline_spec p w) as (w1 & R1 & S1 & D1 & K1 & A1).
    destruct (IH w1) as (w2 & R2 & S2 & D2 & K2 & A2).
    exists w2. cbn [stop_each]. unfold bind. rewrite R1, R2.
    split; [reflexivity|]. split; [eapply stops_only_trans; eassumption|].
    split; [cbn; now rewrite D2, D1|]. split.
    + intros p' h [= -> ->] G. cbn in R2. injection R2 as <-. now apply K1.
    + intros Hempty. assert (w1 = w) as -> by (apply A1; now rewrite Hempty).
      now apply A2.
Qed.

Lemma remove_all_keys d : forall d0,
  (forall k v, In (k, v) d0 -> In k (dict_keys d)) ->
  fold_left (fun d p => dict_remove p d) (dict_keys d) d0 = [].
Proof.
  induction d as [|[k v] r IH]; intros d0 H; cbn.
  - destruct d0 as [|[k v] d0]; [reflexivity|]. destruct (H k v). now left.
  - apply IH. intros k' v' Hin.
    assert (Hin0 : In (k', v') d0) by (eapply dict_remove_incl; eassumption).
    destruct (H _ _ Hin0) as [<-|Hr]; [|assumption].
    exfalso. clear - Hin. induction d0 as [|[k2 v2] d0 IH]; cbn in Hin; [assumption|].
    destruct (String.eqb k k2) eqn:Ek; [auto|].
    destruct Hin as [[= -> ->]|Hin]; [|auto].
    now rewrite String.eqb_refl in Ek.
Qed.

Lemma stop_all_spec w :
  exists w', stop_all E w = (Ok tt, w') /\
    stops_only w w' /\
    PIPELINES (now w') = [] /\
    (settled (now w) -> live (now w') = []) /\
    (PIPELINES (now w) = [] -> w' = w).
Proof.
  destruct (stop_each_spec (dict_keys (PIPELINES (now w))) w) as (w' & R & S & D & K & A).
  exists w'. unfold stop_all, bind, gets. split; [exact R|]. split; [exact S|].
  split; [|split; [|exact A]].
  - rewrite D. apply remove_all_keys. intros k v Hin. unfold dict_keys.
    change k with (fst (k, v)). now apply in_map.
  - intros [[L1 L2] [Hreg _]].
    destruct (live (now w')) as [|h l] eqn:Hl; [reflexivity|exfalso].
    destruct S as ((_ & Hincl & _) & _).
    assert (Hh : In h (live (now w))) by (apply Hincl; rewrite Hl; now left).
    destruct (Hreg h Hh) as (p & Hp).
    destruct (PIPELINES (now w)) as [|[p0 h0] [|]] eqn:Hd; cbn in L1; try lia; [destruct Hp|].
    destruct Hp as [[= -> ->]|[]].
    apply (K p h eq_refl).
    + cbn. now rewrite String.eqb_refl.
    + now left.
Qed.

(** Command synthesis: it fails exactly on [fails_validation], never
    changes the state, and emits at most the clearing of the HLS
    directory. *)
Lemma make_gst_pipeline_spec protocol view url w :
  (fails_validation E protocol url = true /\
   exists msg, _make_gst_pipeline E protocol view url w = (Raise (ValueError msg), w)) \/
  (fails_validation E protocol url = false /\
   exists cmd evs, (evs = [] \/ evs = [ClearHlsDir]) /\
     _make_gst_pipeline E protocol view url w =
       (Ok cmd, mkWorld (now w) (past w) (evs ++ log w))).
Proof.
  unfold _make_gst_pipeline, fails_validation. destruct w as [s p l].
  destruct (String.eqb protocol "udp").
  - destruct (match_udp_url (decimal E) url) as [[host port]|].
    + right. split; [reflexivity|]. eexists _, []. split; [now left | reflexivity].
    + left. split; [reflexivity|]. eexists. reflexivity.
  - destruct (String.eqb protocol "hls").
    + right. split; [reflexivity|]. eexists _, [ClearHlsDir]. split; [now right | reflexivity].
    + destruct (String.eqb protocol "rtsp").
      * right. split; [reflexivity|]. eexists _, []. split; [now left | reflexivity].
      * left. split; [reflexivity|]. eexists. reflexivity.
Qed.

Lemma start_noop protocol view url w :
  dict_contains protocol (PIPELINES (now w)) = true ->
  _start_pipeline E protocol view url w = (Ok tt, w).
Proof. intros H. unfold _start_pipeline, bind, gets. now rewrite H. Qed.

Lemma start_rejected protocol view url w :
  dict_contains protocol (PIPELINES (now w)) = false ->
  fails_validation E protocol url = true ->
  exists msg w', _start_pipeline E protocol view url w = (Raise (ValueError msg), w') /\
    stops_only w w' /\ PIPELINES (now w') = [] /\
    (settled (now w) -> live (now w') = []) /\
    (PIPELINES (now w) = [] -> w' = w).
Proof.
  intros Hc Hf. destruct (stop_all_spec w) as (w1 & R & S & D & L & A).
  destruct (make_gst_pipeline_spec protocol view url w1) as [(_ & msg & R1)|(Hf' & _)];
    [|congruence].
  exists msg, w1. unfold _start_pipeline, bind, gets. rewrite Hc.
  cbn [now]. rewrite R, R1. auto.
Qed.

(** The state after a start that goes through: the new process is the
    only registered one. *)
Lemma start_spawns protocol view url w :
  dict_contains protocol (PIPELINES (now w)) = false ->
  fails_validation E protocol url = false ->
  exists cmd w1,
    stop_all E w = (Ok tt, w1) /\
    let h := next_handle (now w1) in
    let spawned := mkState [] (h :: live (now w1)) (S h) (CAM_POWER (now w1)) in
    exists evs, (evs = [] \/ evs = [ClearHlsDir]) /\
    _start_pipeline E protocol view url w =
      if popen_ok E cmd then
        (Ok tt, mkWorld (mkState [(protocol, h)] (h :: live (now w1)) (S h) (CAM_POWER (now w1)))
                        (spawned :: now w1 :: past w1)
                        (Spawn cmd h :: evs ++ log w1))
      else (Raise OSError, mkWorld (now w1) (past w1) (evs ++ log w1)).
Proof.
  intros Hc Hf. destruct (stop_all_spec w) as (w1 & R & S & D & L & A).
  destruct (make_gst_pipeline_spec protocol view url w1)
    as [(Hf' & _)|(_ & cmd & evs & Hevs & R1)]; [congruence|].
  exists cmd, w1. split; [exact R|]. cbn zeta. exists evs. split; [exact Hevs|].
  unfold _start_pipeline, bind, gets. rewrite Hc. cbn [now]. rewrite R, R1.
  unfold Popen, PIPELINES_set, bind, gets, step_to, raise, ret.
  destruct (popen_ok E cmd); cbn; [|reflexivity]. now rewrite D.
Qed.

Lemma at_most_one_shrinks s0 s : at_most_one s0 -> shrinks s0 s -> at_most_one s.
Proof. unfold at_most_one, shrinks. intros [] (_ & _ & ? & ? & _). lia. Qed.

Lemma stops_only_at_most_one w w' :
  single_stream w -> stops_only w w' ->
  at_most_one (now w') /\ Forall at_most_one (past w').
Proof.
  intros [[A _] P] (S & _ & mid & -> & M). split.
  - eapply at_most_one_shrinks; eassumption.
  - apply Forall_app. split; [|assumption].
    eapply Forall_impl; [|exact M]. intros s. now apply at_most_one_shrinks.
Qed.

Lemma settled_nil s : PIPELINES s = [] -> live s = [] -> settled s.
Proof.
  intros H1 H2. unfold settled, at_most_one. rewrite H1, H2. cbn.
  split; [split; lia|]. split; [intros h [] | intros p h []].
Qed.

Lemma stop_pipeline_single_stream protocol w :
  single_stream w -> single_stream (snd (_stop_pipeline E protocol w)).
Proof.
  intros H. destruct (stop_pipeline_spec protocol w) as (w' & R & S & D & K & A).
  rewrite R. cbn [snd].
  destruct (stops_only_at_most_one _ _ H S) as [A1 P1].
  pose proof H as [[[L1 L2] [Hreg Hfr]] P].
  destruct (PIPELINES (now w)) as [|[p0 h0] [|]] eqn:Hd; cbn in L1; try lia.
  { now rewrite A. }
  cbn in K, A, D. destruct (String.eqb protocol p0) eqn:Ep.
  2:{ now rewrite A. }
  split; [|assumption]. apply settled_nil; [assumption|].
  destruct (live (now w')) as [|h1 l] eqn:Hl; [reflexivity|exfalso].
  destruct S as ((_ & Hincl & _) & _).
  assert (Hh : In h1 (live (now w))) by (apply Hincl; rewrite Hl; now left).
  destruct (Hreg h1 Hh) as (p & [[= -> ->]|[]]).
  apply (K h1 eq_refl). now left.
Qed.

Lemma stop_all_single_stream w :
  single_stream w -> single_stream (snd (stop_all E w)).
Proof.
  intros H. destruct (stop_all_spec w) as (w' & R & S & D & L & A).
  rewrite R. cbn [snd]. destruct (stops_only_at_most_one _ _ H S) as [A1 P1].
  split; [|assumption]. apply settled_nil; [assumption|]. apply L, H.
Qed.

Lemma start_pipeline_single_stream protocol view url w :
  single_stream w -> single_stream (snd (_start_pipeline E protocol view url w)).
Proof.
  intros H. destruct (dict_contains protocol (PIPELINES (now w))) eqn:Hc.
  { now rewrite start_noop. }
  destruct (fails_validation E protocol url) eqn:Hf.
  { destruct (start_rejected protocol view url w Hc Hf) as (msg & w' & R & S & D & L & A).
    rewrite R. cbn [snd]. destruct (stops_only_at_most_one _ _ H S) as [A1 P1].
    split; [|assumption]. apply settled_nil; [assumption|]. apply L, H. }
  destruct (start_spawns protocol view url w Hc Hf) as (cmd & w1 & R & evs & _ & R').
  cbn zeta in R'. rewrite R'.
  pose proof (stop_all_single_stream w H) as H1. rewrite R in H1. cbn [snd] in H1.
  destruct (stop_all_spec w) as (w1' & Rs & S & D & L & A).
  rewrite R in Rs. injection Rs as <-.
  specialize (L (proj1 H)). destruct H1 as [[A1 _] P1].
  destruct (popen_ok E cmd); cbn [snd]; split; cbn [now past].
  - rewrite L. split; [split; cbn; lia|]. split.
    + intros h [<-|[]]. eexists. now left.
    + intros p h [[= <- <-]|[]]. cbn. lia.
  - constructor; [rewrite L; split; cbn; lia|]. constructor; assumption.
  - apply settled_nil; assumption.
  - assumption.
Qed.

Lemma exits_single_stream h evs w :
  single_stream w -> single_stream (snd (exits h evs w)).
Proof.
  intros [[[L1 L2] [Hreg Hfr]] P]. unfold exits, bind, gets, step_to. cbn.
  split; [split; [split|split]|]; cbn.
  - assumption.
  - pose proof (remove_handle_length h (live (now w))). lia.
  - intros h' Hin. apply Hreg. eapply remove_handle_incl; eassumption.
  - assumption.
  - constructor; [split|]; assumption.
Qed.

Lemma serve_single_stream r w :
  single_stream w -> single_stream (snd (serve E r w)).
Proof.
  intros H. unfold serve. destruct r as [host p|host p on view url|on].
  - unfold stream_control_GET, bind, gets, poll_is_None, ret.
    destruct (dict_get (lower p) (PIPELINES (now w))); cbn;
      repeat match goal with |- context [if ?b then _ else _] => destruct b end; exact H.
  - unfold stream_control_POST. destruct on.
    + pose proof (start_pipeline_single_stream (lower p) view url w H) as H1.
      destruct (_start_pipeline E (lower p) view url w) as [[u|e] w1]; cbn [snd] in H1.
      * repeat match goal with |- context [if ?b then _ else _] => destruct b end; exact H1.
      * destruct e; exact H1.
    + pose proof (stop_pipeline_single_stream (lower p) w H) as H1.
      destruct (_stop_pipeline E (lower p) w) as [[u|e] w1]; cbn [snd] in H1.
      * repeat match goal with |- context [if ?b then _ else _] => destruct b end; exact H1.
      * destruct e; exact H1.
  - unfold camera_power_POST, bind, gets.
    assert (Hw : forall w1, single_stream w1 ->
              single_stream (snd (let '(res, w2) :=
                  match CAM_POWER_write on w1 with
                  | (Ok a, w2) =>
                      match (if (CAM_POWER (now w) && negb on)%bool
                             then emit [GpioWrite HUB_GPIO_PIN true; GpioWrite HUB_GPIO_PIN false]
                             else ret tt) w2 with
                      | (Ok a0, w3) =>
                          ret (jsonify [("status"%string, JStr "ok"); ("on"%string, JBool on)]) w3
                      | (Raise e, w3) => (Raise e, w3)
                      end
                  | (Raise e, w2) => (Raise e, w2)
                  end in (try_except res (fun _ => internal_server_error), w2)))).
    { intros w1 [[A1 [R1 F1]] P1]. unfold CAM_POWER_write, bind, gets, step_to, emit, ret.
      destruct (CAM_POWER (now w) && negb on)%bool; cbn;
        (split; [split; [|split]|constructor]; assumption). }
    destruct (CAM_POWER (now w) && negb on)%bool eqn:Hb.
    + pose proof (stop_all_single_stream w H) as H1.
      destruct (stop_all_spec w) as (w1 & R & _). rewrite R in *. cbn [snd] in H1.
      apply (Hw w1 H1).
    + apply (Hw w H).
Qed.

End Pipeline.

Lemma boot_single_stream pwr : single_stream (boot pwr).
Proof. split; [apply settled_nil; reflexivity | constructor]. Qed.

Lemma reachable_single_stream w : reachable w -> single_stream w.
Proof.
  induction 1 as [pwr|w w' _ IH T]; [apply boot_single_stream|].
  destruct T as [E r|h Hin].
  - now apply serve_single_stream.
  - now apply exits_single_stream.
Qed.

Lemma hls_running_reachable : reachable hls_running.
Proof. unfold hls_running. eapply reach_step; [apply reach_boot | apply t_request]. Qed.

(** C1 as stated does not hold.  With an HLS session running, a start of
    ["udp"] whose target is a host name fails validation and is answered
    with status 400, yet the HLS session has been taken out of the registry
    and its process has been sent SIGINT: the running sessions after the
    rejected start are not those before it. *)
Lemma invalid_start_stops_running_stream :
  fails_validation always_graceful "udp" (codes "udp://camera:5000") = true /\
  dict_keys (PIPELINES (now hls_running)) = ["hls"%string] /\
  live (now hls_running) = [0%nat] /\
  let '(resp, w') :=
    serve always_graceful (StreamPost "cam" "udp" true "yolo" (codes "udp://camera:5000")) hls_running in
  code resp = 400 /\
  dict_keys (PIPELINES (now w')) = [] /\
  live (now w') = [] /\
  log w' = Sigint 0%nat :: log hls_running.
Proof. vm_compute. repeat split. Qed.

Lemma dict_get_remove_other k p d : k <> p -> dict_get k (dict_remove p d) = dict_get k d.
Proof.
  intros Hk. induction d as [|[k' v] r IH]; cbn; [reflexivity|].
  destruct (String.eqb_spec p k') as [<-|Hp]; cbn.
  - destruct (String.eqb_spec k p); [contradiction | exact IH].
  - now rewrite IH.
Qed.

Lemma dict_get_in_keys k d h : dict_get k d = Some h -> In k (dict_keys d).
Proof.
  induction d as [|[k' v] r IH]; cbn; [discriminate|].
  destruct (String.eqb_spec k k') as [->|_]; [now left | right; auto].
Qed.

(** What one [_stop_pipeline] sends: a process leaves the live ones only
    after a SIGINT, and the process of the protocol is not live any more. *)
Lemma stop_pipeline_signals E protocol w :
  exists w' evs,
    _stop_pipeline E protocol w = (Ok tt, w') /\
    log w' = evs ++ log w /\
    (forall h, In h (live (now w)) -> In h (live (now w')) \/ In (Sigint h) evs) /\
    (forall h, dict_get protocol (PIPELINES (now w)) = Some h -> ~ In h (live (now w'))) /\
    incl (live (now w')) (live (now w)) /\
    PIPELINES (now w') = dict_remove protocol (PIPELINES (now w)).
Proof.
  destruct (dict_get protocol (PIPELINES (now w))) as [h|] eqn:G.
  2:{ exists w, []. rewrite (stop_absent E) by assumption.
      split; [reflexivity|]. split; [reflexivity|]. split; [auto|].
      split; [discriminate|]. split; [apply incl_refl|].
      now rewrite dict_get_remove_absent. }
  assert (Hkeep : forall h0, In h0 (live (now w)) -> h0 <> h ->
            In h0 (remove_handle h (live (now w)))).
  { intros h0 Hin Hne. unfold remove_handle. apply filter_In. split; [assumption|].
    apply negb_true_iff, Nat.eqb_neq. congruence. }
  unfold _stop_pipeline, PIPELINES_pop, poll_is_None, wait_5, exits, bind, gets, step_to, emit, ret.
  rewrite G. cbn [now past log PIPELINES live next_handle CAM_POWER].
  destruct (existsb (Nat.eqb h) (live (now w))) eqn:L.
  - destruct (graceful E h); cbn [now past log PIPELINES live next_handle CAM_POWER fst snd].
    + eexists _, [Sigint h]. split; [reflexivity|]. cbn. split; [reflexivity|].
      split; [|split; [|split; [apply remove_handle_incl | reflexivity]]].
      * intros h0 Hin. destruct (Nat.eq_dec h0 h) as [->|Hne]; [right; now left | left; auto].
      * intros h' [= <-]. apply remove_handle_not_in.
    + eexists _, [Kill h; Sigint h]. split; [reflexivity|]. cbn. split; [reflexivity|].
      split; [|split; [|split; [apply remove_handle_incl | reflexivity]]].
      * intros h0 Hin. destruct (Nat.eq_dec h0 h) as [->|Hne]; [right; right; now left | left; auto].
      * intros h' [= <-]. apply remove_handle_not_in.
  - assert (Hnot : ~ In h (live (now w))).
    { intros Hin. assert (existsb (Nat.eqb h) (live (now w)) = true); [|congruence].
      apply existsb_exists. exists h. split; [assumption | apply Nat.eqb_refl]. }
    exists (mkWorld (mkState (dict_remove protocol (PIPELINES (now w))) (live (now w))
                       (next_handle (now w)) (CAM_POWER (now w)))
                    (now w :: past w) (log w)), [].
    split; [reflexivity|]. cbn. split; [reflexivity|]. split; [auto|].
    split; [now intros h' [= <-]|]. split; [apply incl_refl | reflexivity].
Qed.

Lemma stop_each_signals E protos : forall w,
  exists w' evs,
    stop_each E protos w = (Ok tt, w') /\
    log w' = evs ++ log w /\
    (forall h, In h (live (now w)) -> In h (live (now w')) \/ In (Sigint h) evs) /\
    (forall p h, In p protos -> dict_get p (PIPELINES (now w)) = Some h ->
       ~ In h (live (now w'))) /\
    incl (live (now w')) (live (now w)).
Proof.
  induction protos as [|p r IH]; intros w.
  - exists w, []. cbn. split; [reflexivity|]. split; [reflexivity|]. split; [auto|].
    split; [intros p h [] | apply incl_refl].
  - destruct (stop_pipeline_signals E p w) as (w1 & e1 & R1 & L1 & S1 & K1 & I1 & D1).
    destruct (IH w1) as (w2 & e2 & R2 & L2 & S2 & K2 & I2).
    exists w2, (e2 ++ e1). cbn [stop_each]. unfold bind. rewrite R1, R2.
    split; [reflexivity|]. split; [now rewrite L2, L1, app_assoc|]. split; [|split].
    + intros h Hin. destruct (S1 h Hin) as [H1|H1].
      * destruct (S2 h H1) as [H2|H2]; [now left | right; apply in_or_app; now left].
      * right. apply in_or_app. now right.
    + intros p' h Hin G Hlive. destruct (String.eqb_spec p' p) as [->|Hne].
      * apply (K1 h G). now apply I2.
      * destruct Hin as [Heq|Hin]; [congruence|].
        apply (K2 p' h Hin); [|assumption]. rewrite D1. now rewrite dict_get_remove_other.
    + eapply incl_tran; eassumption.
Qed.

(** A start that fails validation ends where the stopping of the other
    sessions ended. *)
Lemma start_rejected_run E protocol view url w :
  dict_contains protocol (PIPELINES (now w)) = false ->
  fails_validation E protocol url = true ->
  exists msg w',
    stop_all E w = (Ok tt, w') /\
    _start_pipeline E protocol view url w = (Raise (ValueError msg), w').
Proof.
  intros Hc Hf. destruct (stop_all_spec E w) as (w1 & R & _).
  destruct (make_gst_pipeline_spec E protocol view url w1) as [(_ & msg & R1)|(Hf' & _)];
    [|congruence].
  exists msg, w1. split; [exact R|].
  unfold _start_pipeline, bind, gets. rewrite Hc. cbn [now]. now rewrite R, R1.
Qed.

(** C1, amended.  A start request that fails validation, for a protocol
    that is not already registered, is answered with status 400 and the
    error message; no process is spawned and the protocol is not
    registered; the sessions of the other protocols have been stopped
    first: every registered process that had not exited was sent SIGINT
    and has exited when the answer is given, the registry is empty and
    only stop commands were sent; when no session was registered nothing
    at all is changed. *)
Theorem invalid_start_rejected_before_spawn :
  forall (E : env) (host protocol view : string) (url : text) (w : world),
    fails_validation E (lower protocol) url = true ->
    dict_contains (lower protocol) (PIPELINES (now w)) = false ->
    exists msg w',
      serve E (StreamPost host protocol true view url) w =
        (mkResponse 400 [("error"%string, JStr msg)], w') /\
      PIPELINES (now w') = [] /\
      next_handle (now w') = next_handle (now w) /\
      (exists evs, log w' = evs ++ log w /\ forallb is_stop evs = true /\
         forall p h, dict_get p (PIPELINES (now w)) = Some h -> In h (live (now w)) ->
           In (Sigint h) evs) /\
      (forall p h, dict_get p (PIPELINES (now w)) = Some h -> ~ In h (live (now w'))) /\
      (PIPELINES (now w) = [] -> w' = w).
Proof.
  intros E host protocol view url w Hf Hc.
  destruct (start_rejected_run E (lower protocol) view url w Hc Hf) as (msg & w' & Rs & R).
  destruct (stop_all_spec E w) as (w1 & Rs' & ((_ & _ & _ & _ & Hn & _) & (evs & Hlog & Hstop) & _)
                                      & D & _ & A).
  rewrite Rs in Rs'. injection Rs' as <-.
  destruct (stop_each_signals E (dict_keys (PIPELINES (now w))) w)
    as (w2 & evs' & R2 & Hlog' & Hsig & Hdead & _).
  unfold stop_all, bind, gets in Rs. cbn [now] in Rs. rewrite R2 in Rs. injection Rs as ->.
  assert (evs' = evs) as -> by (rewrite Hlog' in Hlog; now apply app_inv_tail in Hlog).
  exists msg, w'. unfold serve, stream_control_POST. rewrite R. cbn.
  split; [reflexivity|]. split; [exact D|]. split; [exact Hn|]. split; [|split; [|exact A]].
  - exists evs. split; [exact Hlog|]. split; [exact Hstop|].
    intros p h G Hlive. destruct (Hsig h Hlive) as [Hin|Hin]; [|exact Hin].
    exfalso. apply (Hdead p h); [eapply dict_get_in_keys; eassumption | assumption | assumption].
  - intros p h G. apply (Hdead p h); [eapply dict_get_in_keys; eassumption | assumption].
Qed.

Lemma invalid_start_rejected_before_spawn_witness :
  fails_validation always_graceful (lower "UDP") (codes "udp://camera:5000") = true /\
  dict_contains (lower "UDP") (PIPELINES (now hls_running)) = false /\
  exists msg w',
    serve always_graceful (StreamPost "cam" "UDP" true "yolo" (codes "udp://camera:5000")) hls_running =
      (mkResponse 400 [("error"%string, JStr msg)], w') /\
    PIPELINES (now w') = [] /\
    next_handle (now w') = next_handle (now hls_running) /\
    (exists evs, log w' = evs ++ log hls_running /\ forallb is_stop evs = true /\
       forall p h, dict_get p (PIPELINES (now hls_running)) = Some h ->
         In h (live (now hls_running)) -> In (Sigint h) evs) /\
    (forall p h, dict_get p (PIPELINES (now hls_running)) = Some h -> ~ In h (live (now w'))) /\
    (PIPELINES (now hls_running) = [] -> w' = hls_running).
Proof.
  split; [reflexivity|]. split; [reflexivity|].
  apply (invalid_start_rejected_before_spawn always_graceful "cam" "UDP" "yolo"
           (codes "udp://camera:5000") hls_running); reflexivity.
Defined.

Lemma dict_contains_single p d :
  (List.length d <= 1)%nat -> dict_contains p d = true -> exists h, d = [(p, h)].
Proof.
  destruct d as [|[k h] [|]]; cbn; try lia; intros _; unfold dict_contains; cbn;
    try (intros H; discriminate H).
  destruct (String.eqb p k) eqn:Ek; [|intros H; discriminate H].
  apply String.eqb_eq in Ek as ->. now exists h.
Qed.

(** C6.  A start of a protocol that is already registered changes nothing,
    whatever its parameters: the world after it is the world before it (so
    no process is spawned and none is stopped), the answer is 200, and the
    registry still holds exactly the one entry of that protocol. *)
Theorem start_running_protocol_is_noop :
  forall (E : env) (host P view : string) (url : text) (w : world),
    reachable w ->
    dict_contains (lower P) (PIPELINES (now w)) = true ->
    _start_pipeline E (lower P) view url w = (Ok tt, w) /\
    snd (serve E (StreamPost host P true view url) w) = w /\
    code (fst (serve E (StreamPost host P true view url) w)) = 200 /\
    exists h, PIPELINES (now w) = [(lower P, h)].
Proof.
  intros E host P view url w Hr Hc.
  pose proof (start_noop E (lower P) view url w Hc) as R.
  split; [exact R|]. unfold serve, stream_control_POST. rewrite R.
  split; [|split].
  - repeat match goal with |- context [if ?b then _ else _] => destruct b end; reflexivity.
  - repeat match goal with |- context [if ?b then _ else _] => destruct b end; reflexivity.
  - apply dict_contains_single; [|assumption].
    apply (reachable_single_stream w Hr).
Qed.

Lemma start_running_protocol_is_noop_witness :
  reachable hls_running /\
  dict_contains (lower "HLS") (PIPELINES (now hls_running)) = true /\
  (_start_pipeline always_graceful (lower "HLS") "pure" (codes "x") hls_running = (Ok tt, hls_running) /\
   snd (serve always_graceful (StreamPost "cam" "HLS" true "pure" (codes "x")) hls_running) = hls_running /\
   code (fst (serve always_graceful (StreamPost "cam" "HLS" true "pure" (codes "x")) hls_running)) = 200 /\
   exists h, PIPELINES (now hls_running) = [(lower "HLS", h)]).
Proof.
  split; [apply hls_running_reachable|]. split; [reflexivity|].
  apply (start_running_protocol_is_noop always_graceful "cam" "HLS" "pure" (codes "x") hls_running);
    [apply hls_running_reachable | reflexivity].
Defined.

Lemma stop_all_one E A hA w w1 :
  PIPELINES (now w) = [(A, hA)] ->
  stop_all E w = (Ok tt, w1) ->
  log w1 =
    (if existsb (Nat.eqb hA) (live (now w))
     then if graceful E hA then [Sigint hA] else [Kill hA; Sigint hA]
     else []) ++ log w.
Proof.
  intros Hd. unfold stop_all, bind, gets. rewrite Hd. cbn [dict_keys map fst stop_each].
  unfold _stop_pipeline, PIPELINES_pop, poll_is_None, wait_5, exits, bind, gets, step_to, emit, ret.
  rewrite Hd. cbn [dict_get]. rewrite String.eqb_refl.
  cbn [now past log PIPELINES live next_handle CAM_POWER].
  destruct (existsb (Nat.eqb hA) (live (now w))); [destruct (graceful E hA)|];
    cbn; intros [= <-]; reflexivity.
Qed.

(** C2.  In a reachable state whose registry holds protocol [A] alone, a
    start of another protocol [B] that goes through leaves [B] as the only
    entry and the only running protocol; the process of [A] is no longer
    alive, and if it was alive it was sent SIGINT before the new process
    was spawned.  Every state passed through, those inside the start
    included, has at most one registry entry and at most one live
    process. *)
Theorem start_switches_protocol :
  forall (E : env) (A B view : string) (url : text) (hA : handle) (w w' : world),
    reachable w ->
    PIPELINES (now w) = [(A, hA)] ->
    B <> A ->
    _start_pipeline E B view url w = (Ok tt, w') ->
    (exists hB cmd evs,
        PIPELINES (now w') = [(B, hB)] /\ live (now w') = [hB] /\
        log w' = Spawn cmd hB :: evs ++ log w /\
        forallb (fun e => match e with Spawn _ _ => false | _ => true end) evs = true /\
        (In hA (live (now w)) -> In (Sigint hA) evs)) /\
    running_protocols (now w') = [B] /\
    ~ In hA (live (now w')) /\
    Forall at_most_one (now w' :: past w').
Proof.
  intros E A B view url hA w w' Hr Hd HBA R.
  pose proof (reachable_single_stream w Hr) as H.
  assert (Hc : dict_contains B (PIPELINES (now w)) = false).
  { rewrite Hd. unfold dict_contains. cbn.
    destruct (String.eqb B A) eqn:Eb; [|reflexivity]. now apply String.eqb_eq in Eb. }
  destruct (fails_validation E B url) eqn:Hf.
  { destruct (start_rejected E B view url w Hc Hf) as (msg & w1 & R1 & _). congruence. }
  destruct (start_spawns E B view url w Hc Hf) as (cmd & w1 & Rs & evs & Hevs & R').
  cbn zeta in R'. rewrite R' in R.
  destruct (stop_all_spec E w) as (w1' & Rs' & S & D & L & _).
  rewrite Rs in Rs'. injection Rs' as <-. specialize (L (proj1 H)).
  pose proof (stop_all_one E A hA w w1 Hd Rs) as Hlog.
  destruct (popen_ok E cmd); [|discriminate]. injection R as <-. cbn [now past log].
  rewrite L in *.
  split; [|split; [|split]].
  - eexists (next_handle (now w1)), cmd, (evs ++ _). cbn.
    split; [reflexivity|]. split; [reflexivity|]. split; [|split].
    + rewrite Hlog, app_assoc. reflexivity.
    + rewrite forallb_app. apply andb_true_intro. split.
      * destruct Hevs as [-> | ->]; reflexivity.
      * destruct (existsb (Nat.eqb hA) (live (now w))); [destruct (graceful E hA)|]; reflexivity.
    + intros Hin. apply in_or_app. right.
      assert (Hex : existsb (Nat.eqb hA) (live (now w)) = true).
      { apply existsb_exists. exists hA. split; [assumption | apply Nat.eqb_refl]. }
      rewrite Hex. destruct (graceful E hA); cbn; auto.
  - unfold running_protocols. cbn. now rewrite Nat.eqb_refl.
  - cbn. intros [Heq|[]].
    destruct H as [[_ [_ Hfr]] _]. specialize (Hfr A hA). rewrite Hd in Hfr.
    specialize (Hfr (or_introl eq_refl)).
    destruct S as ((_ & _ & _ & _ & Hn & _) & _). lia.
  - pose proof (start_pipeline_single_stream E B view url w H) as H2.
    rewrite R' in H2. cbn in H2. destruct H2 as [[A2 _] P2].
    constructor; assumption.
Qed.

Lemma start_switches_protocol_witness :
  reachable hls_running /\
  PIPELINES (now hls_running) = [("hls"%string, 0%nat)] /\
  "rtsp"%string <> "hls"%string /\
  let w' := snd (_start_pipeline always_graceful "rtsp" "yolo" [] hls_running) in
  (exists hB cmd evs,
      PIPELINES (now w') = [("rtsp"%string, hB)] /\ live (now w') = [hB] /\
      log w' = Spawn cmd hB :: evs ++ log hls_running /\
      forallb (fun e => match e with Spawn _ _ => false | _ => true end) evs = true /\
      (In 0%nat (live (now hls_running)) -> In (Sigint 0%nat) evs)) /\
  running_protocols (now w') = ["rtsp"%string] /\
  ~ In 0%nat (live (now w')) /\
  Forall at_most_one (now w' :: past w').
Proof.
  split; [apply hls_running_reachable|]. split; [reflexivity|]. split; [discriminate|].
  apply (start_switches_protocol always_graceful "hls" "rtsp" "yolo" [] 0%nat hls_running);
    [apply hls_running_reachable | reflexivity | discriminate | reflexivity].
Defined.












Lemma hls_crashed_reachable : reachable hls_crashed.
Proof.
  unfold hls_crashed. eapply reach_step; [apply hls_running_reachable|].
  apply t_exit. now left.
Qed.



Example int_truediv_1_49 : int_truediv 1 49 = Ok (Z2F 1 / Z2F 49)%float.
Proof. vm_compute. reflexivity. Qed.

Example int_truediv_0_neg : int_truediv 0 (-1) = Ok neg_zero.
Proof. reflexivity. Qed.

Example py_int_cuts_towards_zero : py_int (PyFloat (-120.5)%float) = Ok (-120).
Proof. vm_compute. reflexivity. Qed.

Example py_min_keeps_first_on_nan : py_min (PyInt 240) (PyFloat nan) = PyInt 240.
Proof. vm_compute. reflexivity. Qed.

Example udp_url_accepts_dotted_host :
  match_udp_url (fun _ => false) (codes "udp://192.168.1.20:5000")
    = Some (codes "192.168.1.20", codes "5000").
Proof. reflexivity. Qed.

Example udp_url_rejects_host_name :
  match_udp_url (fun _ => false) (codes "udp://camera:5000") = None.
Proof. reflexivity. Qed.

(* ===================================================================== *)
(** * Properties of the motion controller                                 *)
(* ===================================================================== *)

Lemma clamp_within lo hi x : lo <= hi -> lo <= clamp lo hi x <= hi.
Proof. unfold clamp. lia. Qed.

Lemma clamp_fixed lo hi x : lo <= hi -> (clamp lo hi x = x <-> lo <= x <= hi).
Proof. unfold clamp. lia. Qed.

(** The two halves of [motion_POST] once the request is understood. *)
Lemma motion_POST_run io axis0 angle0 option_ d a angle servo_angle :
  axis_of_string (lower axis0) = Some a ->
  servo_present d a = true ->
  py_int (or_default angle0 (PyInt 0)) = Ok angle ->
  servo_target (axis_calibration (DEVICE_CONFIG d) a) angle option_ = Ok servo_angle ->
  let lims := get_axis a (SERVO_LIMITS d) in
  let limited_angle := clamp (fst lims) (snd lims) servo_angle in
  let move_time :=
    try_except (current_angle <- get_physical_angle io ;;
                move_duration current_angle limited_angle)%result (fun _ => 1000) in
  motion_POST io axis0 angle0 option_ d =
    (match move io limited_angle move_time with
     | Ok _ =>
         Ok (jsonify [("status"%string,
                       JStr (if limited_angle =? servo_angle then "ok" else "limited"));
                      ("angle"%string, JNum (PyInt angle));
                      ("physical_angle"%string, JNum (PyInt limited_angle));
                      ("axis"%string, JStr (axis_name a))])
     | Raise e =>
         Ok (mkResponse 500
               [("status"%string, JStr "error");
                ("error"%string, JStr "servo_communication_failed");
                ("message"%string, JStr (exn_str e));
                ("axis"%string, JStr (axis_name a))])
     end,
     send (Move a limited_angle move_time) (send (ReadAngle a) d)).
Proof.
  intros Ha Hp Hi Ht. unfold motion_POST. rewrite Ha, Hp, Hi, Ht. cbn [negb].
  destruct (get_axis a (SERVO_LIMITS d)) as [lo hi]. cbn [fst snd].
  destruct (move io _ _); reflexivity.
Qed.

(** C3 as stated does not hold.  With limits [30, 210] a raw target of 500
    lies outside and is clamped to 210, but when the servo does not accept
    the move the outcome is ["error"], not ["limited"]. *)
Lemma rejected_move_reports_error :
  let d := default_device in
  let '(res, d') := motion_POST (deaf_servo 120) "pan" (Some (PyInt 500)) "raw" d in
  get_axis pan (SERVO_LIMITS d) = (30, 210) /\
  servo_target (axis_calibration (DEVICE_CONFIG d) pan) 500 "raw" = Ok 500 /\
  210 < 500 /\
  sent d' = [Move pan 210 6000; ReadAngle pan] /\
  exists resp, res = Ok resp /\ field "status" (body resp) = Some (JStr "error").
Proof. vm_compute. repeat split; try discriminate. eexists. split; reflexivity. Qed.

(** C3, amended.  For a move request on an axis whose limits are in order,
    the angle commanded to the servo lies within the limits.  The outcome
    is ["limited"] only if the raw target lay outside them and ["ok"] only
    if it lay inside and is commanded unchanged; when the servo accepts
    the command the converse holds as well, and when it does not the
    outcome is ["error"] with status 500. *)
Theorem move_is_clamped_and_reported :
  forall (io : servo_io) (axis0 option_ : string) (angle0 : option pynum) (d : device)
         (a : axis) (angle servo_angle min_limit max_limit : Z),
    axis_of_string (lower axis0) = Some a ->
    servo_present d a = true ->
    py_int (or_default angle0 (PyInt 0)) = Ok angle ->
    servo_target (axis_calibration (DEVICE_CONFIG d) a) angle option_ = Ok servo_angle ->
    get_axis a (SERVO_LIMITS d) = (min_limit, max_limit) ->
    min_limit <= max_limit ->
    exists resp limited_angle move_time,
      fst (motion_POST io axis0 angle0 option_ d) = Ok resp /\
      sent (snd (motion_POST io axis0 angle0 option_ d)) =
        Move a limited_angle move_time :: ReadAngle a :: sent d /\
      min_limit <= limited_angle <= max_limit /\
      (field "status" (body resp) = Some (JStr "limited") ->
         servo_angle < min_limit \/ max_limit < servo_angle) /\
      (field "status" (body resp) = Some (JStr "ok") ->
         min_limit <= servo_angle <= max_limit /\ limited_angle = servo_angle) /\
      match move io limited_angle move_time with
      | Ok _ =>
          code resp = 200 /\
          field "physical_angle" (body resp) = Some (JNum (PyInt limited_angle)) /\
          (servo_angle < min_limit \/ max_limit < servo_angle ->
             field "status" (body resp) = Some (JStr "limited")) /\
          (min_limit <= servo_angle <= max_limit ->
             field "status" (body resp) = Some (JStr "ok"))
      | Raise _ =>
          code resp = 500 /\ field "status" (body resp) = Some (JStr "error")
      end.
Proof.
  intros io axis0 option_ angle0 d a angle servo_angle lo hi Ha Hp Hi Ht Hl Hle.
  rewrite (motion_POST_run io axis0 angle0 option_ d a angle servo_angle Ha Hp Hi Ht).
  rewrite Hl. cbn [fst snd].
  set (limited := clamp lo hi servo_angle).
  set (mt := try_except _ _).
  pose proof (clamp_within lo hi servo_angle Hle) as Hin.
  pose proof (clamp_fixed lo hi servo_angle Hle) as Hfix. fold limited in Hin, Hfix.
  destruct (move io limited mt) as [u|e] eqn:Hm.
  - eexists _, limited, mt. split; [reflexivity|]. split; [reflexivity|]. split; [exact Hin|].
    cbn.
    destruct (limited =? servo_angle) eqn:E.
    + apply Z.eqb_eq in E. apply Hfix in E as E'. rewrite Hm.
      split; [intros H; discriminate H|]. split; [intros _; split; assumption|].
      split; [reflexivity|]. split; [reflexivity|].
      split; [intros Hout; exfalso; lia | reflexivity].
    + apply Z.eqb_neq in E. rewrite Hm.
      split; [intros _; lia|]. split; [intros H; discriminate H|].
      split; [reflexivity|]. split; [reflexivity|].
      split; [reflexivity | intros Hins; exfalso; tauto].
  - eexists _, limited, mt. split; [reflexivity|]. split; [reflexivity|]. split; [exact Hin|].
    cbn. rewrite Hm. split; [intros H; discriminate H|]. split; [intros H; discriminate H|].
    split; reflexivity.
Qed.

Lemma move_is_clamped_and_reported_witness :
  axis_of_string (lower "Pan") = Some pan /\
  servo_present default_device pan = true /\
  py_int (or_default (Some (PyInt 100)) (PyInt 0)) = Ok 100 /\
  servo_target (axis_calibration (DEVICE_CONFIG default_device) pan) 100 "" = Ok 20 /\
  get_axis pan (SERVO_LIMITS default_device) = (30, 210) /\
  30 <= 210 /\
  exists resp limited_angle move_time,
    fst (motion_POST (steady_servo 120) "Pan" (Some (PyInt 100)) "" default_device) = Ok resp /\
    sent (snd (motion_POST (steady_servo 120) "Pan" (Some (PyInt 100)) "" default_device)) =
      Move pan limited_angle move_time :: ReadAngle pan :: sent default_device /\
    30 <= limited_angle <= 210 /\
    (field "status" (body resp) = Some (JStr "limited") -> 20 < 30 \/ 210 < 20) /\
    (field "status" (body resp) = Some (JStr "ok") -> 30 <= 20 <= 210 /\ limited_angle = 20) /\
    match move (steady_servo 120) limited_angle move_time with
    | Ok _ =>
        code resp = 200 /\
        field "physical_angle" (body resp) = Some (JNum (PyInt limited_angle)) /\
        (20 < 30 \/ 210 < 20 -> field "status" (body resp) = Some (JStr "limited")) /\
        (30 <= 20 <= 210 -> field "status" (body resp) = Some (JStr "ok"))
    | Raise _ =>
        code resp = 500 /\ field "status" (body resp) = Some (JStr "error")
    end.
Proof.
  split; [reflexivity|]. split; [reflexivity|]. split; [reflexivity|].
  split; [vm_compute; reflexivity|]. split; [reflexivity|]. split; [lia|].
  apply (move_is_clamped_and_reported (steady_servo 120) "Pan" "" (Some (PyInt 100))
           default_device pan 100 20 30 210);
    [reflexivity | reflexivity | reflexivity | vm_compute; reflexivity | reflexivity | lia].
Defined.

(** C8.  The code does not keep the speed limit that it states for itself
    (the comment [limit speed to 15 deg /s] above the computation of
    [move_time]): from 121 to 120 degrees the commanded duration is 66 ms,
    which is not 1 * 1000 / 15, and one degree in 66 ms is faster than 15
    degrees a second. *)
Lemma one_degree_move_takes_66_ms :
  sent (snd (motion_POST (steady_servo 121) "pan" (Some (PyInt 0)) "" default_device)) =
    [Move pan 120 66; ReadAngle pan] /\
  66 * 15 <> Z.abs (121 - 120) * 1000 /\
  ~ (Z.abs (121 - 120) * 1000 <= 15 * 66).
Proof. split; [vm_compute; reflexivity|]. split; lia. Qed.

(** What the computation of the duration gives.  Every move request that
    is understood issues exactly one
    move command to the clamped target.  When the current angle is read and
    the duration is computed, the duration is the float
    [abs(current - target) * 1000 / 15.0] cut to whole milliseconds: it is
    not negative, not above the quotient, and less than one below it.
    When the read fails, or the duration cannot be computed from the
    reading, the duration is the fallback of 1000 ms and the move is still
    issued. *)
Theorem move_duration_is_cut_quotient :
  forall (io : servo_io) (axis0 option_ : string) (angle0 : option pynum) (d : device)
         (a : axis) (angle servo_angle : Z),
    axis_of_string (lower axis0) = Some a ->
    servo_present d a = true ->
    py_int (or_default angle0 (PyInt 0)) = Ok angle ->
    servo_target (axis_calibration (DEVICE_CONFIG d) a) angle option_ = Ok servo_angle ->
    let lims := get_axis a (SERVO_LIMITS d) in
    let limited_angle := clamp (fst lims) (snd lims) servo_angle in
    exists move_time,
      sent (snd (motion_POST io axis0 angle0 option_ d)) =
        Move a limited_angle move_time :: ReadAngle a :: sent d /\
      match get_physical_angle io with
      | Raise _ => move_time = 1000
      | Ok current_angle =>
          match move_duration current_angle limited_angle with
          | Raise _ => move_time = 1000
          | Ok ms =>
              let q := PyFloat (duration_quotient current_angle limited_angle) in
              move_time = ms /\ 0 <= ms /\
              py_lt q (PyInt ms) = false /\ py_lt q (PyInt (ms + 1)) = true
          end
      end.
Proof.
  intros io axis0 option_ angle0 d a angle servo_angle Ha Hp Hi Ht lims limited_angle.
  rewrite (motion_POST_run io axis0 angle0 option_ d a angle servo_angle Ha Hp Hi Ht).
  fold lims. fold limited_angle. cbn [snd send sent].
  eexists. split; [reflexivity|].
  destruct (get_physical_angle io) as [cur|e]; cbn [rbind try_except]; [|reflexivity].
  destruct (move_duration cur limited_angle) as [ms|e] eqn:Hd; cbn [try_except]; [|reflexivity].
  destruct (move_duration_floor cur limited_angle ms Hd) as (nq & Hq & Hms & Hlo & Hhi).
  cbn zeta. split; [reflexivity|]. split; [exact Hms|].
  rewrite (py_lt_exact _ (PyInt ms) nq (ms * K) Hq eq_refl).
  rewrite (py_lt_exact _ (PyInt (ms + 1)) nq ((ms + 1) * K) Hq eq_refl).
  split; [apply Z.ltb_ge; lia | apply Z.ltb_lt; lia].
Qed.

Lemma move_duration_is_cut_quotient_witness :
  axis_of_string (lower "pan") = Some pan /\
  servo_present default_device pan = true /\
  py_int (or_default (Some (PyInt 0)) (PyInt 0)) = Ok 0 /\
  servo_target (axis_calibration (DEVICE_CONFIG default_device) pan) 0 "" = Ok 120 /\
  exists move_time,
    sent (snd (motion_POST (steady_servo 121) "pan" (Some (PyInt 0)) "" default_device)) =
      Move pan (clamp 30 210 120) move_time :: ReadAngle pan :: sent default_device /\
    match get_physical_angle (steady_servo 121) with
    | Raise _ => move_time = 1000
    | Ok current_angle =>
        match move_duration current_angle (clamp 30 210 120) with
        | Raise _ => move_time = 1000
        | Ok ms =>
            let q := PyFloat (duration_quotient current_angle (clamp 30 210 120)) in
            move_time = ms /\ 0 <= ms /\
            py_lt q (PyInt ms) = false /\ py_lt q (PyInt (ms + 1)) = true
        end
    end.
Proof.
  split; [reflexivity|]. split; [reflexivity|]. split; [reflexivity|].
  split; [vm_compute; reflexivity|].
  apply (move_duration_is_cut_quotient (steady_servo 121) "pan" "" (Some (PyInt 0))
           default_device pan 0 120);
    [reflexivity | reflexivity | reflexivity | vm_compute; reflexivity].
Defined.

Lemma centre_maps_to_zero_integers zc zd zs :
  zd * zs <> 0 ->
  exists v, physical_to_mapped (mkCalibration (PyInt zc) (PyInt zd) (PyInt zs)) (PyInt zc) = Ok v.
Proof.
  intros Hn. unfold physical_to_mapped. cbn. unfold int_truediv.
  rewrite Z.sub_diag. apply Z.eqb_neq in Hn. rewrite Hn. cbn. eexists. reflexivity.
Qed.

(** C9.  When the read of the servo raises, [GET /motion/<axis>] on a valid
    axis still answers with status 200; the physical angle is the centre
    of the calibration, the logical angle is 0, the answer carries the flag
    ["communication_error"], and the configuration is untouched.  For a
    valid calibration 0 is the inverse-mapped centre: whenever
    [physical_to_mapped(center)] is defined it equals 0, and for integer
    calibrations it is defined. *)
Theorem angle_read_survives_timeout :
  forall (io : servo_io) (axis0 : string) (d : device) (a : axis) (e : exn),
    axis_of_string (lower axis0) = Some a ->
    servo_present d a = true ->
    get_physical_angle io = Raise e ->
    let c := axis_calibration (DEVICE_CONFIG d) a in
    let resp := fst (motion_GET io axis0 d) in
    code resp = 200 /\
    field "physical_angle" (body resp) = Some (JNum (center c)) /\
    field "angle" (body resp) = Some (JNum (PyInt 0)) /\
    field "error" (body resp) = Some (JStr "communication_error") /\
    DEVICE_CONFIG (snd (motion_GET io axis0 d)) = DEVICE_CONFIG d /\
    (valid_calibration c ->
       forall v, physical_to_mapped c (center c) = Ok v -> py_eq v (PyInt 0) = true) /\
    (forall zc zd zs,
       c = mkCalibration (PyInt zc) (PyInt zd) (PyInt zs) -> zd * zs <> 0 ->
       exists v, physical_to_mapped c (center c) = Ok v).
Proof.
  intros io axis0 d a e Ha Hp Hr. cbv zeta.
  generalize (centre_maps_to_zero (axis_calibration (DEVICE_CONFIG d) a)).
  generalize (centre_maps_to_zero_integers).
  unfold motion_GET. rewrite Ha, Hp, Hr. cbn [negb rbind try_except fst snd].
  generalize (axis_calibration (DEVICE_CONFIG d) a). intros c Hint Hzero.
  cbn. repeat (split; [reflexivity|]). split.
  - intros Hc v Hv. now apply Hzero.
  - intros zc zd zs -> Hn. now apply Hint.
Qed.

Lemma default_calibration_valid :
  valid_calibration (axis_calibration (DEVICE_CONFIG default_device) tilt).
Proof.
  split; [eexists; reflexivity|]. split; [right; left; reflexivity | reflexivity].
Qed.

Lemma angle_read_survives_timeout_witness :
  axis_of_string (lower "TILT") = Some tilt /\
  servo_present default_device tilt = true /\
  get_physical_angle silent_servo = Raise ServoTimeoutError /\
  let c := axis_calibration (DEVICE_CONFIG default_device) tilt in
  let resp := fst (motion_GET silent_servo "TILT" default_device) in
  code resp = 200 /\
  field "physical_angle" (body resp) = Some (JNum (center c)) /\
  field "angle" (body resp) = Some (JNum (PyInt 0)) /\
  field "error" (body resp) = Some (JStr "communication_error") /\
  DEVICE_CONFIG (snd (motion_GET silent_servo "TILT" default_device)) =
    DEVICE_CONFIG default_device /\
  (valid_calibration c ->
     forall v, physical_to_mapped c (center c) = Ok v -> py_eq v (PyInt 0) = true) /\
  (forall zc zd zs,
     c = mkCalibration (PyInt zc) (PyInt zd) (PyInt zs) -> zd * zs <> 0 ->
     exists v, physical_to_mapped c (center c) = Ok v).
Proof.
  split; [reflexivity|]. split; [reflexivity|]. split; [reflexivity|].
  apply (angle_read_survives_timeout silent_servo "TILT" default_device tilt ServoTimeoutError);
    reflexivity.
Defined.

(** The limit update either stores the normalized pair or, when a bound of
    the request cannot be converted, leaves the device as it was. *)
Lemma motion_limit_POST_store io axis0 mr xr mm xm d a :
  axis_of_string (lower axis0) = Some a ->
  let c := axis_calibration (DEVICE_CONFIG d) a in
  let d' := snd (motion_limit_POST io axis0 mr xr mm xm d) in
  match normalized_limits c (get_axis a (SERVO_LIMITS d)) mr xr mm xm with
  | Ok lims => get_axis a (SERVO_LIMITS d') = lims
  | Raise _ => d' = d
  end.
Proof.
  intros Ha. cbv zeta. unfold motion_limit_POST. rewrite Ha.
  destruct (normalized_limits _ _ mr xr mm xm) as [[lo hi]|e]; [|reflexivity].
  destruct (servo_present d a); cbn [fst snd];
    destruct (set_angle_limits io lo hi); cbn [fst snd]; destruct a; reflexivity.
Qed.

(** C4.  For a direction of -1 or +1 and any combination of raw and
    logical bounds in the request, the limit update stores a pair
    [lo <= hi] with both values in [0, 240]; the only other outcome is
    that a bound of the request cannot be converted to a number, and then
    nothing is stored. *)
Theorem stored_limits_are_normalized :
  forall (io : servo_io) (axis0 : string) (req_min_raw req_max_raw req_min req_max : option pynum)
         (d : device) (a : axis),
    axis_of_string (lower axis0) = Some a ->
    let c := axis_calibration (DEVICE_CONFIG d) a in
    unit_direction (direction c) ->
    let stored := get_axis a (SERVO_LIMITS d) in
    let d' := snd (motion_limit_POST io axis0 req_min_raw req_max_raw req_min req_max d) in
    (exists lo hi,
        normalized_limits c stored req_min_raw req_max_raw req_min req_max = Ok (lo, hi) /\
        get_axis a (SERVO_LIMITS d') = (lo, hi) /\
        0 <= lo /\ lo <= hi /\ hi <= 240) \/
    (exists e,
        (requested_bound c req_min_raw req_min (fst stored) = Raise e \/
         requested_bound c req_max_raw req_max (snd stored) = Raise e) /\
        d' = d).
Proof.
  intros io axis0 mr xr mm xm d a Ha c Hd stored d'.
  pose proof (motion_limit_POST_store io axis0 mr xr mm xm d a Ha) as Hs. cbv zeta in Hs.
  fold c stored d' in Hs.
  destruct (normalized_limits_spec c stored mr xr mm xm)
    as [(e & R & Hb)|(x & y & nx & ny & _ & _ & _ & _ & _ & _ & R)].
  - right. exists e. rewrite R in Hs. auto.
  - left. destruct (normalized_limits c stored mr xr mm xm) as [[lo hi]|] eqn:Hn; [|discriminate].
    exists lo, hi. split; [reflexivity|]. split; [exact Hs|].
    eapply normalized_limits_ordered; [apply unit_direction_has_sign, Hd | exact Hn].
Qed.

Lemma stored_limits_are_normalized_witness :
  axis_of_string (lower "pan") = Some pan /\
  unit_direction (direction (axis_calibration (DEVICE_CONFIG default_device) pan)) /\
  let c := axis_calibration (DEVICE_CONFIG default_device) pan in
  let stored := get_axis pan (SERVO_LIMITS default_device) in
  let d' := snd (motion_limit_POST (steady_servo 120) "pan"
                   (Some (PyFloat 200.5)) None None (Some (PyInt 60)) default_device) in
  (exists lo hi,
      normalized_limits c stored (Some (PyFloat 200.5)) None None (Some (PyInt 60)) = Ok (lo, hi) /\
      get_axis pan (SERVO_LIMITS d') = (lo, hi) /\
      0 <= lo /\ lo <= hi /\ hi <= 240) \/
  (exists e,
      (requested_bound c (Some (PyFloat 200.5)) None (fst stored) = Raise e \/
       requested_bound c None (Some (PyInt 60)) (snd stored) = Raise e) /\
      d' = default_device).
Proof.
  split; [reflexivity|]. split; [right; left; reflexivity|].
  apply (stored_limits_are_normalized (steady_servo 120) "pan"
           (Some (PyFloat 200.5)) None None (Some (PyInt 60)) default_device pan);
    [reflexivity | right; left; reflexivity].
Defined.

Example mixed_limit_update_swaps :
  get_axis pan (SERVO_LIMITS (snd (motion_limit_POST (steady_servo 120) "pan"
      (Some (PyFloat 200.5)) None None (Some (PyInt 60)) default_device))) = (60, 200).
Proof. vm_compute. reflexivity. Qed.

Lemma clamp_servo_range_int z : clamp_servo_range (PyInt z) = PyInt (clamp 0 240 z).
Proof.
  unfold clamp_servo_range, py_max, py_min, py_gt, clamp. cbn [py_lt].
  destruct (z <? 240) eqn:E1; cbn [py_lt].
  - apply Z.ltb_lt in E1. destruct (0 <? z) eqn:E2.
    + apply Z.ltb_lt in E2. f_equal. lia.
    + apply Z.ltb_ge in E2. f_equal. lia.
  - apply Z.ltb_ge in E1. cbn. f_equal. lia.
Qed.

(** With one bound absent, the stored value of that bound, clamped to the
    servo range, is one of the two normalized bounds. *)
Lemma normalized_limits_keeps_min c stored xr xm lo hi :
  normalized_limits c stored None xr None xm = Ok (lo, hi) ->
  lo = clamp 0 240 (fst stored) \/ hi = clamp 0 240 (fst stored).
Proof.
  intros R. assert (Hk := K_pos).
  destruct (normalized_limits_spec c stored None xr None xm)
    as [(e & R' & _)|(a & b & na & nb & Ha & _ & Hna & _ & _ & _ & R')]; [congruence|].
  cbn in Ha. injection Ha as <-. rewrite clamp_servo_range_int in Hna.
  cbn in Hna. injection Hna as <-. rewrite R' in R.
  rewrite Z.quot_mul in R by lia.
  destruct (has_sign (direction c) && (nb <? clamp 0 240 (fst stored) * K));
    injection R as <- <-; auto.
Qed.

Lemma normalized_limits_keeps_max c stored mr mm lo hi :
  normalized_limits c stored mr None mm None = Ok (lo, hi) ->
  lo = clamp 0 240 (snd stored) \/ hi = clamp 0 240 (snd stored).
Proof.
  intros R. assert (Hk := K_pos).
  destruct (normalized_limits_spec c stored mr None mm None)
    as [(e & R' & _)|(a & b & na & nb & _ & Hb & _ & _ & Hnb & _ & R')]; [congruence|].
  cbn in Hb. injection Hb as <-. rewrite clamp_servo_range_int in Hnb.
  cbn in Hnb. injection Hnb as <-. rewrite R' in R.
  rewrite Z.quot_mul in R by lia.
  destruct (has_sign (direction c) && (clamp 0 240 (snd stored) * K <? na));
    injection R as <- <-; auto.
Qed.

(** C10 as stated does not hold.  With the stored limits (-10, 210) of the
    pan axis, an update that gives [max_raw = 100] alone stores (0, 100):
    the minimum was not given, yet its stored value -10 is neither of the
    two new limits.  Such limits come from the configuration file, whose
    loading checks only that the entry is a list of two items. *)
Lemma absent_bound_is_clamped :
  let d := mkDevice (mkConfig (mkPerAxis (-10, 210) (80, 165)) (servo_map DEFAULT_CONFIG))
                    false false [] in
  get_axis pan (SERVO_LIMITS d) = (-10, 210) /\
  code (try_except (fst (motion_limit_POST silent_servo "pan" None (Some (PyInt 100)) None None d))
                   (fun _ => internal_server_error)) = 200 /\
  get_axis pan (SERVO_LIMITS
    (snd (motion_limit_POST silent_servo "pan" None (Some (PyInt 100)) None None d))) = (0, 100) /\
  fst (load_device_config true
         (Some (Done (PDict [("servo_limits"%string,
                              PDict [("pan"%string, int_pair (-10) 210);
                                     ("tilt"%string, int_pair 80 165)])])))) =
    Done (PDict [("servo_limits"%string,
                  PDict [("pan"%string, int_pair (-10) 210); ("tilt"%string, int_pair 80 165)]);
                 ("pwr_init"%string, PBool true);
                 ("pan_init"%string, PNum (PyInt 120));
                 ("tilt_init"%string, PNum (PyInt 120));
                 ("servo_map"%string,
                  PDict [("pan"%string, default_map_entry); ("tilt"%string, default_map_entry)])]).
Proof. cbv zeta. repeat split; vm_compute; reflexivity. Qed.

(** C10, amended.  A bound that the request gives neither raw nor logical
    is taken from the stored limit of the axis and then clamped to
    [0, 240] like a given one.  So after an update of the maximum alone
    the stored minimum, clamped, is one of the two new limits, and after
    an update of the minimum alone the stored maximum, clamped, is one of
    them (which one depends on the swap); a stored limit inside [0, 240]
    is kept as it is.  When a bound of the request cannot be converted
    nothing is stored. *)
Theorem absent_bound_defaults_to_stored_limit :
  forall (io : servo_io) (axis0 : string) (req_min_raw req_max_raw req_min req_max : option pynum)
         (d : device) (a : axis),
    axis_of_string (lower axis0) = Some a ->
    let c := axis_calibration (DEVICE_CONFIG d) a in
    let stored := get_axis a (SERVO_LIMITS d) in
    requested_bound c None None (fst stored) = Ok (PyInt (fst stored)) /\
    requested_bound c None None (snd stored) = Ok (PyInt (snd stored)) /\
    (let new := get_axis a (SERVO_LIMITS
                  (snd (motion_limit_POST io axis0 None req_max_raw None req_max d))) in
     match normalized_limits c stored None req_max_raw None req_max with
     | Ok _ => fst new = clamp 0 240 (fst stored) \/ snd new = clamp 0 240 (fst stored)
     | Raise _ => new = stored
     end /\
     (0 <= fst stored <= 240 -> fst new = fst stored \/ snd new = fst stored)) /\
    (let new := get_axis a (SERVO_LIMITS
                  (snd (motion_limit_POST io axis0 req_min_raw None req_min None d))) in
     match normalized_limits c stored req_min_raw None req_min None with
     | Ok _ => fst new = clamp 0 240 (snd stored) \/ snd new = clamp 0 240 (snd stored)
     | Raise _ => new = stored
     end /\
     (0 <= snd stored <= 240 -> fst new = snd stored \/ snd new = snd stored)).
Proof.
  intros io axis0 mr xr mm xm d a Ha c stored.
  split; [reflexivity|]. split; [reflexivity|]. split.
  - pose proof (motion_limit_POST_store io axis0 None xr None xm d a Ha) as Hs.
    cbv zeta in Hs. fold c stored in Hs. cbv zeta.
    destruct (normalized_limits c stored None xr None xm) as [[lo hi]|e] eqn:Hn.
    + rewrite Hs. cbn [fst snd].
      pose proof (normalized_limits_keeps_min _ _ _ _ _ _ Hn) as H.
      split; [exact H|]. intros Hr.
      replace (clamp 0 240 (fst stored)) with (fst stored) in H by (unfold clamp; lia).
      exact H.
    + rewrite Hs. split; [reflexivity | now left].
  - pose proof (motion_limit_POST_store io axis0 mr None mm None d a Ha) as Hs.
    cbv zeta in Hs. fold c stored in Hs. cbv zeta.
    destruct (normalized_limits c stored mr None mm None) as [[lo hi]|e] eqn:Hn.
    + rewrite Hs. cbn [fst snd].
      pose proof (normalized_limits_keeps_max _ _ _ _ _ _ Hn) as H.
      split; [exact H|]. intros Hr.
      replace (clamp 0 240 (snd stored)) with (snd stored) in H by (unfold clamp; lia).
      exact H.
    + rewrite Hs. split; [reflexivity | now right].
Qed.

Lemma absent_bound_defaults_to_stored_limit_witness :
  let d := mkDevice (mkConfig (mkPerAxis (-10, 210) (80, 165)) (servo_map DEFAULT_CONFIG))
                    false false [] in
  axis_of_string (lower "PAN") = Some pan /\
  let c := axis_calibration (DEVICE_CONFIG d) pan in
  let stored := get_axis pan (SERVO_LIMITS d) in
  requested_bound c None None (fst stored) = Ok (PyInt (fst stored)) /\
  requested_bound c None None (snd stored) = Ok (PyInt (snd stored)) /\
  (let new := get_axis pan (SERVO_LIMITS
                (snd (motion_limit_POST silent_servo "PAN" None (Some (PyInt 100)) None None d))) in
   match normalized_limits c stored None (Some (PyInt 100)) None None with
   | Ok _ => fst new = clamp 0 240 (fst stored) \/ snd new = clamp 0 240 (fst stored)
   | Raise _ => new = stored
   end /\
   (0 <= fst stored <= 240 -> fst new = fst stored \/ snd new = fst stored)) /\
  (let new := get_axis pan (SERVO_LIMITS
                (snd (motion_limit_POST silent_servo "PAN" (Some (PyInt 50)) None None None d))) in
   match normalized_limits c stored (Some (PyInt 50)) None None None with
   | Ok _ => fst new = clamp 0 240 (snd stored) \/ snd new = clamp 0 240 (snd stored)
   | Raise _ => new = stored
   end /\
   (0 <= snd stored <= 240 -> fst new = snd stored \/ snd new = snd stored)).
Proof.
  cbv zeta. split; [reflexivity|].
  apply (absent_bound_defaults_to_stored_limit silent_servo "PAN"
           (Some (PyInt 50)) (Some (PyInt 100)) None None
           (mkDevice (mkConfig (mkPerAxis (-10, 210) (80, 165)) (servo_map DEFAULT_CONFIG))
                     false false []) pan).
  reflexivity.
Defined.

Example one_bound_update_swaps :
  get_axis tilt (SERVO_LIMITS
    (snd (motion_limit_POST silent_servo "tilt" None (Some (PyInt 50)) None None default_device)))
  = (50, 80).
Proof. vm_compute. reflexivity. Qed.

Lemma in_degrees x : 0 <= x <= 240 -> In x degrees.
Proof.
  intros H. unfold degrees. apply in_map_iff. exists (Z.to_nat x).
  split; [lia|]. apply in_seq. lia.
Qed.


Example scale_seven_loses_a_degree :
  roundtrip (mkCalibration (PyInt 120) (PyInt (-1)) (PyInt 7)) (PyInt 62) = Ok 61.
Proof. vm_compute. reflexivity. Qed.

Lemma zip_all_nth {A B : Type} (p : A -> B -> bool) l1 : forall l2 i a b,
  zip_all p l1 l2 = true ->
  nth_error l1 i = Some a -> nth_error l2 i = Some b -> p a b = true.
Proof.
  induction l1 as [|a1 r1 IH]; intros [|b1 r2] [|i] a b H H1 H2; cbn in *; try discriminate.
  - injection H1 as <-. injection H2 as <-. now apply andb_prop in H.
  - apply andb_prop in H as [_ H]. eapply IH; eassumption.
Qed.

Lemma nth_error_floats_from lo n i :
  (i < n)%nat -> nth_error (floats_from lo n) i = Some (Z2F (lo + Z.of_nat i)).
Proof.
  intros H. unfold floats_from. rewrite nth_error_map, nth_error_seq.
  destruct (Nat.ltb_spec i n); [reflexivity | lia].
Qed.

Lemma in_differences n : -240 <= n <= 240 -> In n differences.
Proof.
  intros H. unfold differences. apply in_map_iff. exists (Z.to_nat (n + 240)).
  split; [lia|]. apply in_seq. lia.
Qed.

Lemma steps_checked_sound rel a x :
  steps_checked rel = true -> 0 <= a <= 240 -> 0 <= x <= 240 ->
  rel (Z2F a) (Z2F (x - a)) (Z2F x) = true.
Proof.
  unfold steps_checked. cbv zeta. intros H Ha Hx.
  rewrite forallb_forall in H. specialize (H a (in_degrees a Ha)).
  apply (zip_all_nth _ _ _ (Z.to_nat x) _ _ H).
  - rewrite nth_error_skipn, nth_error_floats_from by lia. do 2 f_equal. lia.
  - rewrite nth_error_floats_from by lia. do 2 f_equal. lia.
Qed.


Lemma differences_checked : steps_checked is_difference = true.
Proof. vm_compute. reflexivity. Qed.

Lemma absolutes_checked_ok : absolutes_checked = true.
Proof. vm_compute. reflexivity. Qed.

Lemma durations_checked_ok : durations_checked = true.
Proof. vm_compute. reflexivity. Qed.


Lemma Z2F_sub a x :
  0 <= a <= 240 -> 0 <= x <= 240 -> (Z2F x - Z2F a)%float = Z2F (x - a).
Proof.
  intros Ha Hx. apply FloatAxioms.Leibniz.eqb_spec.
  exact (steps_checked_sound is_difference a x differences_checked Ha Hx).
Qed.

Lemma Z2F_abs n : -240 <= n <= 240 -> PrimFloat.abs (Z2F n) = Z2F (Z.abs n).
Proof.
  intros Hn. pose proof absolutes_checked_ok as H. unfold absolutes_checked in H.
  rewrite forallb_forall in H. apply FloatAxioms.Leibniz.eqb_spec.
  exact (H n (in_differences n Hn)).
Qed.

Lemma quotients_checked_ok : quotients_checked = true.
Proof. vm_compute. reflexivity. Qed.

Lemma degrees_checked_ok : degrees_checked = true.
Proof. vm_compute. reflexivity. Qed.

Lemma Z2F_degree x :
  0 <= x <= 240 -> int_to_float x = Ok (Z2F x) /\ float_to_int (Z2F x) = Ok x.
Proof.
  intros Hx. pose proof degrees_checked_ok as H. unfold degrees_checked in H.
  rewrite forallb_forall in H. specialize (H x (in_degrees x Hx)).
  apply andb_prop in H as [H1 H2]. unfold int_to_float. cbv zeta.
  apply negb_true_iff in H1. rewrite H1. split; [reflexivity|].
  unfold returns in H2. destruct (float_to_int (Z2F x)); [|discriminate].
  apply Z.eqb_eq in H2. now subst.
Qed.

Lemma quotient_by_direction n zd :
  -240 <= n <= 240 -> zd = 1 \/ zd = -1 ->
  exists g, int_truediv n zd = Ok g /\ (Z2F zd * g * Z2F 1)%float = Z2F n.
Proof.
  intros Hn Hd. pose proof quotients_checked_ok as H. unfold quotients_checked in H.
  rewrite forallb_forall in H. specialize (H n (in_differences n Hn)).
  rewrite forallb_forall in H.
  assert (Hin : In zd [1; -1]) by (destruct Hd as [-> | ->]; cbn; auto).
  specialize (H zd Hin). destruct (int_truediv n zd) as [g|]; [|discriminate].
  exists g. split; [reflexivity|]. now apply FloatAxioms.Leibniz.eqb_spec.
Qed.






(** Directions -1 and +1 with the scales 1 to 6, 8, 9 and 10, a half and
    a quarter reproduce whole distances; scale 7 does not. *)
Lemma small_scales_reproduce_distances :
  forallb (fun d => forallb (reproduces_distances d) small_scales) unit_directions = true /\
  reproduces_distances (PyInt (-1)) (PyInt 7) = false.
Proof. split; vm_compute; reflexivity. Qed.


Example roundtrip_of_shipped_calibration :
  roundtrip (mkCalibration (PyInt 120) (PyInt (-1)) (PyInt 1)) (PyInt 62) = Ok 62 /\
  roundtrip (mkCalibration (PyFloat 120) (PyFloat (-1)) (PyFloat 1)) (PyFloat 62) = Ok 62.
Proof. split; vm_compute; reflexivity. Qed.

(** For readings and targets that are whole degrees the duration is the
    exact quotient rounded down to whole milliseconds. *)
Lemma move_duration_whole_degrees k t :
  0 <= k <= 240 -> 0 <= t <= 240 ->
  move_duration (Z2F k) t = Ok (1000 * Z.abs (k - t) / 15).
Proof.
  intros Hk Ht. unfold move_duration. cbn [py_sub py_arith py_float rbind].
  destruct (Z2F_degree t Ht) as [Hzt _]. rewrite Hzt. cbn [rbind py_abs py_mul py_arith py_float].
  assert (H1000 : int_to_float 1000 = Ok (Z2F 1000)) by (vm_compute; reflexivity).
  rewrite H1000. cbn [rbind py_truediv py_float].
  replace (is_zero 15) with false by (vm_compute; reflexivity).
  cbn [rbind py_int]. rewrite (Z2F_sub t k Ht Hk), Z2F_abs by lia.
  pose proof durations_checked_ok as H. unfold durations_checked in H.
  rewrite forallb_forall in H. specialize (H (Z.abs (k - t)) (in_degrees (Z.abs (k - t)) ltac:(lia))).
  unfold returns in H. destruct (float_to_int _) as [y|e]; [|discriminate].
  apply Z.eqb_eq in H. now subst.
Qed.

(* ===================================================================== *)
(** * The UDP target pattern                                              *)
(* ===================================================================== *)

Lemma span_spec p s : forall a b,
  span p s = (a, b) ->
  s = a ++ b /\ forallb p a = true /\ head_is p b = false.
Proof.
  induction s as [|c r IH]; cbn; intros a b.
  - intros [= <- <-]. auto.
  - destruct (p c) eqn:Hc.
    + destruct (span p r) as [a' b']. intros [= <- <-].
      destruct (IH a' b' eq_refl) as (-> & Ha & Hb). cbn. rewrite Hc. auto.
    + intros [= <- <-]. cbn. auto.
Qed.

Lemma span_app p a : forall b,
  forallb p a = true -> head_is p b = false -> span p (a ++ b) = (a, b).
Proof.
  induction a as [|c r IH]; cbn; intros b Ha Hb.
  - destruct b as [|c b]; [reflexivity|]. cbn in Hb. cbn. now rewrite Hb.
  - apply andb_prop in Ha as [Hc Hr]. rewrite Hc. now rewrite IH.
Qed.

Lemma strip_prefix_spec pre : forall s r,
  strip_prefix pre s = Some r <-> s = pre ++ r.
Proof.
  induction pre as [|a pre IH]; intros s r; cbn.
  - split; [now intros [= ->] | now intros ->].
  - destruct s as [|b s].
    + split; discriminate.
    + destruct (N.eqb_spec a b) as [->|Hab].
      * rewrite IH. split; [now intros -> | now intros [= ->]].
      * split; [discriminate | intros [= -> _]; contradiction].
Qed.

(** What the pattern accepts, and its two groups. *)
Lemma match_udp_url_spec nd url host port :
  match_udp_url nd url = Some (host, port) <-> udp_target nd url host port.
Proof.
  unfold match_udp_url, udp_target. split.
  - destruct (strip_prefix (codes "udp://") url) as [r0|] eqn:Hp; [|discriminate].
    apply strip_prefix_spec in Hp.
    destruct (span (fun c => (is_digit nd c || N.eqb c 46)%bool) r0) as [h r1] eqn:Hh.
    apply span_spec in Hh as (Hr0 & Hh1 & Hh2).
    destruct h as [|h0 h]; [discriminate|].
    destruct r1 as [|c r2]; [discriminate|].
    destruct (N.eqb_spec c 58) as [->|Hc]; [|discriminate].
    destruct (span (is_digit nd) r2) as [p r3] eqn:Hs.
    apply span_spec in Hs as (Hr2 & Hp1 & Hp2).
    destruct p as [|p0 p]; [discriminate|].
    intros [= <- <-]. exists r3. subst url r0 r2.
    repeat split; try assumption; discriminate.
  - intros (rest & -> & Hh & Hh1 & Hp & Hp1 & Hr).
    replace (strip_prefix (codes "udp://") (codes "udp://" ++ host ++ codes ":" ++ port ++ rest))
      with (Some (host ++ codes ":" ++ port ++ rest))
      by (symmetry; now apply strip_prefix_spec).
    rewrite (span_app _ host (codes ":" ++ port ++ rest)) by (assumption || reflexivity).
    destruct host as [|h0 host]; [contradiction|].
    change (codes ":" ++ port ++ rest) with (58%N :: port ++ rest). cbn [N.eqb Pos.eqb].
    rewrite (span_app _ port rest) by assumption.
    destruct port as [|p0 port]; [contradiction|]. reflexivity.
Qed.

(** X1.  For the protocol [udp] the command is synthesized exactly when
    the target is [udp://], a non-empty run of digits and dots, a colon, a
    non-empty run of digits, and a rest that does not go on with a digit;
    the command then ends with [udpsink host=] and the first run, [port=]
    and the second run, whatever the rest of the target is, and what comes
    before depends on the view alone.  Any other target raises the
    [ValueError] of the pattern.  The state is left as it is. *)
Theorem udp_url_groups :
  forall (E : env) (view : string),
    exists base : text,
      forall (url : text) (w : world),
        snd (_make_gst_pipeline E "udp" view url w) = w /\
        match fst (_make_gst_pipeline E "udp" view url w) with
        | Ok cmd =>
            exists host port,
              udp_target (decimal E) url host port /\
              cmd = codes "gst-launch-1.0 -v " ++ base
                    ++ codes "! rtph264pay pt=96 ! udpsink host=" ++ host
                    ++ codes " port=" ++ port
        | Raise e =>
            e = ValueError "UDP url must be udp://<host>:<port>" /\
            forall host port, ~ udp_target (decimal E) url host port
        end.
Proof.
  intros E view. eexists. intros url w. unfold _make_gst_pipeline.
  cbn [String.eqb Ascii.eqb Bool.eqb].
  destruct (match_udp_url (decimal E) url) as [[host port]|] eqn:Hm.
  - split; [reflexivity|]. cbn [fst ret]. exists host, port.
    split; [now apply match_udp_url_spec | reflexivity].
  - split; [reflexivity|]. cbn [fst raise]. split; [reflexivity|].
    intros host port H. apply match_udp_url_spec in H. congruence.
Qed.

Example udp_target_in_other_digits :
  let E := mkEnv (fun _ => true) (fun _ => true) (fun c => (1632 <=? c)%N && (c <=? 1641)%N) in
  fails_validation E "udp" [117; 100; 112; 58; 47; 47; 1633; 1632; 46; 1633; 58; 1637; 1632]%N
    = false /\
  fails_validation always_graceful "udp"
    [117; 100; 112; 58; 47; 47; 1633; 1632; 46; 1633; 58; 1637; 1632]%N = true.
Proof. split; reflexivity. Qed.

(* ===================================================================== *)
(** * Further properties of the pipeline session manager                  *)
(* ===================================================================== *)

Lemma remove_handle_absent h l :
  existsb (Nat.eqb h) l = false -> remove_handle h l = l.
Proof.
  unfold remove_handle. induction l as [|x r IH]; cbn; [reflexivity|].
  destruct (Nat.eqb h x); cbn; [discriminate|]. intros H. now rewrite IH.
Qed.

(** X2.  [_stop_pipeline] always returns; it takes the protocol out of the
    registry; a protocol that is not registered changes nothing; a
    registered process receives SIGINT only when it has not exited, and is
    killed only after the SIGINT, when it did not exit within the wait. *)
Theorem stop_pipeline_effect :
  forall (E : env) (protocol : string) (w : world),
    let w' := snd (_stop_pipeline E protocol w) in
    fst (_stop_pipeline E protocol w) = Ok tt /\
    PIPELINES (now w') = dict_remove protocol (PIPELINES (now w)) /\
    match dict_get protocol (PIPELINES (now w)) with
    | None => w' = w
    | Some h =>
        live (now w') = remove_handle h (live (now w)) /\
        log w' =
          (if existsb (Nat.eqb h) (live (now w))
           then if graceful E h then [Sigint h] else [Kill h; Sigint h]
           else []) ++ log w
    end.
Proof.
  intros E protocol w.
  destruct (dict_get protocol (PIPELINES (now w))) as [h|] eqn:G.
  2:{ cbn zeta. rewrite (stop_absent E) by assumption. cbn.
      now rewrite dict_get_remove_absent. }
  unfold _stop_pipeline, PIPELINES_pop, poll_is_None, wait_5, exits, bind, gets, step_to, emit, ret.
  rewrite G. cbn [now past log PIPELINES live next_handle CAM_POWER].
  destruct (existsb (Nat.eqb h) (live (now w))) eqn:L.
  - destruct (graceful E h); cbn; auto.
  - cbn. now rewrite remove_handle_absent.
Qed.

Lemma make_gst_pipeline_command E protocol view url w1 w2 :
  fst (_make_gst_pipeline E protocol view url w1) = fst (_make_gst_pipeline E protocol view url w2).
Proof.
  unfold _make_gst_pipeline.
  destruct (String.eqb protocol "udp"); [now destruct (match_udp_url (decimal E) url) as [[? ?]|]|].
  destruct (String.eqb protocol "hls"); [reflexivity|].
  now destruct (String.eqb protocol "rtsp").
Qed.

(** X3.  When the launcher cannot start the synthesized command, the start
    request is answered with status 500; the sessions that were running
    have been stopped all the same, so that the registry is empty, no
    process is left and none was spawned. *)
Theorem failed_launch_leaves_no_stream :
  forall (E : env) (host P view : string) (url cmd : text) (w : world),
    reachable w ->
    dict_contains (lower P) (PIPELINES (now w)) = false ->
    fst (_make_gst_pipeline E (lower P) view url w) = Ok cmd ->
    popen_ok E cmd = false ->
    let w' := snd (serve E (StreamPost host P true view url) w) in
    fst (serve E (StreamPost host P true view url) w) = internal_server_error /\
    PIPELINES (now w') = [] /\ live (now w') = [] /\
    next_handle (now w') = next_handle (now w) /\
    exists evs, log w' = evs ++ log w /\ forallb (fun e => negb (is_spawn e)) evs = true.
Proof.
  intros E host P view url cmd w Hr Hc Hcmd Hp.
  destruct (stop_all_spec E w) as (w1 & R & S & D & L & A).
  pose proof (reachable_single_stream w Hr) as [Hs _].
  specialize (L Hs).
  destruct (make_gst_pipeline_spec E (lower P) view url w1) as [(_ & msg & R1)|(_ & cmd1 & evs & Hevs & R1)].
  { rewrite (make_gst_pipeline_command _ _ _ _ w w1), R1 in Hcmd. discriminate. }
  rewrite (make_gst_pipeline_command _ _ _ _ w w1), R1 in Hcmd. injection Hcmd as ->.
  assert (Hrun : _start_pipeline E (lower P) view url w =
                 (Raise OSError, mkWorld (now w1) (past w1) (evs ++ log w1))).
  { unfold _start_pipeline, bind, gets. rewrite Hc. cbn [now]. rewrite R, R1.
    unfold Popen. now rewrite Hp. }
  cbn zeta. unfold serve, stream_control_POST. rewrite Hrun. cbn.
  destruct S as ((_ & _ & _ & _ & Hn & _) & (stops & Hl & Hstops) & _).
  repeat split; try assumption.
  exists (evs ++ stops). rewrite Hl, app_assoc. split; [reflexivity|].
  rewrite forallb_app. apply andb_true_intro. split.
  - destruct Hevs as [-> | ->]; reflexivity.
  - clear - Hstops. induction stops as [|e r IH]; [reflexivity|].
    cbn in *. apply andb_prop in Hstops as [He Hr]. rewrite (IH Hr).
    now destruct e.
Qed.

Lemma failed_launch_leaves_no_stream_witness :
  let E := mkEnv (fun _ => true) (fun _ => false) (fun _ => false) in
  reachable hls_running /\
  dict_contains (lower "RTSP") (PIPELINES (now hls_running)) = false /\
  (exists cmd,
     fst (_make_gst_pipeline E (lower "RTSP") "pure" [] hls_running) = Ok cmd /\
     popen_ok E cmd = false) /\
  let w' := snd (serve E (StreamPost "cam" "RTSP" true "pure" []) hls_running) in
  fst (serve E (StreamPost "cam" "RTSP" true "pure" []) hls_running) = internal_server_error /\
  PIPELINES (now w') = [] /\ live (now w') = [] /\
  next_handle (now w') = next_handle (now hls_running) /\
  exists evs, log w' = evs ++ log hls_running /\ forallb (fun e => negb (is_spawn e)) evs = true.
Proof.
  split; [apply hls_running_reachable|]. split; [reflexivity|].
  split; [eexists; split; reflexivity|].
  eapply (failed_launch_leaves_no_stream (mkEnv (fun _ => true) (fun _ => false) (fun _ => false))
            "cam" "RTSP" "pure" [] _ hls_running hls_running_reachable);
    reflexivity.
Defined.

(** X4.  In a reachable state [GET /stream/<protocol>] answers [on] exactly
    for a registered protocol whose process has not exited, adds the URL of
    the stream for [hls] and [rtsp] only, and changes nothing. *)
Theorem poll_reports_running_session :
  forall (host P : string) (w : world),
    reachable w ->
    let running := existsb (String.eqb (lower P)) (running_protocols (now w)) in
    stream_control_GET host P w =
      (Ok (jsonify (("on"%string, JBool running) ::
                    if running
                    then match stream_url host (lower P) with
                         | Some u => [("url"%string, u)]
                         | None => []
                         end
                    else [])), w).
Proof.
  intros host P w Hr. pose proof (reachable_single_stream w Hr) as [[[L1 _] _] _].
  unfold stream_control_GET, running_protocols, stream_url, poll_is_None, bind, gets, ret.
  destruct (PIPELINES (now w)) as [|[k h] [|]]; cbn in L1; try lia.
  - reflexivity.
  - cbn [dict_get filter snd].
    destruct (existsb (Nat.eqb h) (live (now w))) eqn:L;
      destruct (String.eqb (lower P) k) eqn:Ek; cbn [map fst existsb orb app];
      rewrite ?Ek, ?L; cbn [orb app].
    + destruct (String.eqb (lower P) "hls"); [reflexivity|].
      now destruct (String.eqb (lower P) "rtsp").
    + reflexivity.
    + reflexivity.
    + reflexivity.
Qed.

Lemma poll_reports_running_session_witness :
  reachable hls_running /\
  stream_control_GET "cam" "HLS" hls_running =
    (Ok (jsonify [("on"%string, JBool true);
                  ("url"%string, JStr "http://cam:8080/hls/stream.m3u8")]), hls_running).
Proof.
  split; [apply hls_running_reachable|].
  exact (poll_reports_running_session "cam" "HLS" hls_running hls_running_reachable).
Defined.

Lemma lower_ascii_idempotent c : lower_ascii (lower_ascii c) = lower_ascii c.
Proof. destruct c as [[] [] [] [] [] [] [] []]; reflexivity. Qed.

Lemma lower_idempotent s : lower (lower s) = lower s.
Proof.
  induction s as [|c r IH]; cbn; [reflexivity|].
  now rewrite lower_ascii_idempotent, IH.
Qed.

(** The protocol and the axis of a request path are matched without
    regard to case: a request is served exactly as the request with the
    lower-cased name. *)
Theorem path_names_ignore_case :
  forall (E : env) (io : servo_io) (host name view option_ : string) (url : text) (on : bool)
         (angle0 mr xr mm xm : option pynum) (w : world) (d : device),
    serve E (StreamGet host name) w = serve E (StreamGet host (lower name)) w /\
    serve E (StreamPost host name on view url) w =
      serve E (StreamPost host (lower name) on view url) w /\
    motion_GET io name d = motion_GET io (lower name) d /\
    motion_POST io name angle0 option_ d = motion_POST io (lower name) angle0 option_ d /\
    motion_limit_GET name d = motion_limit_GET (lower name) d /\
    motion_limit_POST io name mr xr mm xm d = motion_limit_POST io (lower name) mr xr mm xm d.
Proof.
  intros. unfold serve, stream_control_GET, stream_control_POST, motion_GET, motion_POST,
    motion_limit_GET, motion_limit_POST.
  rewrite !lower_idempotent. repeat split; reflexivity.
Qed.

(** X5.  Switching the camera off while it is on stops every session
    first, then drives the camera pin low, then pulses the hub pin low and
    high; afterwards the registry is empty and no process is left. *)
Theorem power_off_stops_streams :
  forall (E : env) (w : world),
    reachable w ->
    CAM_POWER (now w) = true ->
    let w' := snd (serve E (PowerPost false) w) in
    fst (serve E (PowerPost false) w) =
      jsonify [("status"%string, JStr "ok"); ("on"%string, JBool false)] /\
    PIPELINES (now w') = [] /\ live (now w') = [] /\ CAM_POWER (now w') = false /\
    exists stops,
      forallb is_stop stops = true /\
      log w' = GpioWrite HUB_GPIO_PIN true :: GpioWrite HUB_GPIO_PIN false ::
               GpioWrite CAMERA_GPIO_PIN false :: stops ++ log w.
Proof.
  intros E w Hr Hon.
  destruct (stop_all_spec E w) as (w1 & R & S & D & L & A).
  pose proof (reachable_single_stream w Hr) as [Hs _]. specialize (L Hs).
  cbn zeta. unfold serve, camera_power_POST, bind, gets. rewrite Hon. cbn [andb negb].
  rewrite R. unfold CAM_POWER_write, bind, gets, step_to, emit, ret. cbn.
  destruct S as (_ & (stops & Hl & Hstops) & _).
  repeat split; try assumption.
  exists stops. now rewrite Hl.
Qed.

Lemma power_off_stops_streams_witness :
  reachable hls_running /\ CAM_POWER (now hls_running) = true /\
  let w' := snd (serve always_graceful (PowerPost false) hls_running) in
  fst (serve always_graceful (PowerPost false) hls_running) =
    jsonify [("status"%string, JStr "ok"); ("on"%string, JBool false)] /\
  PIPELINES (now w') = [] /\ live (now w') = [] /\ CAM_POWER (now w') = false /\
  exists stops,
    forallb is_stop stops = true /\
    log w' = GpioWrite HUB_GPIO_PIN true :: GpioWrite HUB_GPIO_PIN false ::
             GpioWrite CAMERA_GPIO_PIN false :: stops ++ log hls_running.
Proof.
  split; [apply hls_running_reachable|]. split; [reflexivity|].
  apply (power_off_stops_streams always_graceful hls_running hls_running_reachable).
  reflexivity.
Defined.

(** X6.  A power request that does not switch a powered camera off
    (switching on, or off when already off) writes the camera pin once and
    does nothing else: no session is stopped and the hub pin is not
    touched. *)
Theorem power_write_keeps_streams :
  forall (E : env) (on : bool) (w : world),
    CAM_POWER (now w) = false \/ on = true ->
    let w' := snd (serve E (PowerPost on) w) in
    fst (serve E (PowerPost on) w) =
      jsonify [("status"%string, JStr "ok"); ("on"%string, JBool on)] /\
    PIPELINES (now w') = PIPELINES (now w) /\ live (now w') = live (now w) /\
    CAM_POWER (now w') = on /\
    log w' = GpioWrite CAMERA_GPIO_PIN on :: log w.
Proof.
  intros E on w H. cbn zeta.
  unfold serve, camera_power_POST, bind, gets.
  assert (Hb : (CAM_POWER (now w) && negb on)%bool = false).
  { destruct H as [-> | ->]; [reflexivity|]. apply andb_false_r. }
  rewrite Hb. unfold CAM_POWER_write, bind, gets, step_to, emit, ret. cbn. auto.
Qed.

Lemma power_write_keeps_streams_witness :
  (CAM_POWER (now hls_running) = false \/ true = true) /\
  let w' := snd (serve always_graceful (PowerPost true) hls_running) in
  fst (serve always_graceful (PowerPost true) hls_running) =
    jsonify [("status"%string, JStr "ok"); ("on"%string, JBool true)] /\
  PIPELINES (now w') = PIPELINES (now hls_running) /\ live (now w') = live (now hls_running) /\
  CAM_POWER (now w') = true /\
  log w' = GpioWrite CAMERA_GPIO_PIN true :: log hls_running.
Proof.
  split; [now right|].
  apply (power_write_keeps_streams always_graceful true hls_running). now right.
Defined.

Lemma dict_get_remove_same k d : dict_get k (dict_remove k d) = None.
Proof.
  induction d as [|[k' v] r IH]; cbn; [reflexivity|].
  destruct (String.eqb k k') eqn:Ek; [assumption|]. cbn. now rewrite Ek.
Qed.

(** X7.  After a stop request for a protocol, a poll of that protocol
    answers [on: false], whatever the state before and however the
    process reacted. *)
Theorem stopped_protocol_polls_off :
  forall (E E' : env) (host host' P view : string) (url : text) (w : world),
    fst (serve E' (StreamGet host' P) (snd (serve E (StreamPost host P false view url) w))) =
      jsonify [("on"%string, JBool false)].
Proof.
  intros. destruct (stop_pipeline_spec E (lower P) w) as (w1 & H1 & _ & H2 & _).
  unfold serve at 2. unfold stream_control_POST. rewrite H1.
  assert (Hw : PIPELINES (now (snd
      (let '(res, w2) :=
         (if (String.eqb (lower P) "hls" && false)%bool
          then (Ok (jsonify [("status"%string, JStr "ok");
                   ("url"%string, JStr ("http://" ++ host ++ ":" ++ str_of_Z FLASK_PORT ++ "/hls/stream.m3u8")%string)]), w1)
          else if (String.eqb (lower P) "rtsp" && false)%bool
          then (Ok (jsonify [("status"%string, JStr "ok");
                   ("url"%string, JStr ("rtsp://" ++ host ++ ":8554/test")%string)]), w1)
          else (Ok (jsonify [("status"%string, JStr "ok")]), w1)) in
       (try_except res (fun _ => internal_server_error), w2)))) = dict_remove (lower P) (PIPELINES (now w))).
  { rewrite !andb_false_r. exact H2. }
  unfold serve, stream_control_GET, bind, gets. rewrite Hw, dict_get_remove_same. reflexivity.
Qed.

(** X8.  A session whose process has exited is not started again by a
    start request: the request is answered [ok], the state stays the same
    and a poll still answers [on: false]. *)
Theorem exited_stream_is_not_restarted :
  forall (E : env) (host P view : string) (url : text) (h : handle) (w : world),
    dict_get (lower P) (PIPELINES (now w)) = Some h ->
    existsb (Nat.eqb h) (live (now w)) = false ->
    let resp := fst (serve E (StreamPost host P true view url) w) in
    let w' := snd (serve E (StreamPost host P true view url) w) in
    w' = w /\ code resp = 200 /\ field "status" (body resp) = Some (JStr "ok") /\
    fst (serve E (StreamGet host P) w') = jsonify [("on"%string, JBool false)].
Proof.
  intros E host P view url h w G L. cbn zeta.
  assert (Hrun : _start_pipeline E (lower P) view url w = (Ok tt, w)).
  { apply start_noop. unfold dict_contains. now rewrite G. }
  assert (Hpost : exists resp, serve E (StreamPost host P true view url) w = (resp, w) /\
                    code resp = 200 /\ field "status" (body resp) = Some (JStr "ok")).
  { unfold serve, stream_control_POST. rewrite Hrun.
    destruct (String.eqb (lower P) "hls"); cbn; [eexists; repeat split|].
    destruct (String.eqb (lower P) "rtsp"); cbn; eexists; repeat split. }
  destruct Hpost as (resp & -> & Hc & Hf). cbn [fst snd].
  repeat split; try assumption.
  unfold serve, stream_control_GET, poll_is_None, bind, gets, ret. rewrite G. cbv beta.
  now rewrite L.
Qed.

Lemma exited_stream_is_not_restarted_witness :
  dict_get (lower "hls") (PIPELINES (now hls_crashed)) = Some 0%nat /\
  existsb (Nat.eqb 0%nat) (live (now hls_crashed)) = false /\
  let resp := fst (serve always_graceful (StreamPost "cam" "hls" true "yolo" []) hls_crashed) in
  let w' := snd (serve always_graceful (StreamPost "cam" "hls" true "yolo" []) hls_crashed) in
  w' = hls_crashed /\ code resp = 200 /\ field "status" (body resp) = Some (JStr "ok") /\
  fst (serve always_graceful (StreamGet "cam" "hls") w') = jsonify [("on"%string, JBool false)].
Proof.
  split; [reflexivity|]. split; [reflexivity|].
  apply (exited_stream_is_not_restarted always_graceful "cam" "hls" "yolo" [] 0%nat hls_crashed);
    reflexivity.
Defined.

(* ===================================================================== *)
(** * Further properties of the motion controller                         *)
(* ===================================================================== *)

(** A request for an axis that is neither [pan] nor [tilt] is answered
    with status 404 by the four motion handlers; nothing is sent to the
    bus and nothing is stored. *)
Lemma unknown_axis_is_not_found io axis0 option_ angle0 mr xr mm xm d :
  axis_of_string (lower axis0) = None ->
  motion_GET io axis0 d = (not_found, d) /\
  motion_POST io axis0 angle0 option_ d = (Ok not_found, d) /\
  motion_limit_GET axis0 d = Ok not_found /\
  motion_limit_POST io axis0 mr xr mm xm d = (Ok not_found, d).
Proof.
  intros H.
  unfold motion_GET, motion_POST, motion_limit_GET, motion_limit_POST. rewrite H. auto.
Qed.

Lemma motion_limit_POST_device io axis0 mr xr mm xm d :
  let d' := snd (motion_limit_POST io axis0 mr xr mm xm d) in
  d' = d \/
  exists a lo hi,
    axis_of_string (lower axis0) = Some a /\
    normalized_limits (axis_calibration (DEVICE_CONFIG d) a) (get_axis a (SERVO_LIMITS d))
      mr xr mm xm = Ok (lo, hi) /\
    if servo_present d a
    then d' = send (SetAngleLimits a lo hi) (store_limits a (lo, hi) d)
    else d' = store_limits a (lo, hi) d.
Proof.
  unfold motion_limit_POST. cbv zeta.
  destruct (axis_of_string (lower axis0)) as [a|]; [|now left].
  destruct (normalized_limits _ _ mr xr mm xm) as [[lo hi]|e] eqn:N; [|now left].
  right. exists a, lo, hi. split; [reflexivity|]. split; [exact N|].
  destruct (servo_present d a); cbn [fst snd].
  - now destruct (set_angle_limits io lo hi).
  - reflexivity.
Qed.

(** X9.  When the servo of a valid axis is missing, the motion route
    answers 404 and sends nothing, while a limit update still stores the
    normalized limits, without sending anything to the bus. *)
Theorem missing_servo_stores_limits_only :
  forall (io : servo_io) (axis0 option_ : string) (angle0 mr xr mm xm : option pynum)
         (d : device) (a : axis),
    axis_of_string (lower axis0) = Some a ->
    servo_present d a = false ->
    motion_GET io axis0 d = (not_found, d) /\
    motion_POST io axis0 angle0 option_ d = (Ok not_found, d) /\
    let d' := snd (motion_limit_POST io axis0 mr xr mm xm d) in
    sent d' = sent d /\
    match normalized_limits (axis_calibration (DEVICE_CONFIG d) a) (get_axis a (SERVO_LIMITS d))
            mr xr mm xm with
    | Ok lims => get_axis a (SERVO_LIMITS d') = lims
    | Raise _ => d' = d
    end.
Proof.
  intros io axis0 option_ angle0 mr xr mm xm d a Ha Hs.
  unfold motion_GET, motion_POST. rewrite Ha, Hs. cbn [negb]. do 2 (split; [reflexivity|]).
  cbn zeta. split.
  - destruct (motion_limit_POST_device io axis0 mr xr mm xm d) as [->|(a' & lo & hi & Ha' & _ & H)];
      [reflexivity|].
    rewrite Ha in Ha'. injection Ha' as <-. rewrite Hs in H. now rewrite H.
  - exact (motion_limit_POST_store io axis0 mr xr mm xm d a Ha).
Qed.

Lemma missing_servo_stores_limits_only_witness :
  let d := mkDevice DEFAULT_CONFIG false false [] in
  axis_of_string (lower "tilt") = Some tilt /\
  servo_present d tilt = false /\
  motion_GET silent_servo "tilt" d = (not_found, d) /\
  motion_POST silent_servo "tilt" (Some (PyInt 10)) "" d = (Ok not_found, d) /\
  let d' := snd (motion_limit_POST silent_servo "tilt" (Some (PyInt 100)) (Some (PyInt 90)) None None d) in
  sent d' = sent d /\
  match normalized_limits (axis_calibration (DEVICE_CONFIG d) tilt) (get_axis tilt (SERVO_LIMITS d))
          (Some (PyInt 100)) (Some (PyInt 90)) None None with
  | Ok lims => get_axis tilt (SERVO_LIMITS d') = lims
  | Raise _ => d' = d
  end.
Proof.
  split; [reflexivity|]. split; [reflexivity|].
  apply (missing_servo_stores_limits_only silent_servo "tilt" "" (Some (PyInt 10))
           (Some (PyInt 100)) (Some (PyInt 90)) None None
           (mkDevice DEFAULT_CONFIG false false []) tilt); reflexivity.
Defined.

(** X10.  When the stored limits of an axis are out of order (the upper
    one below the lower one), every move is sent to the lower limit,
    whatever angle was asked for. *)
Theorem inverted_limits_pin_to_minimum :
  forall (io : servo_io) (axis0 option_ : string) (angle0 : option pynum) (d : device)
         (a : axis) (angle servo_angle min_limit max_limit : Z),
    axis_of_string (lower axis0) = Some a ->
    servo_present d a = true ->
    py_int (or_default angle0 (PyInt 0)) = Ok angle ->
    servo_target (axis_calibration (DEVICE_CONFIG d) a) angle option_ = Ok servo_angle ->
    get_axis a (SERVO_LIMITS d) = (min_limit, max_limit) ->
    max_limit < min_limit ->
    exists move_time,
      sent (snd (motion_POST io axis0 angle0 option_ d)) =
        Move a min_limit move_time :: ReadAngle a :: sent d.
Proof.
  intros io axis0 option_ angle0 d a angle servo_angle lo hi Ha Hs Hi Ht Hl Hinv.
  rewrite (motion_POST_run io axis0 angle0 option_ d a angle servo_angle Ha Hs Hi Ht).
  rewrite Hl. cbn [fst snd]. eexists.
  replace (clamp lo hi servo_angle) with lo by (unfold clamp; lia).
  reflexivity.
Qed.

Lemma inverted_limits_pin_to_minimum_witness :
  let d := mkDevice (mkConfig (mkPerAxis (200, 100) (80, 165)) (servo_map DEFAULT_CONFIG))
                    true true [] in
  axis_of_string (lower "pan") = Some pan /\
  servo_present d pan = true /\
  py_int (or_default (Some (PyInt 10)) (PyInt 0)) = Ok 10 /\
  servo_target (axis_calibration (DEVICE_CONFIG d) pan) 10 "" = Ok 110 /\
  get_axis pan (SERVO_LIMITS d) = (200, 100) /\
  100 < 200 /\
  exists move_time,
    sent (snd (motion_POST (steady_servo 120) "pan" (Some (PyInt 10)) "" d)) =
      Move pan 200 move_time :: ReadAngle pan :: sent d.
Proof.
  cbv zeta. do 5 (split; [reflexivity|]). split; [lia|].
  apply (inverted_limits_pin_to_minimum (steady_servo 120) "pan" "" (Some (PyInt 10))
           (mkDevice (mkConfig (mkPerAxis (200, 100) (80, 165)) (servo_map DEFAULT_CONFIG))
                     true true [])
           pan 10 110 200 100); (reflexivity || lia).
Defined.

Lemma direction_quotients_checked :
  forallb (fun n => forallb (direction_quotient_exact n) [1; -1]) differences = true.
Proof. vm_compute. reflexivity. Qed.

Lemma degrees_exact_checked : forallb degree_exact degrees = true.
Proof. vm_compute. reflexivity. Qed.

Lemma Z2F_div_direction n zd :
  -240 <= n <= 240 -> zd = 1 \/ zd = -1 ->
  py_eq (PyFloat (Z2F n / Z2F zd)) (PyInt (n * zd)) = true.
Proof.
  intros Hn Hd. pose proof direction_quotients_checked as H.
  rewrite forallb_forall in H. specialize (H n (in_differences n Hn)).
  rewrite forallb_forall in H.
  assert (Hin : In zd [1; -1]) by (destruct Hd as [-> | ->]; cbn; auto).
  exact (H zd Hin).
Qed.

Lemma exact_Z2F_degree x : 0 <= x <= 240 -> exact (PyFloat (Z2F x)) = Some (x * K).
Proof.
  intros Hx. pose proof degrees_exact_checked as H.
  rewrite forallb_forall in H. specialize (H x (in_degrees x Hx)). unfold degree_exact in H.
  destruct (exact (PyFloat (Z2F x))) as [n|]; [|discriminate].
  apply Z.eqb_eq in H. now subst.
Qed.

Lemma motion_GET_config io axis0 d :
  DEVICE_CONFIG (snd (motion_GET io axis0 d)) = DEVICE_CONFIG d /\
  SERVO_PAN (snd (motion_GET io axis0 d)) = SERVO_PAN d /\
  SERVO_TILT (snd (motion_GET io axis0 d)) = SERVO_TILT d /\
  (sent (snd (motion_GET io axis0 d)) = sent d \/
   exists a, sent (snd (motion_GET io axis0 d)) = ReadAngle a :: sent d).
Proof.
  unfold motion_GET. destruct (axis_of_string (lower axis0)) as [a|]; [|cbn; auto].
  destruct (servo_present d a); cbn; eauto 6.
Qed.

Lemma motion_POST_config io axis0 angle0 option_ d :
  let d' := snd (motion_POST io axis0 angle0 option_ d) in
  DEVICE_CONFIG d' = DEVICE_CONFIG d /\ SERVO_PAN d' = SERVO_PAN d /\ SERVO_TILT d' = SERVO_TILT d /\
  (sent d' = sent d \/
   exists a servo_angle t,
     sent d' = Move a (clamp (fst (get_axis a (SERVO_LIMITS d))) (snd (get_axis a (SERVO_LIMITS d)))
                             servo_angle) t :: ReadAngle a :: sent d).
Proof.
  cbv zeta.
  destruct (axis_of_string (lower axis0)) as [a|] eqn:Ha.
  2:{ unfold motion_POST. rewrite Ha. cbn. auto. }
  destruct (servo_present d a) eqn:Hs.
  2:{ unfold motion_POST. rewrite Ha, Hs. cbn. auto. }
  destruct (py_int (or_default angle0 (PyInt 0))) as [angle|] eqn:Hi.
  2:{ unfold motion_POST. rewrite Ha, Hs, Hi. cbn. auto. }
  destruct (servo_target (axis_calibration (DEVICE_CONFIG d) a) angle option_)
    as [servo_angle|] eqn:Ht.
  2:{ unfold motion_POST. rewrite Ha, Hs, Hi. cbn [negb]. rewrite Ht. cbn. auto. }
  rewrite (motion_POST_run io axis0 angle0 option_ d a angle servo_angle Ha Hs Hi Ht).
  cbn. repeat split. right. eauto.
Qed.

(** X11.  With a whole-degree centre, a direction of -1 or +1 and scale 1,
    a move to a logical angle whose target lies inside the limits is sent
    to [centre + direction * angle]; once the servo stands there, the
    angle read back is a float equal to the angle that was asked for. *)
Theorem commanded_angle_is_read_back :
  forall (io io' : servo_io) (axis0 option_ : string) (d : device) (a : axis)
         (zc zd angle lo hi : Z),
    axis_of_string (lower axis0) = Some a ->
    servo_present d a = true ->
    axis_calibration (DEVICE_CONFIG d) a = mkCalibration (PyInt zc) (PyInt zd) (PyInt 1) ->
    0 <= zc <= 240 -> zd = 1 \/ zd = -1 ->
    String.eqb option_ "raw" = false ->
    get_axis a (SERVO_LIMITS d) = (lo, hi) ->
    0 <= lo -> hi <= 240 -> lo <= zc + zd * angle <= hi ->
    get_physical_angle io' = Ok (Z2F (zc + zd * angle)) ->
    let d1 := snd (motion_POST io axis0 (Some (PyInt angle)) option_ d) in
    (exists move_time,
       sent d1 = Move a (zc + zd * angle) move_time :: ReadAngle a :: sent d) /\
    exists mapped_angle,
      py_eq mapped_angle (PyInt angle) = true /\
      fst (motion_GET io' axis0 d1) =
        jsonify [("angle"%string, JNum mapped_angle);
                 ("physical_angle"%string, JNum (PyFloat (Z2F (zc + zd * angle))));
                 ("axis"%string, JStr (axis_name a))].
Proof.
  intros io io' axis0 option_ d a zc zd angle lo hi Ha Hs Hc Hzc Hzd Ho Hl Hlo Hhi Ht Hread.
  assert (Htarget : servo_target (axis_calibration (DEVICE_CONFIG d) a) angle option_ =
                    Ok (zc + zd * angle)).
  { unfold servo_target. rewrite Ho, Hc. cbn. now rewrite Z.mul_1_r. }
  pose proof (motion_POST_config io axis0 (Some (PyInt angle)) option_ d) as (Hcfg & Hp & Htl & _).
  cbv zeta in Hcfg, Hp, Htl. cbv zeta. split.
  - rewrite (motion_POST_run io axis0 (Some (PyInt angle)) option_ d a angle (zc + zd * angle)
               Ha Hs eq_refl Htarget).
    rewrite Hl. cbn [fst snd]. eexists.
    replace (clamp lo hi (zc + zd * angle)) with (zc + zd * angle) by (unfold clamp; lia).
    reflexivity.
  - unfold motion_GET. rewrite Ha.
    assert (Hs1 : servo_present (snd (motion_POST io axis0 (Some (PyInt angle)) option_ d)) a = true).
    { unfold servo_present in *. destruct a; congruence. }
    rewrite Hs1, Hcfg, Hc, Hread. cbn [negb center direction scale rbind fst].
    cbn [py_sub py_arith py_float rbind].
    destruct (Z2F_degree zc Hzc) as [Hfc _]. rewrite Hfc. cbn [rbind py_mul py_arith].
    rewrite Z.mul_1_r. cbn [py_truediv py_float rbind].
    assert (Hfd : int_to_float zd = Ok (Z2F zd))
      by (destruct Hzd as [-> | ->]; vm_compute; reflexivity).
    rewrite Hfd. cbn [rbind].
    assert (Hnz : is_zero (Z2F zd) = false)
      by (destruct Hzd as [-> | ->]; vm_compute; reflexivity).
    rewrite Hnz. cbn [try_except].
    rewrite (Z2F_sub zc (zc + zd * angle)) by lia.
    eexists. split; [|reflexivity].
    replace angle with ((zc + zd * angle - zc) * zd) at 2 by (destruct Hzd as [-> | ->]; lia).
    apply Z2F_div_direction; [lia | assumption].
Qed.

Lemma commanded_angle_is_read_back_witness :
  axis_of_string (lower "pan") = Some pan /\
  servo_present default_device pan = true /\
  axis_calibration (DEVICE_CONFIG default_device) pan =
    mkCalibration (PyInt 120) (PyInt (-1)) (PyInt 1) /\
  0 <= 120 <= 240 /\ (-1 = 1 \/ -1 = -1) /\
  String.eqb "" "raw" = false /\
  get_axis pan (SERVO_LIMITS default_device) = (30, 210) /\
  0 <= 30 /\ 210 <= 240 /\ 30 <= 120 + -1 * 45 <= 210 /\
  get_physical_angle (steady_servo 75) = Ok (Z2F (120 + -1 * 45)) /\
  let d1 := snd (motion_POST (steady_servo 120) "pan" (Some (PyInt 45)) "" default_device) in
  (exists move_time,
     sent d1 = Move pan (120 + -1 * 45) move_time :: ReadAngle pan :: sent default_device) /\
  exists mapped_angle,
    py_eq mapped_angle (PyInt 45) = true /\
    fst (motion_GET (steady_servo 75) "pan" d1) =
      jsonify [("angle"%string, JNum mapped_angle);
               ("physical_angle"%string, JNum (PyFloat (Z2F (120 + -1 * 45))));
               ("axis"%string, JStr (axis_name pan))].
Proof.
  do 3 (split; [reflexivity|]). split; [lia|]. split; [now right|].
  do 2 (split; [reflexivity|]). do 3 (split; [lia|]).
  split; [vm_compute; reflexivity|].
  apply (commanded_angle_is_read_back (steady_servo 120) (steady_servo 75) "pan" ""
           default_device pan 120 (-1) 45 30 210);
    try reflexivity; try lia; try (now right).
Defined.

(* ===================================================================== *)
(** * Further properties of the limit route                               *)
(* ===================================================================== *)

Lemma axis_calibration_store a b lims d :
  axis_calibration (DEVICE_CONFIG (store_limits b lims d)) a = axis_calibration (DEVICE_CONFIG d) a.
Proof. reflexivity. Qed.

Lemma get_axis_set_same {A : Type} a (v : A) p : get_axis a (set_axis a v p) = v.
Proof. now destruct a. Qed.

Lemma get_axis_set_other {A : Type} a b (v : A) p :
  a <> b -> get_axis b (set_axis a v p) = get_axis b p.
Proof. destruct a, b; intros H; try reflexivity; now destruct H. Qed.

(** X12.  A limit update that is answered with status 200 is read back by
    the next [GET] of the same axis: the answer of the [GET] has the
    fields of the update's answer, the status apart. *)
Theorem limit_update_is_read_back :
  forall (io : servo_io) (axis0 : string) (mr xr mm xm : option pynum) (d : device)
         (resp : response),
    fst (motion_limit_POST io axis0 mr xr mm xm d) = Ok resp ->
    code resp = 200 ->
    exists resp',
      motion_limit_GET axis0 (snd (motion_limit_POST io axis0 mr xr mm xm d)) = Ok resp' /\
      code resp' = 200 /\
      body resp = ("status"%string, JStr "ok") :: body resp'.
Proof.
  intros io axis0 mr xr mm xm d resp. unfold motion_limit_POST, motion_limit_GET.
  destruct (axis_of_string (lower axis0)) as [a|]; [|intros [= <-]; discriminate].
  cbv zeta.
  destruct (normalized_limits _ _ mr xr mm xm) as [[lo hi]|e]; [|discriminate].
  assert (Hd : forall d', d' = store_limits a (lo, hi) d \/
                          d' = send (SetAngleLimits a lo hi) (store_limits a (lo, hi) d) ->
               axis_calibration (DEVICE_CONFIG d') a = axis_calibration (DEVICE_CONFIG d) a /\
               get_axis a (SERVO_LIMITS d') = (lo, hi)).
  { intros d' [-> | ->]; (split; [reflexivity|]); unfold SERVO_LIMITS, store_limits; cbn;
      apply get_axis_set_same. }
  destruct (servo_present d a); cbn [fst snd].
  - destruct (set_angle_limits io lo hi); [|discriminate]. cbn [fst snd].
    destruct (Hd _ (or_intror eq_refl)) as [-> ->].
    destruct (mapped_limits _ lo hi) as [[m1 m2]|]; [|discriminate].
    cbn. intros [= <-] _. eexists. repeat split.
  - destruct (Hd _ (or_introl eq_refl)) as [-> ->].
    destruct (mapped_limits _ lo hi) as [[m1 m2]|]; [|discriminate].
    cbn. intros [= <-] _. eexists. repeat split.
Qed.

Lemma limit_update_is_read_back_witness :
  let post := motion_limit_POST (steady_servo 120) "pan" (Some (PyInt 40)) None None
                (Some (PyInt 60)) default_device in
  exists resp,
    fst post = Ok resp /\ code resp = 200 /\
    exists resp',
      motion_limit_GET "pan" (snd post) = Ok resp' /\
      code resp' = 200 /\
      body resp = ("status"%string, JStr "ok") :: body resp'.
Proof.
  cbv zeta. eexists. split; [vm_compute; reflexivity|]. split; [reflexivity|].
  apply (limit_update_is_read_back (steady_servo 120) "pan" (Some (PyInt 40)) None None
           (Some (PyInt 60)) default_device); vm_compute; reflexivity.
Defined.

Example limit_update_answer :
  fst (motion_limit_POST (steady_servo 120) "pan" (Some (PyInt 40)) None None
         (Some (PyInt 60)) default_device) =
  Ok (jsonify [("status"%string, JStr "ok");
               ("min"%string, JNum (PyFloat 60)); ("max"%string, JNum (PyFloat 80));
               ("min_raw"%string, JNum (PyInt 40)); ("max_raw"%string, JNum (PyInt 60))]).
Proof. vm_compute. reflexivity. Qed.

(** X13.  A limit update changes nothing but the limits of the axis it
    names: the limits of the other axis, the calibration map and the
    servo objects stay, and at most one command goes to the bus, the
    limits of that axis. *)
Theorem limit_update_touches_one_axis :
  forall (io : servo_io) (axis0 : string) (mr xr mm xm : option pynum) (d : device),
    let d' := snd (motion_limit_POST io axis0 mr xr mm xm d) in
    servo_map (DEVICE_CONFIG d') = servo_map (DEVICE_CONFIG d) /\
    SERVO_PAN d' = SERVO_PAN d /\ SERVO_TILT d' = SERVO_TILT d /\
    (forall b, axis_of_string (lower axis0) <> Some b ->
       get_axis b (SERVO_LIMITS d') = get_axis b (SERVO_LIMITS d)) /\
    (sent d' = sent d \/
     exists a, axis_of_string (lower axis0) = Some a /\
       sent d' = SetAngleLimits a (fst (get_axis a (SERVO_LIMITS d')))
                                  (snd (get_axis a (SERVO_LIMITS d'))) :: sent d).
Proof.
  intros io axis0 mr xr mm xm d. cbv zeta.
  destruct (motion_limit_POST_device io axis0 mr xr mm xm d) as [->|(a & lo & hi & Ha & _ & H)].
  { repeat split; auto. }
  assert (Hframe : forall b, axis_of_string (lower axis0) <> Some b ->
            get_axis b (set_axis a (lo, hi) (servo_limits (DEVICE_CONFIG d))) =
            get_axis b (servo_limits (DEVICE_CONFIG d))).
  { intros b Hb. apply get_axis_set_other. intros ->. now rewrite Ha in Hb. }
  destruct (servo_present d a); rewrite H; unfold SERVO_LIMITS; cbn; repeat split; auto.
  right. exists a. split; [assumption|]. now rewrite get_axis_set_same.
Qed.

Lemma clamp_servo_range_exact_id v n :
  exact v = Some n -> 0 <= n <= 240 * K -> exact (clamp_servo_range v) = Some n.
Proof.
  intros Hv Hn. assert (Hk := K_pos). unfold clamp_servo_range, py_max, py_min, py_gt.
  assert (H240 : exact (PyInt 240) = Some (240 * K)) by reflexivity.
  assert (H0 : exact (PyInt 0) = Some (0 * K)) by reflexivity.
  rewrite (py_lt_exact _ _ _ _ Hv H240).
  destruct (n <? 240 * K) eqn:E1.
  - rewrite (py_lt_exact _ _ _ _ H0 Hv). destruct (0 * K <? n) eqn:E2; [assumption|].
    apply Z.ltb_ge in E2. cbn [exact]. f_equal. lia.
  - apply Z.ltb_ge in E1. rewrite (py_lt_exact _ _ _ _ H0 H240).
    destruct (0 * K <? 240 * K) eqn:E2.
    + cbn [exact]. f_equal. lia.
    + apply Z.ltb_ge in E2. lia.
Qed.

(** X14.  Raw bounds that are whole degrees, in order and inside the servo
    range are stored as they are, whatever the calibration and whatever
    logical bounds come with them: posting the stored limits again changes
    nothing. *)
Theorem in_range_raw_limits_are_kept :
  forall (io : servo_io) (axis0 : string) (a : axis) (lo hi : Z) (mm xm : option pynum)
         (d : device),
    axis_of_string (lower axis0) = Some a ->
    0 <= lo -> lo <= hi -> hi <= 240 ->
    get_axis a (SERVO_LIMITS
      (snd (motion_limit_POST io axis0 (Some (PyInt lo)) (Some (PyInt hi)) mm xm d))) = (lo, hi).
Proof.
  intros io axis0 a lo hi mm xm d Ha Hlo Hle Hhi. assert (Hk := K_pos).
  pose proof (motion_limit_POST_store io axis0 (Some (PyInt lo)) (Some (PyInt hi)) mm xm d a Ha) as H.
  cbv zeta in H.
  destruct (normalized_limits_spec (axis_calibration (DEVICE_CONFIG d) a)
              (get_axis a (SERVO_LIMITS d)) (Some (PyInt lo)) (Some (PyInt hi)) mm xm)
    as [(e & _ & [R|R])|(x & y & na & nb & Rx & Ry & Ex & _ & Ey & _ & R)].
  - cbn in R. destruct (Z2F_degree lo ltac:(lia)) as [Hf _]. rewrite Hf in R. discriminate.
  - cbn in R. destruct (Z2F_degree hi ltac:(lia)) as [Hf _]. rewrite Hf in R. discriminate.
  - cbn in Rx, Ry.
    destruct (Z2F_degree lo ltac:(lia)) as [Hfl _]. destruct (Z2F_degree hi ltac:(lia)) as [Hfh _].
    rewrite Hfl in Rx. rewrite Hfh in Ry. cbn in Rx, Ry.
    injection Rx as <-. injection Ry as <-.
    rewrite (clamp_servo_range_exact_id _ (lo * K)) in Ex
      by (try apply exact_Z2F_degree; nia).
    rewrite (clamp_servo_range_exact_id _ (hi * K)) in Ey
      by (try apply exact_Z2F_degree; nia).
    injection Ex as <-. injection Ey as <-.
    rewrite R in H.
    replace (hi * K <? lo * K) with false in H by (symmetry; apply Z.ltb_ge; nia).
    rewrite andb_false_r, !Z.quot_mul in H by lia. exact H.
Qed.

Lemma in_range_raw_limits_are_kept_witness :
  axis_of_string (lower "tilt") = Some tilt /\ 0 <= 90 /\ 90 <= 150 /\ 150 <= 240 /\
  get_axis tilt (SERVO_LIMITS
    (snd (motion_limit_POST silent_servo "tilt" (Some (PyInt 90)) (Some (PyInt 150))
            (Some (PyInt 7)) None default_device))) = (90, 150).
Proof.
  split; [reflexivity|]. do 3 (split; [lia|]).
  apply (in_range_raw_limits_are_kept silent_servo "tilt" tilt 90 150 (Some (PyInt 7)) None
           default_device); (reflexivity || lia).
Defined.

(** X15.  When the bus rejects the new limits, the exception escapes the
    handler, but the limits have been stored already. *)
Theorem rejected_limit_command_keeps_new_limits :
  forall (io : servo_io) (axis0 : string) (mr xr mm xm : option pynum) (d : device)
         (a : axis) (lo hi : Z) (e : exn),
    axis_of_string (lower axis0) = Some a ->
    servo_present d a = true ->
    normalized_limits (axis_calibration (DEVICE_CONFIG d) a) (get_axis a (SERVO_LIMITS d))
      mr xr mm xm = Ok (lo, hi) ->
    set_angle_limits io lo hi = Raise e ->
    fst (motion_limit_POST io axis0 mr xr mm xm d) = Raise e /\
    get_axis a (SERVO_LIMITS (snd (motion_limit_POST io axis0 mr xr mm xm d))) = (lo, hi) /\
    sent (snd (motion_limit_POST io axis0 mr xr mm xm d)) = SetAngleLimits a lo hi :: sent d.
Proof.
  intros io axis0 mr xr mm xm d a lo hi e Ha Hs Hn He.
  unfold motion_limit_POST. rewrite Ha. cbv zeta. rewrite Hn, Hs. cbn [fst snd].
  rewrite He. cbn. repeat split. unfold SERVO_LIMITS. cbn. apply get_axis_set_same.
Qed.

Lemma rejected_limit_command_keeps_new_limits_witness :
  axis_of_string (lower "pan") = Some pan /\
  servo_present default_device pan = true /\
  normalized_limits (axis_calibration (DEVICE_CONFIG default_device) pan)
    (get_axis pan (SERVO_LIMITS default_device)) (Some (PyInt 50)) None None None = Ok (50, 210) /\
  set_angle_limits silent_servo 50 210 = Raise ServoTimeoutError /\
  let post := motion_limit_POST silent_servo "pan" (Some (PyInt 50)) None None None default_device in
  fst post = Raise ServoTimeoutError /\
  get_axis pan (SERVO_LIMITS (snd post)) = (50, 210) /\
  sent (snd post) = SetAngleLimits pan 50 210 :: sent default_device.
Proof.
  do 2 (split; [reflexivity|]). split; [vm_compute; reflexivity|]. split; [reflexivity|].
  apply (rejected_limit_command_keeps_new_limits silent_servo "pan" (Some (PyInt 50)) None None None
           default_device pan 50 210 ServoTimeoutError);
    reflexivity.
Defined.

Lemma SFcompare_antisym x y : SFcompare y x = option_map CompOpp (SFcompare x y).
Proof.
  destruct x as [sx|sx| |sx mx ex], y as [sy|sy| |sy my ey]; cbn; try reflexivity;
    try (destruct sx; reflexivity); try (destruct sy; reflexivity);
    try (destruct sx, sy; reflexivity).
  destruct sx, sy; try reflexivity; rewrite (Z.compare_antisym ex ey);
    destruct (ex ?= ey); cbn; try reflexivity;
    change (Pos.compare_cont Eq my mx) with (my ?= mx)%positive;
    change (Pos.compare_cont Eq mx my) with (mx ?= my)%positive;
    rewrite (Pos.compare_antisym mx my); now destruct (mx ?= my)%positive.
Qed.

Lemma float_ltb_asym a b : (a <? b)%float = true -> (b <? a)%float = false.
Proof.
  rewrite !ltb_spec. unfold SFltb. rewrite (SFcompare_antisym (Prim2SF a) (Prim2SF b)).
  now destruct (SFcompare (Prim2SF a) (Prim2SF b)) as [[]|].
Qed.

Lemma py_truediv_is_float a b v : py_truediv a b = Ok v -> exists f, v = PyFloat f.
Proof.
  unfold py_truediv.
  assert (Hf : forall fa fb, (if is_zero fb then Raise ZeroDivisionError
                              else Ok (PyFloat (fa / fb))) = Ok v -> exists f, v = PyFloat f).
  { intros fa fb. destruct (is_zero fb); [discriminate|]. intros [= <-]. eauto. }
  destruct a as [x|fa], b as [y|fb]; cbn [py_float rbind].
  - destruct (int_truediv x y); cbn; [intros [= <-]; eauto | discriminate].
  - destruct (int_to_float x); cbn; [apply Hf | discriminate].
  - destruct (int_to_float y); cbn; [apply Hf | discriminate].
  - apply Hf.
Qed.

Lemma mapped_limits_ordered c lo hi m1 m2 :
  mapped_limits c lo hi = Ok (m1, m2) -> py_gt m1 m2 = false.
Proof.
  unfold mapped_limits, physical_to_mapped.
  destruct (py_sub (PyInt lo) (center c)) as [n1|]; [|discriminate].
  destruct (py_mul (direction c) (scale c)) as [den|]; cbn [rbind]; [|discriminate].
  destruct (py_truediv n1 den) as [v1|] eqn:H1; [|discriminate]. cbn [rbind].
  destruct (py_sub (PyInt hi) (center c)) as [n2|]; [|discriminate]. cbn [rbind].
  destruct (py_truediv n2 den) as [v2|] eqn:H2; [|discriminate]. cbn [rbind].
  apply py_truediv_is_float in H1 as [f1 ->]. apply py_truediv_is_float in H2 as [f2 ->].
  destruct (py_gt (PyFloat f1) (PyFloat f2)) eqn:G; intros [= <- <-]; [|assumption].
  unfold py_gt, py_lt in *. now apply float_ltb_asym.
Qed.

(** X16.  The logical bounds that the limit route reports, after a [GET]
    as after an update, are never out of order, whatever the calibration:
    [min > max] is false. *)
Theorem reported_limits_in_order :
  forall (io : servo_io) (axis0 : string) (mr xr mm xm : option pynum) (d : device)
         (resp : response) (m1 m2 : pynum),
    motion_limit_GET axis0 d = Ok resp \/
    fst (motion_limit_POST io axis0 mr xr mm xm d) = Ok resp ->
    field "min" (body resp) = Some (JNum m1) ->
    field "max" (body resp) = Some (JNum m2) ->
    py_gt m1 m2 = false.
Proof.
  intros io axis0 mr xr mm xm d resp m1 m2 H Hmin Hmax.
  assert (Hm : exists c lo hi v1 v2, mapped_limits c lo hi = Ok (v1, v2) /\
                 field "min" (body resp) = Some (JNum v1) /\
                 field "max" (body resp) = Some (JNum v2)).
  { destruct H as [H|H].
    - unfold motion_limit_GET in H.
      destruct (axis_of_string (lower axis0)) as [a|].
      2:{ injection H as <-. discriminate. }
      cbv zeta in H. destruct (get_axis a (SERVO_LIMITS d)) as [lo hi].
      destruct (mapped_limits _ lo hi) as [[v1 v2]|] eqn:M; [|discriminate].
      cbn in H. injection H as <-. cbn. eauto 8.
    - unfold motion_limit_POST in H.
      destruct (axis_of_string (lower axis0)) as [a|].
      2:{ injection H as <-. discriminate. }
      cbv zeta in H.
      destruct (normalized_limits _ _ mr xr mm xm) as [[lo hi]|]; [|discriminate].
      destruct (servo_present d a); cbn [fst snd] in H.
      + destruct (set_angle_limits io lo hi); [|discriminate]. cbn [fst snd] in H.
        destruct (mapped_limits _ lo hi) as [[v1 v2]|] eqn:M; [|discriminate].
        cbn in H. injection H as <-. cbn. eauto 8.
      + destruct (mapped_limits _ lo hi) as [[v1 v2]|] eqn:M; [|discriminate].
        cbn in H. injection H as <-. cbn. eauto 8. }
  destruct Hm as (c & lo & hi & v1 & v2 & M & Hv1 & Hv2).
  rewrite Hv1 in Hmin. rewrite Hv2 in Hmax. injection Hmin as <-. injection Hmax as <-.
  exact (mapped_limits_ordered _ _ _ _ _ M).
Qed.

Lemma reported_limits_in_order_witness :
  (motion_limit_GET "pan" default_device =
     Ok (jsonify [("min"%string, JNum (PyFloat (-90)));
                  ("max"%string, JNum (PyFloat 90));
                  ("min_raw"%string, JNum (PyInt 30));
                  ("max_raw"%string, JNum (PyInt 210))])) /\
  py_gt (PyFloat (-90)) (PyFloat 90) = false.
Proof.
  assert (H : motion_limit_GET "pan" default_device =
     Ok (jsonify [("min"%string, JNum (PyFloat (-90)));
                  ("max"%string, JNum (PyFloat 90));
                  ("min_raw"%string, JNum (PyInt 30));
                  ("max_raw"%string, JNum (PyInt 210))])) by (vm_compute; reflexivity).
  split; [exact H|].
  exact (reported_limits_in_order silent_servo "pan" None None None None default_device _
           (PyFloat (-90)) (PyFloat 90) (or_introl H) eq_refl eq_refl).
Defined.

Lemma axis_calibration_servo_map cfg1 cfg2 a :
  servo_map cfg1 = servo_map cfg2 -> axis_calibration cfg1 a = axis_calibration cfg2 a.
Proof. unfold axis_calibration. now intros ->. Qed.

Lemma serve_motion_invariant io r d :
  limits_in_range d -> signed_directions d -> moves_in_range d ->
  let d' := serve_motion io r d in
  limits_in_range d' /\ signed_directions d' /\ moves_in_range d' /\
  servo_map (DEVICE_CONFIG d') = servo_map (DEVICE_CONFIG d).
Proof.
  intros HL HS HM. cbv zeta. destruct r as [axis0|axis0 angle0 option_|axis0|axis0 mr xr mm xm];
    cbn [serve_motion].
  - destruct (motion_GET_config io axis0 d) as (Hc & _ & _ & Hsent).
    split; [|split; [|split]].
    + intros b. unfold SERVO_LIMITS. rewrite Hc. apply HL.
    + intros b. rewrite Hc. apply HS.
    + intros b x t Hin. destruct Hsent as [Hsent|[b' Hsent]]; rewrite Hsent in Hin.
      * eapply HM; eassumption.
      * destruct Hin as [Hin|Hin]; [discriminate|]. eapply HM; eassumption.
    + now rewrite Hc.
  - destruct (motion_POST_config io axis0 angle0 option_ d) as (Hc & _ & _ & Hsent).
    cbv zeta in Hc, Hsent.
    split; [|split; [|split]].
    + intros b. unfold SERVO_LIMITS. rewrite Hc. apply HL.
    + intros b. rewrite Hc. apply HS.
    + intros b x t Hin. destruct Hsent as [Hsent|(b' & y & t' & Hsent)]; rewrite Hsent in Hin.
      * eapply HM; eassumption.
      * destruct Hin as [Hin|[Hin|Hin]]; [|discriminate|eapply HM; eassumption].
        injection Hin as <- <- <-. destruct (HL b') as (H1 & H2 & H3).
        pose proof (clamp_within _ _ y H2). lia.
    + now rewrite Hc.
  - auto.
  - destruct (motion_limit_POST_device io axis0 mr xr mm xm d)
      as [->|(a & lo & hi & Ha & Hn & H)]; [auto|].
    apply normalized_limits_ordered in Hn; [|apply HS].
    assert (Hd : forall d', d' = store_limits a (lo, hi) d \/
                            d' = send (SetAngleLimits a lo hi) (store_limits a (lo, hi) d) ->
                 limits_in_range d' /\ signed_directions d' /\ moves_in_range d' /\
                 servo_map (DEVICE_CONFIG d') = servo_map (DEVICE_CONFIG d)).
    { intros d' Hd'.
      assert (Hlim : SERVO_LIMITS d' = set_axis a (lo, hi) (SERVO_LIMITS d))
        by (destruct Hd' as [-> | ->]; reflexivity).
      assert (Hmap : servo_map (DEVICE_CONFIG d') = servo_map (DEVICE_CONFIG d))
        by (destruct Hd' as [-> | ->]; reflexivity).
      split; [|split; [|split]].
      - intros b. rewrite Hlim. pose proof (HL pan) as Hp. pose proof (HL tilt) as Ht.
        destruct a, b; cbn in *; lia.
      - intros b. rewrite (axis_calibration_servo_map _ _ b Hmap). apply HS.
      - intros b x t Hin. destruct Hd' as [-> | ->]; cbn in Hin.
        + eapply HM; eassumption.
        + destruct Hin as [Hin|Hin]; [discriminate|]. eapply HM; eassumption.
      - exact Hmap. }
    destruct (servo_present d a); apply Hd; auto.
Qed.

(** X17.  From a device whose limits are in order and inside 0..240 and
    whose directions are below or above zero (so neither zero nor a NaN),
    whatever requests the motion and limit routes serve and whatever the
    bus answers, the limits stay in order and inside 0..240, the
    calibration map stays the same, and every move sent to the bus has
    its target inside 0..240. *)
Theorem servo_stays_in_range :
  forall d0 d : device,
    limits_in_range d0 -> signed_directions d0 -> moves_in_range d0 ->
    motion_run d0 d ->
    limits_in_range d /\ signed_directions d /\ moves_in_range d /\
    servo_map (DEVICE_CONFIG d) = servo_map (DEVICE_CONFIG d0).
Proof.
  intros d0 d HL HS HM Hrun. induction Hrun as [|io r d Hrun IH]; [auto|].
  destruct IH as (L & S & M & Hmap).
  destruct (serve_motion_invariant io r d L S M) as (L' & S' & M' & Hmap').
  split; [assumption|]. split; [assumption|]. split; [assumption|].
  now rewrite Hmap'.
Qed.

Lemma default_device_in_range :
  limits_in_range default_device /\ signed_directions default_device /\
  moves_in_range default_device.
Proof.
  split; [|split].
  - intros []; cbn; lia.
  - intros []; reflexivity.
  - intros a x t [].
Qed.

Lemma servo_stays_in_range_witness :
  let d := serve_motion (steady_servo 120) (MotionPost "pan" (Some (PyInt 500)) "raw")
             (serve_motion silent_servo (LimitPost "pan" None (Some (PyInt 300)) None None)
                default_device) in
  (limits_in_range default_device /\ signed_directions default_device /\
   moves_in_range default_device) /\
  motion_run default_device d /\
  limits_in_range d /\ signed_directions d /\ moves_in_range d /\
  servo_map (DEVICE_CONFIG d) = servo_map (DEVICE_CONFIG default_device).
Proof.
  cbv zeta. split; [exact default_device_in_range|].
  assert (Hrun : motion_run default_device
    (serve_motion (steady_servo 120) (MotionPost "pan" (Some (PyInt 500)) "raw")
       (serve_motion silent_servo (LimitPost "pan" None (Some (PyInt 300)) None None)
          default_device))) by (do 2 apply run_step; apply run_start).
  split; [exact Hrun|].
  destruct default_device_in_range as (L & S & M).
  exact (servo_stays_in_range default_device _ L S M Hrun).
Defined.

(** X18.  With limits in order and inside 0..240, a move is sent with a
    duration of one second for every 15 degrees between the position the
    servo reports (a whole degree in 0..240) and the limited target,
    rounded down to whole milliseconds; when the position cannot be read
    the duration is 1000 ms. *)
Theorem move_time_follows_distance :
  forall (io : servo_io) (axis0 option_ : string) (angle0 : option pynum) (d : device)
         (a : axis) (angle servo_angle min_limit max_limit : Z),
    axis_of_string (lower axis0) = Some a ->
    servo_present d a = true ->
    py_int (or_default angle0 (PyInt 0)) = Ok angle ->
    servo_target (axis_calibration (DEVICE_CONFIG d) a) angle option_ = Ok servo_angle ->
    get_axis a (SERVO_LIMITS d) = (min_limit, max_limit) ->
    0 <= min_limit <= max_limit -> max_limit <= 240 ->
    let limited_angle := clamp min_limit max_limit servo_angle in
    let d' := snd (motion_POST io axis0 angle0 option_ d) in
    min_limit <= limited_angle <= max_limit /\
    match get_physical_angle io with
    | Ok current_angle =>
        forall k, 0 <= k <= 240 -> current_angle = Z2F k ->
          sent d' = Move a limited_angle (1000 * Z.abs (k - limited_angle) / 15)
                      :: ReadAngle a :: sent d
    | Raise _ => sent d' = Move a limited_angle 1000 :: ReadAngle a :: sent d
    end.
Proof.
  intros io axis0 option_ angle0 d a angle servo_angle lo hi Ha Hs Hi Ht Hl Hlo Hhi.
  cbv zeta. split; [unfold clamp; lia|].
  rewrite (motion_POST_run io axis0 angle0 option_ d a angle servo_angle Ha Hs Hi Ht).
  rewrite Hl. cbn [fst snd].
  destruct (get_physical_angle io) as [current_angle|e]; cbn [rbind try_except]; [|reflexivity].
  intros k Hk ->. rewrite move_duration_whole_degrees by (unfold clamp; lia). reflexivity.
Qed.

Lemma move_time_follows_distance_witness :
  let io := steady_servo (Z2F 90) in
  let d := default_device in
  axis_of_string (lower "PAN") = Some pan /\
  servo_present d pan = true /\
  py_int (or_default (Some (PyInt 45)) (PyInt 0)) = Ok 45 /\
  servo_target (axis_calibration (DEVICE_CONFIG d) pan) 45 "" = Ok 75 /\
  get_axis pan (SERVO_LIMITS d) = (30, 210) /\
  0 <= 30 <= 210 /\ 210 <= 240 /\
  sent (snd (motion_POST io "PAN" (Some (PyInt 45)) "" d)) =
    Move pan 75 1000 :: ReadAngle pan :: sent d.
Proof.
  cbv zeta.
  pose proof (move_time_follows_distance
                (steady_servo (Z2F 90))
                "PAN" "" (Some (PyInt 45)) default_device pan 45 75 30 210
                eq_refl eq_refl eq_refl eq_refl eq_refl ltac:(lia) ltac:(lia)) as [_ H].
  cbv zeta in H. cbn [get_physical_angle] in H.
  repeat (split; [first [reflexivity | lia]|]).
  exact (H 90 ltac:(lia) eq_refl).
Defined.

(* ===================================================================== *)
(** * Properties of the host name and the client address                  *)
(* ===================================================================== *)

Lemma split_first_spec sep s :
  contains_char sep (split_first sep s) = false /\
  if contains_char sep s
  then exists rest, s = (split_first sep s ++ String sep rest)%string
  else split_first sep s = s.
Proof.
  induction s as [|c r [IH1 IH2]]; cbn; [auto|].
  destruct (Ascii.eqb_spec c sep) as [->|Hc]; cbn.
  - split; [reflexivity|]. now exists r.
  - destruct (Ascii.eqb_spec c sep) as [|_]; [contradiction|]. cbn. split; [assumption|].
    destruct (contains_char sep r).
    + destruct IH2 as [rest IH2]. exists rest. now rewrite <- IH2.
    + now rewrite IH2.
Qed.

(** X19.  With a non-empty [Host] header the host name of a request is the
    header up to its first colon, so that it never holds a colon (a port,
    but also everything after the first colon of an IPv6 literal, is cut
    off); without the header, or with an empty one, it is the address of
    the machine, and ["-"] when that cannot be found. *)
Theorem host_is_header_up_to_colon :
  forall (host_header : option string) (sock : result string),
    let host := get_host_for_request host_header sock in
    match host_header with
    | Some (String c r) =>
        contains_char ":" host = false /\
        (String c r = host \/ exists rest, String c r = (host ++ ":" ++ rest)%string)
    | _ => host = match sock with Ok ip => ip | Raise _ => "-"%string end
    end.
Proof.
  intros [[|c r]|] sock; cbn zeta; try (destruct sock; reflexivity).
  unfold get_host_for_request. cbn [is_empty].
  destruct (split_first_spec ":" (String c r)) as [H1 H2]. split; [exact H1|].
  destruct (contains_char ":" (String c r)).
  - right. destruct H2 as [rest H2]. now exists rest.
  - left. now rewrite H2.
Qed.

Lemma lstrip_spec s :
  exists pre, s = (pre ++ lstrip s)%string /\ all_chars is_space pre = true /\
              starts_with is_space (lstrip s) = false.
Proof.
  induction s as [|c r (pre & IH1 & IH2 & IH3)]; cbn.
  - exists EmptyString. auto.
  - destruct (is_space c) eqn:Hc.
    + exists (String c pre). cbn. rewrite Hc, <- IH1. auto.
    + exists EmptyString. cbn. auto.
Qed.

Lemma rstrip_spec s :
  exists post, s = (rstrip s ++ post)%string /\ all_chars is_space post = true /\
               ends_with is_space (rstrip s) = false.
Proof.
  induction s as [|c r (post & IH1 & IH2 & IH3)]; cbn [rstrip].
  - exists EmptyString. auto.
  - destruct (rstrip r) as [|c' r'] eqn:Hr.
    + cbn [append] in IH1. subst post. destruct (is_space c) eqn:Hc.
      * exists (String c r). cbn. rewrite Hc. auto.
      * exists r. cbn. rewrite Hc. auto.
    + exists post. split; [cbn; f_equal; exact IH1|]. split; [exact IH2 | exact IH3].
Qed.

Lemma rstrip_starts_with s :
  starts_with is_space s = false -> starts_with is_space (rstrip s) = false.
Proof.
  destruct s as [|c r]; cbn; [auto|]. intros Hc.
  destruct (rstrip r); [rewrite Hc|]; cbn; auto.
Qed.

Lemma string_app_assoc a b c : ((a ++ b) ++ c)%string = (a ++ b ++ c)%string.
Proof. induction a as [|x r IH]; cbn; [reflexivity|]. now rewrite IH. Qed.

Lemma contains_char_app sep a b :
  contains_char sep (a ++ b) = (contains_char sep a || contains_char sep b)%bool.
Proof. induction a as [|c r IH]; cbn; [reflexivity|]. now rewrite IH, orb_assoc. Qed.

(** X20.  When the forwarding header holds a comma, the client address
    that is answered is its first entry without the white space around it:
    the header is white space, the answer, white space, a comma and a
    rest; the answer holds no comma and neither begins nor ends with
    white space.  The remote address plays no part. *)
Theorem client_ip_is_first_forwarded_entry :
  forall (v : string) (remote_addr : option string),
    contains_char "," v = true ->
    exists ip pre post rest,
      system_client_ip (Some v) remote_addr = Some ip /\
      v = (pre ++ ip ++ post ++ "," ++ rest)%string /\
      all_chars is_space pre = true /\ all_chars is_space post = true /\
      contains_char "," ip = false /\
      starts_with is_space ip = false /\ ends_with is_space ip = false.
Proof.
  intros v remote_addr Hv. unfold system_client_ip.
  assert (He : is_empty v = false) by (destruct v; [discriminate | reflexivity]).
  rewrite He, Hv. cbn [negb andb].
  destruct (split_first_spec "," v) as [H1 H2]. rewrite Hv in H2. destruct H2 as [rest H2].
  destruct (lstrip_spec (split_first "," v)) as (pre & L1 & L2 & L3).
  destruct (rstrip_spec (lstrip (split_first "," v))) as (post & R1 & R2 & R3).
  exists (strip (split_first "," v)), pre, post, rest. unfold strip.
  split; [reflexivity|]. split.
  { rewrite H2 at 1. rewrite L1 at 1. rewrite R1 at 1.
    now rewrite !string_app_assoc. }
  repeat split; try assumption.
  - rewrite L1, R1, !contains_char_app in H1.
    apply orb_false_elim in H1 as [_ H1]. now apply orb_false_elim in H1 as [H1 _].
  - now apply rstrip_starts_with.
Qed.

Lemma client_ip_is_first_forwarded_entry_witness :
  contains_char "," " 10.0.0.7 , 192.168.1.1" = true /\
  exists ip pre post rest,
    system_client_ip (Some " 10.0.0.7 , 192.168.1.1"%string) (Some "127.0.0.1"%string) = Some ip /\
    " 10.0.0.7 , 192.168.1.1"%string = (pre ++ ip ++ post ++ "," ++ rest)%string /\
    all_chars is_space pre = true /\ all_chars is_space post = true /\
    contains_char "," ip = false /\
    starts_with is_space ip = false /\ ends_with is_space ip = false.
Proof.
  split; [reflexivity|].
  apply (client_ip_is_first_forwarded_entry " 10.0.0.7 , 192.168.1.1" (Some "127.0.0.1"%string)).
  reflexivity.
Defined.

Example client_ip_of_padded_header :
  system_client_ip (Some " 10.0.0.7 , 192.168.1.1"%string) (Some "127.0.0.1"%string)
  = Some "10.0.0.7"%string.
Proof. reflexivity. Qed.

Example client_ip_without_comma_is_verbatim :
  system_client_ip (Some " 10.0.0.7 "%string) (Some "127.0.0.1"%string) = Some " 10.0.0.7 "%string /\
  system_client_ip (Some ""%string) (Some "127.0.0.1"%string) = Some ""%string /\
  system_client_ip None (Some "127.0.0.1"%string) = Some "127.0.0.1"%string.
Proof. repeat split. Qed.

Example host_of_ipv6_literal :
  get_host_for_request (Some "[::1]:8080"%string) (Ok "10.0.0.2"%string) = "["%string.
Proof. reflexivity. Qed.

(* ===================================================================== *)
(** * Properties of the configuration file                                *)
(* ===================================================================== *)

Lemma lookup_update_same k v d : lookup k (update k v d) = Some v.
Proof.
  induction d as [|[k' v'] r IH]; cbn.
  - now rewrite String.eqb_refl.
  - destruct (String.eqb k k') eqn:E; cbn; [now rewrite String.eqb_refl | now rewrite E].
Qed.

Lemma lookup_update_other k k' v d : k' <> k -> lookup k' (update k v d) = lookup k' d.
Proof.
  intros Hk. induction d as [|[k2 v2] r IH]; cbn.
  - destruct (String.eqb_spec k' k); [contradiction | reflexivity].
  - destruct (String.eqb_spec k k2) as [->|Hk2]; cbn.
    + destruct (String.eqb_spec k' k2); [contradiction | reflexivity].
    + destruct (String.eqb k' k2); [reflexivity | exact IH].
Qed.

Lemma update_present k v d : lookup k d = Some v -> update k v d = d.
Proof.
  induction d as [|[k' v'] r IH]; cbn; [discriminate|].
  destruct (String.eqb_spec k k') as [->|Hk].
  - now intros [= ->].
  - intros H. now rewrite IH.
Qed.

(** What [fill_missing] does to a dict: the keys that are there stay as
    they are, the missing ones get the default. *)
Lemma fill_missing_dict defaults : forall d,
  exists d', fill_missing defaults (PDict d) = Done (PDict d') /\
    (forall k, lookup k d' =
       match lookup k d with
       | Some v => Some v
       | None => lookup k defaults
       end) /\
    ((forall k v, In (k, v) defaults -> lookup k d <> None) -> d' = d).
Proof.
  induction defaults as [|[k0 v0] r IH]; intros d; cbn [fill_missing].
  - exists d. split; [reflexivity|]. split; [|reflexivity].
    intros k. now destruct (lookup k d).
  - cbn [py_in obind]. destruct (lookup k0 d) as [v|] eqn:Hk.
    + cbn [obind]. destruct (IH d) as (d' & R & L & I). exists d'. split; [exact R|]. split.
      * intros k. rewrite L. destruct (lookup k d) eqn:Hl; [reflexivity|].
        cbn. destruct (String.eqb_spec k k0) as [->|]; [congruence | reflexivity].
      * intros H. apply I. intros k v' Hin. apply (H k v'). now right.
    + cbn [py_setitem obind]. destruct (IH (update k0 v0 d)) as (d' & R & L & I).
      exists d'. split; [exact R|]. split.
      * intros k. rewrite L. cbn. destruct (String.eqb_spec k k0) as [->|Hne].
        -- now rewrite lookup_update_same, Hk.
        -- rewrite lookup_update_other by assumption. reflexivity.
      * intros H. exfalso. apply (H k0 v0); [now left | exact Hk].
Qed.

Lemma fill_missing_not_dict defaults : forall data d,
  fill_missing defaults data = Done (PDict d) -> exists d0, data = PDict d0.
Proof.
  induction defaults as [|[k0 v0] r IH]; intros data d; cbn [fill_missing].
  - intros [= ->]. eauto.
  - destruct data as [| | | s | l | d0]; cbn; try discriminate; [| |eauto].
    + destruct (substring_of k0 s); cbn; [|discriminate]. intros H.
      destruct (IH _ _ H) as [d1 [=]].
    + destruct (existsb (is_str k0) l); cbn; [|discriminate]. intros H.
      destruct (IH _ _ H) as [d1 [=]].
Qed.

(** The default pair of an axis. *)
Lemma default_pair axis :
  axis = "pan"%string \/ axis = "tilt"%string ->
  exists x y,
    (default_limits <- py_getitem DEFAULT_CONFIG_document "servo_limits" ;;
     py_getitem default_limits axis)%outcome = Done (PList [x; y]) /\
    Some (PList [x; y]) =
      match axis_of_string axis with
      | Some a => Some (int_pair (fst (get_axis a (servo_limits DEFAULT_CONFIG)))
                                 (snd (get_axis a (servo_limits DEFAULT_CONFIG))))
      | None => None
      end.
Proof. intros [-> | ->]; eexists _, _; split; reflexivity. Qed.

(** What one repair round does to a dict whose limits are a dict. *)
Lemma repair_axis_limits_dict axis d limits :
  axis = "pan"%string \/ axis = "tilt"%string ->
  lookup "servo_limits" d = Some (PDict limits) ->
  exists limits',
    repair_axis_limits axis (PDict d) = Done (PDict (update "servo_limits" (PDict limits') d)) /\
    lookup axis limits' =
      match lookup axis limits with
      | Some (PList [x; y]) => Some (PList [x; y])
      | _ => match axis_of_string axis with
             | Some a => Some (int_pair (fst (get_axis a (servo_limits DEFAULT_CONFIG)))
                                        (snd (get_axis a (servo_limits DEFAULT_CONFIG))))
             | None => None
             end
      end /\
    (forall k, k <> axis -> lookup k limits' = lookup k limits) /\
    ((exists x y, lookup axis limits = Some (PList [x; y])) -> limits' = limits).
Proof.
  intros Hax Hd. destruct (default_pair axis Hax) as (dx & dy & Hdef & Hpair).
  assert (Hbad : exists limits',
            (default_limits <- py_getitem DEFAULT_CONFIG_document "servo_limits" ;;
             v <- py_getitem default_limits axis ;;
             limits1 <- py_setitem (PDict limits) axis v ;;
             py_setitem (PDict d) "servo_limits" limits1)%outcome =
            Done (PDict (update "servo_limits" (PDict limits') d)) /\
            lookup axis limits' =
              match axis_of_string axis with
              | Some a => Some (int_pair (fst (get_axis a (servo_limits DEFAULT_CONFIG)))
                                         (snd (get_axis a (servo_limits DEFAULT_CONFIG))))
              | None => None
              end /\
            (forall k, k <> axis -> lookup k limits' = lookup k limits)).
  { exists (update axis (PList [dx; dy]) limits). split; [|split].
    - destruct (py_getitem DEFAULT_CONFIG_document "servo_limits") as [dl|]; [|discriminate].
      cbn [obind] in Hdef |- *. rewrite Hdef. reflexivity.
    - now rewrite lookup_update_same.
    - intros k Hk. now apply lookup_update_other. }
  assert (Hcase : (exists x y, lookup axis limits = Some (PList [x; y])) \/
                  (forall x y, lookup axis limits <> Some (PList [x; y]))).
  { destruct (lookup axis limits) as [[| | | | [|x [|y [|z l]]] |]|];
      try (right; intros x' y'; discriminate). left. eauto. }
  unfold repair_axis_limits. cbn [py_in obind]. rewrite Hd.
  cbn [negb obind py_getitem]. rewrite Hd. cbn [obind py_in].
  destruct Hcase as [(x & y & Hxy)|Hno].
  - rewrite Hxy. cbn [negb obind py_getitem]. rewrite Hxy. cbn [obind List.length Nat.eqb negb].
    exists limits. split; [now rewrite (update_present _ _ _ Hd)|].
    split; [now rewrite Hxy|]. split; reflexivity.
  - destruct Hbad as (limits' & Hrun & Hl & Hk).
    exists limits'. split.
    + destruct (lookup axis limits) as [v0|] eqn:Hv0; cbn [negb obind py_getitem].
      2:{ exact Hrun. }
      rewrite Hv0. cbn [obind].
      destruct v0 as [| | | | l0 |]; try exact Hrun.
      destruct l0 as [|x [|y [|z l0]]]; cbn [List.length Nat.eqb negb]; try exact Hrun.
      now destruct (Hno x y).
    + split; [|split; [exact Hk|]].
      * rewrite Hl. destruct (lookup axis limits) as [[| | | | [|x [|y [|z l]]] |]|]; try reflexivity.
        now destruct (Hno x y).
      * intros (x & y & Hxy). now destruct (Hno x y).
Qed.

(** A repair round fails on anything but a dict whose limits are a dict. *)
Lemma repair_axis_limits_done axis data data' :
  axis = "pan"%string \/ axis = "tilt"%string ->
  repair_axis_limits axis data = Done data' ->
  exists d limits, data = PDict d /\ lookup "servo_limits" d = Some (PDict limits).
Proof.
  intros Hax. unfold repair_axis_limits.
  destruct data as [| | | s | l | d]; cbn [py_in obind]; try discriminate.
  - destruct (substring_of "servo_limits" s); cbn; destruct Hax as [-> | ->]; discriminate.
  - destruct (existsb (is_str "servo_limits") l); cbn; destruct Hax as [-> | ->]; discriminate.
  - destruct (lookup "servo_limits" d) as [sl|] eqn:Hsl; cbn [negb obind py_getitem].
    2:{ rewrite Hsl. destruct Hax as [-> | ->]; cbn; discriminate. }
    rewrite Hsl. cbn [obind].
    destruct sl as [| | | s | l | limits]; cbn [py_in obind]; try discriminate; [| |eauto].
    + destruct (substring_of axis s); cbn [negb obind py_getitem];
        destruct Hax as [-> | ->]; cbn; discriminate.
    + destruct (existsb (is_str axis) l); cbn [negb obind py_getitem];
        destruct Hax as [-> | ->]; cbn; discriminate.
Qed.

Lemma update_update k v v' d : update k v (update k v' d) = update k v d.
Proof.
  induction d as [|[k0 v0] r IH]; cbn.
  - now rewrite String.eqb_refl.
  - destruct (String.eqb k k0) eqn:E; cbn.
    + now rewrite String.eqb_refl.
    + rewrite E. now rewrite IH.
Qed.

(** The outcome of the validation of a document that was read. *)
Lemma validation_spec data data' :
  (data1 <- fill_missing DEFAULT_CONFIG_items data ;;
   data2 <- repair_axis_limits "pan" data1 ;;
   repair_axis_limits "tilt" data2)%outcome = Done data' ->
  exists d d1 limits limits',
    data = PDict d /\
    (forall k, lookup k d1 =
       match lookup k d with Some v => Some v | None => lookup k DEFAULT_CONFIG_items end) /\
    ((forall k v, In (k, v) DEFAULT_CONFIG_items -> lookup k d <> None) -> d1 = d) /\
    lookup "servo_limits" d1 = Some (PDict limits) /\
    data' = PDict (update "servo_limits" (PDict limits') d1) /\
    (forall axis, axis = "pan"%string \/ axis = "tilt"%string ->
       lookup axis limits' =
         match lookup axis limits with
         | Some (PList [x; y]) => Some (PList [x; y])
         | _ => match axis_of_string axis with
                | Some a => Some (int_pair (fst (get_axis a (servo_limits DEFAULT_CONFIG)))
                                           (snd (get_axis a (servo_limits DEFAULT_CONFIG))))
                | None => None
                end
         end) /\
    (forall k, k <> "pan"%string -> k <> "tilt"%string -> lookup k limits' = lookup k limits) /\
    ((exists x y, lookup "pan" limits = Some (PList [x; y])) ->
     (exists x y, lookup "tilt" limits = Some (PList [x; y])) -> limits' = limits).
Proof.
  destruct (fill_missing DEFAULT_CONFIG_items data) as [data1|] eqn:F; [|discriminate].
  cbn [obind]. destruct (repair_axis_limits "pan" data1) as [data2|] eqn:R1; [|discriminate].
  cbn [obind]. intros R2.
  destruct (repair_axis_limits_done _ _ _ (or_introl eq_refl) R1) as (d1 & l0 & -> & H0).
  destruct (fill_missing_not_dict _ _ _ F) as [d ->].
  destruct (fill_missing_dict DEFAULT_CONFIG_items d) as (d1' & F' & L & I).
  rewrite F in F'. injection F' as <-.
  destruct (repair_axis_limits_dict "pan" d1 l0 (or_introl eq_refl) H0) as (l1 & R1' & P1 & K1 & I1).
  rewrite R1 in R1'. injection R1' as ->.
  destruct (repair_axis_limits_dict "tilt" _ l1 (or_intror eq_refl)
              (lookup_update_same "servo_limits" (PDict l1) d1))
    as (l2 & R2' & P2 & K2 & I2).
  rewrite R2 in R2'. injection R2' as ->.
  exists d, d1, l0, l2. split; [reflexivity|]. split; [exact L|]. split; [exact I|].
  split; [exact H0|]. split; [now rewrite update_update|]. split; [|split].
  - intros axis [-> | ->].
    + rewrite K2 by discriminate. exact P1.
    + rewrite P2. rewrite K1 by discriminate. reflexivity.
  - intros k Hp Ht. rewrite K2 by assumption. now apply K1.
  - intros Hp Ht. rewrite (I1 Hp) in *. now apply I2.
Qed.

Lemma pair_or_default axis limits limits' :
  axis = "pan"%string \/ axis = "tilt"%string ->
  lookup axis limits' =
    match lookup axis limits with
    | Some (PList [x; y]) => Some (PList [x; y])
    | _ => match axis_of_string axis with
           | Some a => Some (int_pair (fst (get_axis a (servo_limits DEFAULT_CONFIG)))
                                      (snd (get_axis a (servo_limits DEFAULT_CONFIG))))
           | None => None
           end
    end ->
  exists x y, lookup axis limits' = Some (PList [x; y]).
Proof.
  intros Hax ->.
  destruct (lookup axis limits) as [[| | | | [|x [|y [|z l]]] |]|];
    try (destruct Hax as [-> | ->]; cbn; unfold int_pair; eauto); eauto.
Qed.

Lemma default_config_well_shaped : well_shaped DEFAULT_CONFIG_document.
Proof.
  split; [|split].
  - intros k Hk. cbn in Hk. destruct Hk as [<-|[<-|[<-|[<-|[<-|[]]]]]]; cbn; eauto.
  - unfold has_limit_pair, DEFAULT_CONFIG_document, DEFAULT_CONFIG_items, int_pair.
    eexists _, _, _, _. split; [reflexivity|]. split; reflexivity.
  - unfold has_limit_pair, DEFAULT_CONFIG_document, DEFAULT_CONFIG_items, int_pair.
    eexists _, _, _, _. split; [reflexivity|]. split; reflexivity.
Qed.

(** What [load_device_config] returns for a file that exists is well
    shaped, whatever the file holds. *)
Lemma validated_is_well_shaped (content : outcome pyobj) :
  well_shaped
    match (data <- content ;;
           data <- fill_missing DEFAULT_CONFIG_items data ;;
           data <- repair_axis_limits "pan" data ;;
           repair_axis_limits "tilt" data)%outcome with
    | Done data => data
    | Failed _ => DEFAULT_CONFIG_document
    end.
Proof.
  pose proof default_config_well_shaped as Hdef.
  destruct content as [data|e]; cbn [obind]; [|exact Hdef].
  destruct (data1 <- fill_missing DEFAULT_CONFIG_items data ;;
            data2 <- repair_axis_limits "pan" data1 ;;
            repair_axis_limits "tilt" data2)%outcome as [data'|] eqn:V; [|exact Hdef].
  destruct (validation_spec _ _ V) as (d & d1 & l & l' & -> & L & _ & Hl & -> & P & _).
  pose proof (pair_or_default _ _ _ (or_introl eq_refl) (P _ (or_introl eq_refl))) as Pp.
  pose proof (pair_or_default _ _ _ (or_intror eq_refl) (P _ (or_intror eq_refl))) as Pt.
  split; [|split].
  - intros k Hk. cbn [py_getitem].
    destruct (String.eqb_spec k "servo_limits") as [->|Hne].
    + rewrite lookup_update_same. eauto.
    + rewrite lookup_update_other by assumption. rewrite L.
      destruct (lookup k d); [eauto|].
      cbn in Hk. destruct Hk as [<-|[<-|[<-|[<-|[<-|[]]]]]]; cbn; eauto.
  - destruct Pp as (x & y & Pp). eexists _, l', x, y. split; [reflexivity|].
    split; [apply lookup_update_same | exact Pp].
  - destruct Pt as (x & y & Pt). eexists _, l', x, y. split; [reflexivity|].
    split; [apply lookup_update_same | exact Pt].
Qed.

(** X21.  When the configuration file exists, loading never fails,
    whatever the file holds, and the configuration that is returned is
    well shaped: a dict with the five keys of the default configuration,
    whose limits are a list of two items for both axes.  The file is not
    written. *)
Theorem loaded_config_is_well_shaped :
  forall (writable : bool) (content : outcome pyobj),
    exists cfg,
      load_device_config writable (Some content) = (Done cfg, Some content) /\
      well_shaped cfg.
Proof.
  intros writable content. unfold load_device_config. eexists. split; [reflexivity|].
  apply validated_is_well_shaped.
Qed.

(** X22.  A file that cannot be read, or whose document is not an object,
    or whose ["servo_limits"] is not an object, gives the default
    configuration. *)
Theorem unusable_file_gives_defaults :
  forall (writable : bool) (content : outcome pyobj),
    match content with
    | Done (PDict d) =>
        match lookup "servo_limits" d with
        | Some (PDict _) | None => False
        | Some _ => True
        end
    | _ => True
    end ->
    load_device_config writable (Some content) = (Done DEFAULT_CONFIG_document, Some content).
Proof.
  intros writable content H. unfold load_device_config. f_equal. f_equal.
  destruct content as [data|e]; cbn [obind]; [|reflexivity].
  destruct (data1 <- fill_missing DEFAULT_CONFIG_items data ;;
            data2 <- repair_axis_limits "pan" data1 ;;
            repair_axis_limits "tilt" data2)%outcome as [data'|] eqn:V; [|reflexivity].
  exfalso. destruct (validation_spec _ _ V) as (d & d1 & l & l' & -> & L & _ & Hl & _).
  rewrite L in Hl. destruct (lookup "servo_limits" d) as [v|]; [|exact H].
  injection Hl as ->. exact H.
Qed.

Lemma unusable_file_gives_defaults_witness :
  let content := Done (PDict [("servo_limits"%string, PList [PStr "pan"; PStr "tilt"]);
                              ("pan_init"%string, PNum (PyInt 90))]) in
  match content with
  | Done (PDict d) =>
      match lookup "servo_limits" d with
      | Some (PDict _) | None => False
      | Some _ => True
      end
  | _ => True
  end /\
  load_device_config true (Some content) = (Done DEFAULT_CONFIG_document, Some content).
Proof.
  cbv zeta. split; [exact I|].
  apply (unusable_file_gives_defaults true
           (Done (PDict [("servo_limits"%string, PList [PStr "pan"; PStr "tilt"]);
                         ("pan_init"%string, PNum (PyInt 90))]))).
  exact I.
Defined.

Lemma load_well_shaped writable cfg :
  well_shaped cfg ->
  load_device_config writable (Some (Done cfg)) = (Done cfg, Some (Done cfg)).
Proof.
  intros (Hkeys & (d & l & px & py & -> & Hl & Hp) & (d' & l2 & tx & ty & Hd & Hl2 & Ht)).
  injection Hd as <-. rewrite Hl in Hl2. injection Hl2 as <-.
  unfold load_device_config. f_equal. f_equal. cbn [obind].
  destruct (fill_missing_dict DEFAULT_CONFIG_items d) as (d1 & F & L & I).
  assert (Hd1 : d1 = d).
  { apply I. intros k v Hin. specialize (Hkeys k (in_map fst _ _ Hin)).
    destruct Hkeys as [v' Hv']. cbn in Hv'. now destruct (lookup k d). }
  subst d1. rewrite F. cbn [obind].
  assert (Hr : forall axis x y, lookup axis l = Some (PList [x; y]) ->
               repair_axis_limits axis (PDict d) = Done (PDict d)).
  { intros axis x y Hax. unfold repair_axis_limits. cbn [py_in obind]. rewrite Hl.
    cbn [negb obind py_getitem]. rewrite Hl. cbn [obind py_in]. rewrite Hax.
    cbn [negb obind py_getitem]. rewrite Hax. reflexivity. }
  rewrite (Hr _ _ _ Hp). cbn [obind]. now rewrite (Hr _ _ _ Ht).
Qed.

(** X23.  A well-shaped configuration that was saved is loaded back
    unchanged, and loading does not write the file. *)
Theorem saved_config_is_loaded_back :
  forall (writable : bool) (cfg : pyobj) (file : config_file),
    well_shaped cfg ->
    let file' := snd (save_device_config true cfg file) in
    file' = Some (Done cfg) /\
    load_device_config writable file' = (Done cfg, file').
Proof.
  intros writable cfg file H. cbn zeta. cbn [save_device_config snd].
  split; [reflexivity|]. now apply load_well_shaped.
Qed.

Lemma saved_config_is_loaded_back_witness :
  well_shaped DEFAULT_CONFIG_document /\
  let file' := snd (save_device_config true DEFAULT_CONFIG_document None) in
  file' = Some (Done DEFAULT_CONFIG_document) /\
  load_device_config false file' = (Done DEFAULT_CONFIG_document, file').
Proof.
  split; [exact default_config_well_shaped|].
  exact (saved_config_is_loaded_back false DEFAULT_CONFIG_document None default_config_well_shaped).
Defined.

(** X24.  From a file that holds an object, the keys of the file are
    taken as they are and only the missing ones get their default value;
    under ["servo_limits"] the entries of the two axes are kept when they
    are lists of two items and replaced by the default pair otherwise,
    and all other entries are kept. *)
Theorem file_values_override_defaults :
  forall (writable : bool) (d limits : list (string * pyobj)),
    lookup "servo_limits" d = Some (PDict limits) ->
    exists d' limits',
      fst (load_device_config writable (Some (Done (PDict d)))) = Done (PDict d') /\
      (forall k, k <> "servo_limits"%string ->
         lookup k d' = match lookup k d with
                       | Some v => Some v
                       | None => lookup k DEFAULT_CONFIG_items
                       end) /\
      lookup "servo_limits" d' = Some (PDict limits') /\
      (forall axis, axis = "pan"%string \/ axis = "tilt"%string ->
         lookup axis limits' =
           match lookup axis limits with
           | Some (PList [x; y]) => Some (PList [x; y])
           | _ => match axis_of_string axis with
                  | Some a => Some (int_pair (fst (get_axis a (servo_limits DEFAULT_CONFIG)))
                                             (snd (get_axis a (servo_limits DEFAULT_CONFIG))))
                  | None => None
                  end
           end) /\
      (forall k, k <> "pan"%string -> k <> "tilt"%string -> lookup k limits' = lookup k limits).
Proof.
  intros writable d limits Hl. unfold load_device_config. cbn [fst obind].
  destruct (fill_missing_dict DEFAULT_CONFIG_items d) as (d1 & F & L & _).
  assert (Hl1 : lookup "servo_limits" d1 = Some (PDict limits)) by (now rewrite L, Hl).
  destruct (repair_axis_limits_dict "pan" d1 limits (or_introl eq_refl) Hl1) as (l1 & R1 & _).
  destruct (repair_axis_limits_dict "tilt" _ l1 (or_intror eq_refl)
              (lookup_update_same "servo_limits" (PDict l1) d1))
    as (l2 & R2 & _).
  assert (V : (data1 <- fill_missing DEFAULT_CONFIG_items (PDict d) ;;
               data2 <- repair_axis_limits "pan" data1 ;;
               repair_axis_limits "tilt" data2)%outcome =
              Done (PDict (update "servo_limits" (PDict l2)
                            (update "servo_limits" (PDict l1) d1)))).
  { rewrite F. cbn [obind]. rewrite R1. cbn [obind]. exact R2. }
  rewrite V.
  destruct (validation_spec _ _ V) as (d0 & d1' & l & l' & Hd0 & L' & _ & Hl' & Hd' & P & K & _).
  injection Hd0 as <-.
  assert (Hd1 : forall k, lookup k d1' = lookup k d1) by (intros k; now rewrite L, L').
  rewrite Hd1, Hl1 in Hl'. injection Hl' as <-.
  injection Hd' as Hd'.
  eexists _, l'. split; [reflexivity|]. rewrite Hd'. split; [|split; [|split]].
  - intros k Hk. rewrite lookup_update_other by assumption. apply L'.
  - apply lookup_update_same.
  - exact P.
  - exact K.
Qed.

Lemma file_values_override_defaults_witness :
  let d := [("pan_init"%string, PNum (PyInt 90));
            ("servo_limits"%string, PDict [("pan"%string, int_pair 10 20);
                                           ("tilt"%string, PList [PNum (PyInt 1)])])] in
  let limits := [("pan"%string, int_pair 10 20); ("tilt"%string, PList [PNum (PyInt 1)])] in
  lookup "servo_limits" d = Some (PDict limits) /\
  exists d' limits',
    fst (load_device_config true (Some (Done (PDict d)))) = Done (PDict d') /\
    (forall k, k <> "servo_limits"%string ->
       lookup k d' = match lookup k d with
                     | Some v => Some v
                     | None => lookup k DEFAULT_CONFIG_items
                     end) /\
    lookup "servo_limits" d' = Some (PDict limits') /\
    (forall axis, axis = "pan"%string \/ axis = "tilt"%string ->
       lookup axis limits' =
         match lookup axis limits with
         | Some (PList [x; y]) => Some (PList [x; y])
         | _ => match axis_of_string axis with
                | Some a => Some (int_pair (fst (get_axis a (servo_limits DEFAULT_CONFIG)))
                                           (snd (get_axis a (servo_limits DEFAULT_CONFIG))))
                | None => None
                end
         end) /\
    (forall k, k <> "pan"%string -> k <> "tilt"%string -> lookup k limits' = lookup k limits).
Proof.
  cbv zeta. split; [reflexivity|].
  apply (file_values_override_defaults true
           [("pan_init"%string, PNum (PyInt 90));
            ("servo_limits"%string, PDict [("pan"%string, int_pair 10 20);
                                           ("tilt"%string, PList [PNum (PyInt 1)])])]
           [("pan"%string, int_pair 10 20); ("tilt"%string, PList [PNum (PyInt 1)])]).
  reflexivity.
Defined.

Example partial_file_is_completed :
  fst (load_device_config true
         (Some (Done (PDict [("pan_init"%string, PNum (PyInt 90));
                             ("servo_limits"%string,
                                PDict [("pan"%string, int_pair 10 20);
                                       ("tilt"%string, PList [PNum (PyInt 1)])])])))) =
  Done (PDict [("pan_init"%string, PNum (PyInt 90));
               ("servo_limits"%string, PDict [("pan"%string, int_pair 10 20);
                                              ("tilt"%string, int_pair 80 165)]);
               ("pwr_init"%string, PBool true);
               ("tilt_init"%string, PNum (PyInt 120));
               ("servo_map"%string,
                  PDict [("pan"%string, default_map_entry); ("tilt"%string, default_map_entry)])]).
Proof. reflexivity. Qed.

(** X25.  When the configuration file does not exist, the default
    configuration is written to it and returned, and the next load reads
    it back; when it cannot be written, the exception escapes. *)
Theorem missing_file_is_created :
  forall writable : bool,
    load_device_config writable None =
      (if writable then (Done DEFAULT_CONFIG_document, Some (Done DEFAULT_CONFIG_document))
       else (Failed WriteError, None)) /\
    forall writable' : bool,
      load_device_config writable' (snd (load_device_config true None)) =
        (Done DEFAULT_CONFIG_document, Some (Done DEFAULT_CONFIG_document)).
Proof.
  intros writable. split; [now destruct writable|].
  intros writable'.
  exact (load_well_shaped writable' DEFAULT_CONFIG_document default_config_well_shaped).
Qed.

(* ===================================================================== *)
(** * Properties of the system routes                                     *)
(* ===================================================================== *)

(** ** Reasoning about runs *)

Lemma sbind_done {A B : Type} (m : Sys A) (k : A -> Sys B) s b s' :
  sbind m k s = (Done b, s') ->
  exists a s1, m s = (Done a, s1) /\ k a s1 = (Done b, s').
Proof.
  unfold sbind. destruct (m s) as [[a|e] s1]; [eauto | discriminate].
Qed.

(** A relation between the state before and after that every step keeps
    is kept by a sequence. *)
Lemma sbind_frame {A B : Type} (P : system -> system -> Prop) (m : Sys A) (k : A -> Sys B) :
  (forall s1 s2 s3, P s1 s2 -> P s2 s3 -> P s1 s3) ->
  (forall s, P s (snd (m s))) ->
  (forall a s, P s (snd (k a s))) ->
  forall s, P s (snd (sbind m k s)).
Proof.
  intros Htrans Hm Hk s. unfold sbind. specialize (Hm s).
  destruct (m s) as [[a|e] s1]; cbn [snd] in *; [|exact Hm].
  exact (Htrans _ _ _ Hm (Hk a s1)).
Qed.

Lemma same_other_keys_trans s1 s2 s3 :
  same_other_keys s1 s2 -> same_other_keys s2 s3 -> same_other_keys s1 s3.
Proof. intros H1 H2 k Hk. now rewrite H2, H1. Qed.

Lemma same_other_keys_config s s' : sys_config s' = sys_config s -> same_other_keys s s'.
Proof. intros H k _. now rewrite H. Qed.

Lemma set_config_same_other_keys k v s :
  In k init_keys -> same_other_keys s (snd (set_config k v s)).
Proof.
  intros Hin k' Hk'. unfold set_config.
  destruct (sys_config s) as [| | | | |c] eqn:Hc; cbn; rewrite ?Hc; try reflexivity.
  cbn. rewrite lookup_update_other; [reflexivity|]. intros ->. contradiction.
Qed.

Lemma take_fields_same_other_keys keys data :
  incl keys init_keys -> forall s, same_other_keys s (snd (take_fields keys data s)).
Proof.
  induction keys as [|k0 r IH]; intros Hincl s; cbn [take_fields].
  - now apply same_other_keys_config.
  - apply sbind_frame; [exact same_other_keys_trans | |].
    + intros s0. now apply same_other_keys_config.
    + intros present s0. apply sbind_frame; [exact same_other_keys_trans | |].
      * intros s1. destruct present; [|now apply same_other_keys_config].
        apply sbind_frame; [exact same_other_keys_trans | |].
        -- intros s2. now apply same_other_keys_config.
        -- intros v s2. apply set_config_same_other_keys. apply Hincl. now left.
      * intros _ s1. apply IH. intros k Hk. apply Hincl. now right.
Qed.

Lemma apply_init_angle_config E key a present data s :
  sys_config (snd (apply_init_angle E key a present data s)) = sys_config s /\
  sys_file (snd (apply_init_angle E key a present data s)) = sys_file s.
Proof.
  unfold apply_init_angle, sbind, lift, sret, get_config, perform.
  destruct (py_in key data) as [[|]|]; cbn; auto.
  destruct (present s); cbn; auto.
  destruct (py_getitem (sys_config s) key); cbn; auto.
Qed.

Lemma read_fields_spec keys : forall s,
  snd (read_fields keys s) = s /\
  forall vs, fst (read_fields keys s) = Done vs ->
    map fst vs = keys /\ forall k v, In (k, v) vs -> py_getitem (sys_config s) k = Done v.
Proof.
  induction keys as [|k r IH]; intros s; cbn [read_fields].
  - cbn. split; [reflexivity|]. intros vs [= <-]. split; [reflexivity | intros k v []].
  - unfold sbind, get_config. destruct (py_getitem (sys_config s) k) as [v|e] eqn:Hk.
    2:{ cbn. split; [reflexivity | discriminate]. }
    destruct (IH s) as [I1 I2]. destruct (read_fields r s) as [[vs|e] s1]; cbn [fst snd] in *; subst s1.
    + cbn. split; [reflexivity|]. intros vs' [= <-]. destruct (I2 vs eq_refl) as [J1 J2].
      split; [cbn; now f_equal|]. intros k' v' [[= <- <-]|Hin]; [exact Hk | now apply J2].
    + cbn. split; [reflexivity | discriminate].
Qed.

(** X26.  [POST /system/init] can change the four keys [pwr_init],
    [pan_init], [tilt_init] and [servo_map] of the configuration and no
    other: whatever the body of the request and however the request ends,
    every other key, the limits of the servos among them, reads as before
    (a key ["servo_limits"] in the body is ignored). *)
Theorem init_route_keeps_other_keys :
  forall (E : sys_env) (data : pyobj) (s : system) (k : string),
    ~ In k init_keys ->
    py_getitem (sys_config (snd (system_init_POST E data s))) k = py_getitem (sys_config s) k.
Proof.
  intros E data s k Hk. revert k Hk. change (same_other_keys s (snd (system_init_POST E data s))).
  unfold system_init_POST.
  apply sbind_frame; [exact same_other_keys_trans | |].
  { apply take_fields_same_other_keys. apply incl_refl. }
  intros _ s1. apply sbind_frame; [exact same_other_keys_trans | |].
  { intros s2. now apply same_other_keys_config. }
  intros given s2. apply sbind_frame; [exact same_other_keys_trans | |].
  { intros s3. apply same_other_keys_config. destruct given; [|reflexivity].
    unfold sbind, get_config, perform. now destruct (py_getitem (sys_config s3) "pwr_init"). }
  intros _ s3. apply sbind_frame; [exact same_other_keys_trans | |].
  { intros s4. apply same_other_keys_config. apply apply_init_angle_config. }
  intros _ s4. apply sbind_frame; [exact same_other_keys_trans | |].
  { intros s5. apply same_other_keys_config. apply apply_init_angle_config. }
  intros _ s5. apply sbind_frame; [exact same_other_keys_trans | |].
  { intros s6. apply same_other_keys_config. unfold save_config, save_device_config.
    now destruct (file_writable E). }
  intros _ s6. apply sbind_frame; [exact same_other_keys_trans | |].
  { intros s7. apply same_other_keys_config. now rewrite (proj1 (read_fields_spec init_keys s7)). }
  intros vs s7. now apply same_other_keys_config.
Qed.

Lemma init_route_keeps_other_keys_witness :
  let data := PDict [("servo_limits"%string, PDict []); ("pan_init"%string, PNum (PyInt 90))] in
  let s := mkSystem DEFAULT_CONFIG_document None true true [] in
  let E := mkSysEnv (fun _ _ => Done tt) true (fun _ => Done 0) (fun _ _ _ => Done tt) in
  ~ In "servo_limits"%string init_keys /\
  py_getitem (sys_config (snd (system_init_POST E data s))) "servo_limits" =
    py_getitem (sys_config s) "servo_limits".
Proof.
  cbv zeta.
  assert (H : ~ In "servo_limits"%string init_keys).
  { cbn. intros [H|[H|[H|[H|[]]]]]; discriminate. }
  split; [exact H|].
  exact (init_route_keeps_other_keys (mkSysEnv (fun _ _ => Done tt) true (fun _ => Done 0) (fun _ _ _ => Done tt))
           (PDict [("servo_limits"%string, PDict []); ("pan_init"%string, PNum (PyInt 90))])
           (mkSystem DEFAULT_CONFIG_document None true true []) "servo_limits" H).
Defined.

Lemma take_fields_dict keys d : forall s c,
  sys_config s = PDict c ->
  exists c',
    take_fields keys (PDict d) s =
      (Done tt, mkSystem (PDict c') (sys_file s) (sys_pan s) (sys_tilt s) (sys_done s)) /\
    forall k, lookup k c' =
      if existsb (String.eqb k) keys
      then match lookup k d with Some v => Some v | None => lookup k c end
      else lookup k c.
Proof.
  induction keys as [|k0 r IH]; intros s c Hc; cbn [take_fields].
  - exists c. split; [|reflexivity]. unfold sret. destruct s; cbn in *. now subst.
  - unfold sbind at 1. unfold lift at 1. cbn [py_in].
    destruct (lookup k0 d) as [v|] eqn:Hk.
    + unfold sbind at 1. unfold sbind at 1. unfold lift at 1. cbn [py_getitem]. rewrite Hk.
      unfold set_config. rewrite Hc. cbn [py_setitem].
      destruct (IH (mkSystem (PDict (update k0 v c)) (sys_file s) (sys_pan s) (sys_tilt s)
                     (sys_done s)) _ eq_refl) as (c' & R & L).
      exists c'. split; [exact R|]. intros k. rewrite L. cbn [existsb].
      destruct (String.eqb_spec k k0) as [->|Hne]; cbn [orb].
      * rewrite Hk, lookup_update_same. now destruct (existsb (String.eqb k0) r).
      * now rewrite lookup_update_other.
    + unfold sbind at 1. unfold sret at 1.
      destruct (IH s c Hc) as (c' & R & L).
      exists c'. split; [exact R|]. intros k. rewrite L. cbn [existsb].
      destruct (String.eqb_spec k k0) as [->|Hne]; cbn [orb]; [|reflexivity].
      rewrite Hk. now destruct (existsb (String.eqb k0) r).
Qed.

(** X27.  When the move of the pan servo to the posted start angle fails,
    the exception escapes; by then the configuration in memory holds the
    posted angle, the power pin has been written when the body asked for
    it, and the move was sent with the angle as posted; the tilt servo is
    not moved and the file is not written. *)
Theorem failed_init_move_is_not_saved :
  forall (E : sys_env) (d c : list (string * pyobj)) (v : pyobj) (e : pyexc) (s : system),
    sys_config s = PDict c ->
    sys_pan s = true ->
    lookup "pan_init" d = Some v ->
    init_move E pan v = Failed e ->
    let s' := snd (system_init_POST E (PDict d) s) in
    fst (system_init_POST E (PDict d) s) = Failed e /\
    py_getitem (sys_config s') "pan_init" = Done v /\
    sys_file s' = sys_file s /\
    sys_done s' =
      InitMove pan v ::
      match lookup "pwr_init" d with
      | Some p => [PowerWrite (truthy p)]
      | None => []
      end ++ sys_done s.
Proof.
  intros E d c v e s Hc Hpan Hd He.
  destruct (take_fields_dict init_keys d s c Hc) as (c' & Htake & L).
  assert (Hrun : system_init_POST E (PDict d) s =
            (Failed e,
             mkSystem (PDict c') (sys_file s) (sys_pan s) (sys_tilt s)
               (InitMove pan v ::
                match lookup "pwr_init" d with
                | Some p => [PowerWrite (truthy p)]
                | None => []
                end ++ sys_done s))).
  { unfold system_init_POST. unfold sbind at 1. rewrite Htake.
    unfold sbind at 1. unfold lift at 1. cbn [py_in].
    assert (Lpan : lookup "pan_init" c' = Some v) by (rewrite L; cbn; now rewrite Hd).
    destruct (lookup "pwr_init" d) as [p|] eqn:Hp.
    - assert (Lpwr : lookup "pwr_init" c' = Some p) by (rewrite L; cbn; now rewrite Hp).
      unfold sbind at 1. unfold sbind at 1. unfold get_config at 1. cbn [sys_config py_getitem].
      rewrite Lpwr. unfold perform at 1. cbn [sys_config sys_file sys_pan sys_tilt sys_done].
      unfold sbind at 1. unfold apply_init_angle at 1. unfold sbind at 1. unfold lift at 1.
      cbn [py_in]. rewrite Hd. cbn [sys_pan]. rewrite Hpan.
      unfold sbind at 1. unfold get_config at 1. cbn [sys_config py_getitem]. rewrite Lpan.
      unfold perform. cbn. now rewrite He.
    - unfold sbind at 1. unfold sret at 1.
      unfold sbind at 1. unfold apply_init_angle at 1. unfold sbind at 1. unfold lift at 1.
      cbn [py_in]. rewrite Hd. cbn [sys_pan]. rewrite Hpan.
      unfold sbind at 1. unfold get_config at 1. cbn [sys_config py_getitem]. rewrite Lpan.
      unfold perform. cbn. now rewrite He. }
  cbn zeta. rewrite Hrun. cbn [fst snd sys_config sys_file sys_done py_getitem].
  repeat split. rewrite L. cbn. now rewrite Hd.
Qed.

Lemma failed_init_move_is_not_saved_witness :
  let E := mkSysEnv (fun _ _ => Failed ServoError) true (fun _ => Done 0) (fun _ _ _ => Done tt) in
  let d := [("pan_init"%string, PNum (PyInt 500)); ("tilt_init"%string, PNum (PyInt 100))] in
  let s := mkSystem DEFAULT_CONFIG_document (Some (Done DEFAULT_CONFIG_document)) true true [] in
  sys_config s = PDict DEFAULT_CONFIG_items /\
  sys_pan s = true /\
  lookup "pan_init" d = Some (PNum (PyInt 500)) /\
  init_move E pan (PNum (PyInt 500)) = Failed ServoError /\
  let s' := snd (system_init_POST E (PDict d) s) in
  fst (system_init_POST E (PDict d) s) = Failed ServoError /\
  py_getitem (sys_config s') "pan_init" = Done (PNum (PyInt 500)) /\
  sys_file s' = sys_file s /\
  sys_done s' =
    InitMove pan (PNum (PyInt 500)) ::
    match lookup "pwr_init" d with
    | Some p => [PowerWrite (truthy p)]
    | None => []
    end ++ sys_done s.
Proof.
  cbv zeta. do 4 (split; [reflexivity|]).
  apply (failed_init_move_is_not_saved
           (mkSysEnv (fun _ _ => Failed ServoError) true (fun _ => Done 0) (fun _ _ _ => Done tt))
           [("pan_init"%string, PNum (PyInt 500)); ("tilt_init"%string, PNum (PyInt 100))]
           DEFAULT_CONFIG_items (PNum (PyInt 500)) ServoError
           (mkSystem DEFAULT_CONFIG_document (Some (Done DEFAULT_CONFIG_document)) true true []));
    reflexivity.
Defined.

(** X28.  When [POST /system/init] answers at all, the status is 200, the
    file holds the configuration that is in memory, and the answer lists,
    after the status, the four keys with the values that the configuration
    now has. *)
Theorem init_route_saves_what_it_answers :
  forall (E : sys_env) (data : pyobj) (s : system) (rep : reply),
    fst (system_init_POST E data s) = Done rep ->
    let s' := snd (system_init_POST E data s) in
    status_code rep = 200 /\
    sys_file s' = Some (Done (sys_config s')) /\
    exists vs,
      payload rep = PDict (("status"%string, PStr "ok") :: vs) /\
      map fst vs = init_keys /\
      forall k v, In (k, v) vs -> py_getitem (sys_config s') k = Done v.
Proof.
  intros E data s rep H. cbn zeta.
  destruct (system_init_POST E data s) as [r s'] eqn:Hrun. cbn [fst snd] in *. subst r.
  unfold system_init_POST in Hrun.
  apply sbind_done in Hrun as (u1 & s1 & _ & Hrun).
  apply sbind_done in Hrun as (given & s1' & _ & Hrun).
  apply sbind_done in Hrun as (u2 & s2 & _ & Hrun).
  apply sbind_done in Hrun as (u3 & s3 & _ & Hrun).
  apply sbind_done in Hrun as (u4 & s4 & _ & Hrun).
  apply sbind_done in Hrun as (u5 & s5 & Hsave & Hrun).
  apply sbind_done in Hrun as (vs & s6 & Hread & Hrun).
  unfold sret in Hrun. injection Hrun as <- <-.
  unfold save_config, save_device_config in Hsave.
  destruct (file_writable E); [|discriminate]. injection Hsave as _ <-.
  destruct (read_fields_spec init_keys
              (mkSystem (sys_config s4) (Some (Done (sys_config s4))) (sys_pan s4) (sys_tilt s4)
                 (sys_done s4))) as [R1 R2].
  rewrite Hread in R1, R2. cbn [fst snd] in R1, R2. subst s6.
  destruct (R2 vs eq_refl) as [V1 V2]. cbn.
  split; [reflexivity|]. split; [reflexivity|]. exists vs. auto.
Qed.

Lemma init_route_saves_what_it_answers_witness :
  let E := mkSysEnv (fun _ _ => Done tt) true (fun _ => Done 0) (fun _ _ _ => Done tt) in
  let data := PDict [("pan_init"%string, PNum (PyInt 90)); ("pwr_init"%string, PNum (PyInt 0))] in
  let s := mkSystem DEFAULT_CONFIG_document None true false [] in
  (exists rep, fst (system_init_POST E data s) = Done rep) /\
  let s' := snd (system_init_POST E data s) in
  sys_file s' = Some (Done (sys_config s')) /\
  sys_done s' = [InitMove pan (PNum (PyInt 90)); PowerWrite false].
Proof.
  cbv zeta. split; [eexists; reflexivity|].
  split; [|reflexivity].
  exact (proj1 (proj2 (init_route_saves_what_it_answers
           (mkSysEnv (fun _ _ => Done tt) true (fun _ => Done 0) (fun _ _ _ => Done tt))
           (PDict [("pan_init"%string, PNum (PyInt 90)); ("pwr_init"%string, PNum (PyInt 0))])
           (mkSystem DEFAULT_CONFIG_document None true false []) _ eq_refl))).
Defined.

(** What [POST /system/hostname] does, case by case. *)
Lemma system_hostname_POST_cases E data s :
  let r := fst (system_hostname_POST E data s) in
  let s' := snd (system_hostname_POST E data s) in
  match py_get data "hostname" with
  | Failed e => r = Failed e /\ sys_done s' = sys_done s
  | Done (PStr (String c h)) =>
      let name := String c h in
      match run E (hostnamectl name) with
      | Done 0 =>
          sys_done s' = RunCommand restart_avahi :: RunCommand (hostnamectl name) :: sys_done s /\
          match run E restart_avahi with
          | Done _ => r = Done (jsonify_document (PDict [("status"%string, PStr "ok");
                                                         ("hostname"%string, PStr name)]))
          | Failed e => r = Failed e
          end
      | Done _ => r = Failed CommandError /\
                  sys_done s' = RunCommand (hostnamectl name) :: sys_done s
      | Failed e => r = Failed e /\
                    sys_done s' = RunCommand (hostnamectl name) :: sys_done s
      end
  | Done v =>
      sys_done s' = sys_done s /\
      if truthy v then r = Failed TypeError
      else r = Done (mkReply 400 (PDict [("error"%string, PStr "hostname required")]))
  end.
Proof.
  cbn zeta. unfold system_hostname_POST, sbind, lift, sret, check_call, call, perform.
  destruct (py_get data "hostname") as [v|e]; [|cbn; auto].
  destruct v as [|b|n|[|c h]|l|d]; cbn [truthy negb is_empty].
  - cbn. auto.
  - destruct b; cbn; auto.
  - destruct n as [z|f]; [destruct (z =? 0)|destruct (is_zero f)]; cbn; auto.
  - cbn. auto.
  - destruct (run E (hostnamectl (String c h))) as [[|p|p]|e]; cbn; auto.
    destruct (run E restart_avahi); cbn; auto.
  - destruct l; cbn; auto.
  - destruct d; cbn; auto.
Qed.

(** X29.  [POST /system/hostname] runs a command only when the body gives
    a non-empty string as hostname: first [hostnamectl] with that name,
    then the restart of the name service, and the restart only when
    [hostnamectl] ended with status 0.  An answer has status 400, and then
    nothing was run, or status 200, and then both commands were run, in
    this order, whatever the exit status of the restart. *)
Theorem hostname_is_set_before_restart :
  forall (E : sys_env) (data : pyobj) (s : system),
    let r := fst (system_hostname_POST E data s) in
    let s' := snd (system_hostname_POST E data s) in
    exists cmds,
      sys_done s' = cmds ++ sys_done s /\
      (cmds = [] \/
       exists name,
         name <> EmptyString /\ py_get data "hostname" = Done (PStr name) /\
         (cmds = [RunCommand (hostnamectl name)] \/
          cmds = [RunCommand restart_avahi; RunCommand (hostnamectl name)] /\
          run E (hostnamectl name) = Done 0)) /\
      (forall rep, r = Done rep ->
         (status_code rep = 400 /\ cmds = []) \/
         (status_code rep = 200 /\
          exists name,
            cmds = [RunCommand restart_avahi; RunCommand (hostnamectl name)] /\
            payload rep = PDict [("status"%string, PStr "ok"); ("hostname"%string, PStr name)])) /\
      (forall v, py_get data "hostname" = Done v -> truthy v = false ->
         r = Done (mkReply 400 (PDict [("error"%string, PStr "hostname required")]))).
Proof.
  intros E data s. pose proof (system_hostname_POST_cases E data s) as H. cbn zeta in *.
  destruct (py_get data "hostname") as [v|e].
  2:{ destruct H as [Hr Hd]. exists []. rewrite Hr, Hd.
      repeat split; [now left | discriminate | discriminate]. }
  assert (Hother : (sys_done (snd (system_hostname_POST E data s)) = sys_done s /\
                    if truthy v then fst (system_hostname_POST E data s) = Failed TypeError
                    else fst (system_hostname_POST E data s) =
                         Done (mkReply 400 (PDict [("error"%string, PStr "hostname required")]))) ->
                   exists cmds,
                     sys_done (snd (system_hostname_POST E data s)) = cmds ++ sys_done s /\
                     (cmds = [] \/
                      exists name,
                        name <> EmptyString /\ Done v = Done (PStr name) /\
                        (cmds = [RunCommand (hostnamectl name)] \/
                         cmds = [RunCommand restart_avahi; RunCommand (hostnamectl name)] /\
                         run E (hostnamectl name) = Done 0)) /\
                     (forall rep, fst (system_hostname_POST E data s) = Done rep ->
                        (status_code rep = 400 /\ cmds = []) \/
                        (status_code rep = 200 /\
                         exists name,
                           cmds = [RunCommand restart_avahi; RunCommand (hostnamectl name)] /\
                           payload rep = PDict [("status"%string, PStr "ok");
                                                ("hostname"%string, PStr name)])) /\
                     (forall v0, Done v = Done v0 -> truthy v0 = false ->
                        fst (system_hostname_POST E data s) =
                        Done (mkReply 400 (PDict [("error"%string, PStr "hostname required")])))).
  { intros [Hd Hr]. exists []. split; [exact Hd|]. split; [now left|]. split.
    - intros rep Hrep. left. destruct (truthy v); rewrite Hr in Hrep; [discriminate|].
      injection Hrep as <-. auto.
    - intros v0 [= <-] Hv. now rewrite Hv in Hr. }
  destruct v as [|b|n|[|c h]|l|d]; try (apply Hother; exact H).
  clear Hother. cbn zeta in H.
  destruct (run E (hostnamectl (String c h))) as [rc|e] eqn:Hrun.
  - destruct rc as [|p|p].
    + destruct H as [Hd Hr]. eexists [_; _]. split; [exact Hd|]. split.
      * right. exists (String c h). split; [discriminate|]. split; [reflexivity|]. now right.
      * split; [|intros v0 [= <-]; discriminate].
        intros rep Hrep. right. destruct (run E restart_avahi); rewrite Hr in Hrep; [|discriminate].
        injection Hrep as <-. split; [reflexivity|]. now exists (String c h).
    + destruct H as [Hr Hd]. eexists [_]. split; [exact Hd|]. split.
      * right. exists (String c h). split; [discriminate|]. split; [reflexivity|]. now left.
      * split; [|intros v0 [= <-]; discriminate]. intros rep Hrep. rewrite Hr in Hrep. discriminate.
    + destruct H as [Hr Hd]. eexists [_]. split; [exact Hd|]. split.
      * right. exists (String c h). split; [discriminate|]. split; [reflexivity|]. now left.
      * split; [|intros v0 [= <-]; discriminate]. intros rep Hrep. rewrite Hr in Hrep. discriminate.
  - destruct H as [Hr Hd]. eexists [_]. split; [exact Hd|]. split.
    + right. exists (String c h). split; [discriminate|]. split; [reflexivity|]. now left.
    + split; [|intros v0 [= <-]; discriminate]. intros rep Hrep. rewrite Hr in Hrep. discriminate.
Qed.

(** ** Start of the daemon *)

(** What is left of [startup] once the configuration is loaded. *)
Lemma startup_after_load E cfg s1 r s' :
  well_shaped cfg -> sys_config s1 = cfg ->
  (SERVO_LIMITS <- get_config "servo_limits" ;;
   apply_limits E pan sys_pan SERVO_LIMITS ;;;
   apply_limits E tilt sys_tilt SERVO_LIMITS ;;;
   apply_start_angle E "pan_init" pan sys_pan ;;;
   apply_start_angle E "tilt_init" tilt sys_tilt ;;;
   v <- get_config "pwr_init" ;;
   match v with
   | PNone => sret tt
   | _ => perform (PowerWrite (truthy v)) (Done tt)
   end)%sys s1 = (r, s') ->
  sys_config s' = cfg /\
  match r with
  | Done _ => True
  | Failed e =>
      match sys_done s' with
      | SetLimits a lo hi :: _ => set_limits E a lo hi = Failed e
      | InitMove a v :: _ => init_move E a v = Failed e
      | _ => False
      end
  end /\
  forall a lo hi,
    In (SetLimits a lo hi) (sys_done s') ->
    In (SetLimits a lo hi) (sys_done s1) \/
    exists limits,
      py_getitem cfg "servo_limits" = Done limits /\
      py_getitem limits (axis_name a) = Done (PList [lo; hi]).
Proof.
  intros (Hkeys & (d & l & px & py & -> & Hl & Hp) & (d' & l2 & tx & ty & Hd & Hl2 & Ht)) Hc.
  injection Hd as <-. rewrite Hl in Hl2. injection Hl2 as <-.
  destruct (Hkeys "pan_init"%string) as [vp Hvp]; [cbn; tauto|].
  destruct (Hkeys "tilt_init"%string) as [vt Hvt]; [cbn; tauto|].
  destruct (Hkeys "pwr_init"%string) as [vw Hvw]; [cbn; tauto|].
  destruct s1 as [c f p t dn]. cbn in Hc. subst c.
  unfold sbind, get_config, apply_limits, apply_start_angle, perform, lift, sret.
  cbn [sys_config sys_pan sys_tilt sys_done sys_file].
  cbn [py_getitem] in *. rewrite Hl.
  assert (Hpan : forall a lo hi, SetLimits pan px py = SetLimits a lo hi ->
            exists limits, Done (PDict l) = Done limits /\
                           py_getitem limits (axis_name a) = Done (PList [lo; hi])).
  { intros a lo hi [= <- <- <-]. exists (PDict l). cbn. now rewrite Hp. }
  assert (Htilt : forall a lo hi, SetLimits tilt tx ty = SetLimits a lo hi ->
            exists limits, Done (PDict l) = Done limits /\
                           py_getitem limits (axis_name a) = Done (PList [lo; hi])).
  { intros a lo hi [= <- <- <-]. exists (PDict l). cbn. now rewrite Ht. }
  destruct p, t;
    repeat (cbn [sys_config sys_pan sys_tilt sys_done sys_file star_args py_getitem axis_name];
            unfold sbind, get_config, perform, lift, sret;
            rewrite ?Hp, ?Ht, ?Hvp, ?Hvt, ?Hvw, ?Hl;
            try match goal with
                | |- context [set_limits E ?a ?x ?y] =>
                    let H := fresh "L" in destruct (set_limits E a x y) as [[]|?] eqn:H
                | |- context [init_move E ?a ?x] =>
                    let H := fresh "M" in destruct (init_move E a x) as [[]|?] eqn:H
                end);
    try (destruct vw; cbn [sys_config sys_pan sys_tilt sys_done sys_file]);
    intros [= <- <-]; cbn [sys_config sys_done];
    (split; [reflexivity|]); (split; [solve [exact I | assumption]|]);
    intros a lo hi Hin; cbn [In] in Hin;
    repeat match type of Hin with
           | _ \/ _ => destruct Hin as [Hin|Hin]
           end;
    try discriminate; eauto.
Qed.

Lemma sbind_unfold {A B : Type} (m : Sys A) (k : A -> Sys B) s :
  sbind m k s = match m s with
                | (Done a, s1) => k a s1
                | (Failed e, s1) => (Failed e, s1)
                end.
Proof. reflexivity. Qed.

(** X30.  Once the configuration file exists or can be created, the start
    of the daemon fails only in a command to a servo, and that command is
    the last thing it did: the configuration it loaded is well shaped, so
    that every lookup in it succeeds, and a servo that is there gets as
    its limits exactly the two items that the configuration holds for its
    axis. *)
Theorem startup_fails_only_in_a_servo_command :
  forall (E : sys_env) (s : system),
    sys_file s <> None \/ file_writable E = true ->
    let r := fst (startup E s) in
    let s' := snd (startup E s) in
    well_shaped (sys_config s') /\
    match r with
    | Done _ => True
    | Failed e =>
        match sys_done s' with
        | SetLimits a lo hi :: _ => set_limits E a lo hi = Failed e
        | InitMove a v :: _ => init_move E a v = Failed e
        | _ => False
        end
    end /\
    forall a lo hi,
      In (SetLimits a lo hi) (sys_done s') ->
      In (SetLimits a lo hi) (sys_done s) \/
      exists limits,
        py_getitem (sys_config s') "servo_limits" = Done limits /\
        py_getitem limits (axis_name a) = Done (PList [lo; hi]).
Proof.
  intros E s Hfile. cbn zeta.
  assert (Hload : exists cfg file,
            load_device_config (file_writable E) (sys_file s) = (Done cfg, file) /\
            well_shaped cfg).
  { destruct (sys_file s) as [content|] eqn:Hf.
    - unfold load_device_config. eexists _, _. split; [reflexivity|].
      apply validated_is_well_shaped.
    - destruct Hfile as [Hfile | ->]; [congruence|].
      eexists _, _. split; [reflexivity | apply default_config_well_shaped]. }
  destruct Hload as (cfg & file & Hload & Hshape).
  destruct (startup E s) as [r s'] eqn:Hrun.
  unfold startup in Hrun. rewrite sbind_unfold in Hrun.
  unfold load_config in Hrun. rewrite Hload in Hrun.
  destruct (startup_after_load E cfg (mkSystem cfg file (sys_pan s) (sys_tilt s) (sys_done s))
              r s' Hshape eq_refl Hrun) as (Hc & Hr & Hd).
  cbn [fst snd]. rewrite Hc. split; [exact Hshape|]. split; [exact Hr | exact Hd].
Qed.

Lemma startup_fails_only_in_a_servo_command_witness :
  let E := mkSysEnv (fun _ _ => Done tt) false (fun _ => Done 0)
             (fun a _ _ => match a with pan => Done tt | tilt => Failed ServoError end) in
  let s := mkSystem PNone (Some (Done (PDict [("servo_limits"%string, PStr "wide")])))
             true true [] in
  (sys_file s <> None \/ file_writable E = true) /\
  well_shaped (sys_config (snd (startup E s))) /\
  match fst (startup E s) with
  | Done _ => True
  | Failed e =>
      match sys_done (snd (startup E s)) with
      | SetLimits a lo hi :: _ => set_limits E a lo hi = Failed e
      | InitMove a v :: _ => init_move E a v = Failed e
      | _ => False
      end
  end /\
  forall a lo hi,
    In (SetLimits a lo hi) (sys_done (snd (startup E s))) ->
    In (SetLimits a lo hi) (sys_done s) \/
    exists limits,
      py_getitem (sys_config (snd (startup E s))) "servo_limits" = Done limits /\
      py_getitem limits (axis_name a) = Done (PList [lo; hi]).
Proof.
  cbv zeta. split; [left; discriminate|].
  apply (startup_fails_only_in_a_servo_command
           (mkSysEnv (fun _ _ => Done tt) false (fun _ => Done 0)
              (fun a _ _ => match a with pan => Done tt | tilt => Failed ServoError end))
           (mkSystem PNone (Some (Done (PDict [("servo_limits"%string, PStr "wide")])))
              true true [])).
  left. discriminate.
Defined.

Example startup_stops_at_failed_limits :
  let E := mkSysEnv (fun _ _ => Done tt) false (fun _ => Done 0)
             (fun a _ _ => match a with pan => Done tt | tilt => Failed ServoError end) in
  let s := mkSystem PNone (Some (Done (PDict [("servo_limits"%string, PStr "wide")])))
             true true [] in
  fst (startup E s) = Failed ServoError /\
  sys_done (snd (startup E s)) =
    [SetLimits tilt (PNum (PyInt 80)) (PNum (PyInt 165));
     SetLimits pan (PNum (PyInt 30)) (PNum (PyInt 210))].
Proof. split; reflexivity. Qed.
